(** * DBMS-SQL: relational tables to a knowledge graph, and the dual-path query layer

    A shallow embedding of
      - [src/ingestion/dynamic_ingestor.py]   (class [DynamicIngestor]),
      - [src/kg_converter/dynamic_converter.py] (class [DynamicKGConverter]),
      - [src/query_layer/llm_orchestrator.py] (class [DualPathOrchestrator]),
      - [src/llm/client.py]                   (class [LLMClient]),
      - [src/ingestion/sqlite_ingestor.py]    (class [SQLiteIngestor]),
      - [src/kg_converter/table_to_kg.py]     (class [TableToKGConverter]),
      - [src/visualization/kg_visualizer.py]  ([create_plotly_graph]),
      - [src/evaluation/evaluator.py]         (the scores of [run_evaluation]),
    together with small models of the three services the code talks to
    (the SQLite file, the Neo4j store, the text-generation service).

    Conventions.
      - A Python function that may raise returns [Exc]; a function that
        talks to the outside runs in the monad [M], which threads the
        [world] and keeps every effect performed before an exception.
      - Python dictionaries are association lists in insertion order,
        because the code iterates over them.
      - Characters are 8-bit; table and column names are taken to be ASCII
        (bytes above 127 are caseless symbols).
      - The code splices names into its SQL statements without quoting
        them.  The tables of a source have names that SQLite, in
        [PRAGMA table_info(name)] and after [FROM], either reads as
        that name or rejects, as it does the keyword [order]; a table
        name that SQLite would read as another name (one that holds a
        quote, a dot or a space) is outside the model.  Which names are
        rejected, what a name the catalogue does not list denotes, and
        what a condition on a column whose name is not read as itself
        selects, is given by the [platform].
      - The cells of a source are NULL, integers or text, and reals whose
        value is an integer; a frame read by pandas holds the floats
        pandas makes of integers that share a column with a NULL. *)

From Stdlib Require Import String Ascii List ZArith Lia Bool Arith DecimalString.
Import ListNotations.
Open Scope string_scope.
Open Scope list_scope.
Open Scope nat_scope.

(* ================================================================== *)
(** * Part I: the program                                              *)
(* ================================================================== *)

(** ** Python strings *)

Module Py.

Definition code (c : ascii) : nat := nat_of_ascii c.

Definition is_ascii_upper (c : ascii) : bool := (65 <=? code c) && (code c <=? 90).
Definition is_ascii_lower (c : ascii) : bool := (97 <=? code c) && (code c <=? 122).
Definition is_digit (c : ascii) : bool := (48 <=? code c) && (code c <=? 57).

Definition lower_char (c : ascii) : ascii :=
  if is_ascii_upper c then ascii_of_nat (code c + 32) else c.

Definition upper_char (c : ascii) : ascii :=
  if is_ascii_lower c then ascii_of_nat (code c - 32) else c.

Fixpoint map_chars (f : ascii -> ascii) (s : string) : string :=
  match s with
  | EmptyString => EmptyString
  | String c s' => String (f c) (map_chars f s')
  end.

(** [s.lower()] and [s.upper()] *)
Definition lower (s : string) : string := map_chars lower_char s.
Definition upper (s : string) : string := map_chars upper_char s.

(** [pattern in s] on two strings: [pattern] occurs as a contiguous run. *)
Fixpoint contains (pattern s : string) : bool :=
  match s with
  | EmptyString => prefix pattern EmptyString
  | String _ s' => prefix pattern s || contains pattern s'
  end.

(** [s[:n]] *)
Definition slice_to (n : nat) (s : string) : string := substring 0 n s.

(** Characters [str.isspace] accepts below code point 256. *)
Definition is_space (c : ascii) : bool :=
  let n := code c in
  ((9 <=? n) && (n <=? 13)) || ((28 <=? n) && (n <=? 32)) || (n =? 133) || (n =? 160).

Fixpoint lstrip (s : string) : string :=
  match s with
  | EmptyString => EmptyString
  | String c s' => if is_space c then lstrip s' else s
  end.

Fixpoint rstrip (s : string) : string :=
  match s with
  | EmptyString => EmptyString
  | String c s' =>
      match rstrip s' with
      | EmptyString => if is_space c then EmptyString else String c EmptyString
      | r => String c r
      end
  end.

(** [s.strip()] *)
Definition strip (s : string) : string := rstrip (lstrip s).

(** Truthiness of a string: non-empty. *)
Definition truthy (s : string) : bool :=
  match s with EmptyString => false | String _ _ => true end.

(** [sep.join(parts)] *)
Fixpoint join (sep : string) (parts : list string) : string :=
  match parts with
  | [] => EmptyString
  | [p] => p
  | p :: rest => (p ++ sep ++ join sep rest)%string
  end.

(** [str(n)] for an integer. *)
Definition str_of_Z (z : Z) : string := NilZero.string_of_int (Z.to_int z).

(** [float(n)] for an integer, as the integer it is worth: the nearest
    number with a 53-bit mantissa, ties to the even mantissa. *)
Definition to_double (z : Z) : Z :=
  let a := Z.abs z in
  let bits := (Z.log2 a + 1)%Z in
  if (bits <=? 53)%Z then z
  else
    let shift := (bits - 53)%Z in
    let q := Z.shiftr a shift in
    let r := (a - Z.shiftl q shift)%Z in
    let half := Z.shiftl 1 (shift - 1) in
    let q' := if (half <? r)%Z || ((half =? r)%Z && Z.odd q) then (q + 1)%Z else q in
    (Z.sgn z * Z.shiftl q' shift)%Z.

(** The decimal with the fewest significant digits that reads back as
    the double [a], the nearest one if there are two; [k] digits are
    tried, [e + 1] being the number of digits of [a]. *)
Fixpoint shortest_from (fuel k : nat) (a : Z) (e : nat) : Z :=
  match fuel with
  | O => a
  | S fuel' =>
      let unit := Z.pow 10 (Z.of_nat (e + 1 - k)) in
      let lo := (a / unit * unit)%Z in
      let hi := (lo + unit)%Z in
      let lo_ok := Z.eqb (to_double lo) a in
      let hi_ok := Z.eqb (to_double hi) a in
      if lo_ok && hi_ok then (if (a - lo <=? hi - a)%Z then lo else hi)
      else if lo_ok then lo
      else if hi_ok then hi
      else shortest_from fuel' (S k) a e
  end.

Fixpoint rstrip_zeros (s : string) : string :=
  match s with
  | EmptyString => EmptyString
  | String c s' =>
      match rstrip_zeros s' with
      | EmptyString => if Ascii.eqb c "0" then EmptyString else String c EmptyString
      | r => String c r
      end
  end.

(** [repr] of a double worth the integer [a], [a >= 10 ** 16]:
    the shortest digits, then the exponent. *)
Definition scientific (a : Z) : string :=
  let e := String.length (str_of_Z a) - 1 in
  let s := str_of_Z (shortest_from 17 1 a e) in
  let exponent := str_of_Z (Z.of_nat (String.length s - 1)) in
  match rstrip_zeros s with
  | EmptyString => "0"
  | String d EmptyString => (String d EmptyString ++ "e+" ++ exponent)%string
  | String d rest => (String d EmptyString ++ "." ++ rest ++ "e+" ++ exponent)%string
  end.

(** [str(x)] for a float worth the integer [z]: ['12.0'], and from
    [1e16] on the exponent notation. *)
Definition str_of_float (z : Z) : string :=
  let a := Z.abs z in
  let body := if (a <? 10 ^ 16)%Z then (str_of_Z a ++ ".0")%string else scientific a in
  if (z <? 0)%Z then ("-" ++ body)%string else body.

Definition chars (s : string) : list ascii := list_ascii_of_string s.

End Py.

(** ** Exceptions and the two monads *)

Module Exn.

Inductive exn_kind : Type :=
| FileNotFoundError   (* raised by [ingest_all_tables] itself *)
| DatabaseError       (* sqlite3 / pandas: a statement SQLite rejects *)
| TypeError           (* [re.sub] applied to [None] *)
| KeyError            (* a missing dictionary key *)
| ClientError         (* neo4j: a statement the store rejects *)
| HTTPError.          (* requests: the text-generation service failed *)

Record exn : Type := mk_exn { kind : exn_kind; message : string }.

(** A computation that returns or raises. *)
Inductive Exc (A : Type) : Type :=
| Ok (a : A)
| Raise (e : exn).
Arguments Ok {A} a.
Arguments Raise {A} e.

Definition bindE {A B : Type} (m : Exc A) (k : A -> Exc B) : Exc B :=
  match m with
  | Ok a => k a
  | Raise e => Raise e
  end.

(** [try: m  except Exception as e: h e] *)
Definition try_exceptE {A : Type} (m : Exc A) (h : exn -> Exc A) : Exc A :=
  match m with
  | Ok a => Ok a
  | Raise e => h e
  end.

Definition is_ok {A : Type} (m : Exc A) : bool :=
  match m with Ok _ => true | Raise _ => false end.

(** A [for] loop whose body may [return] a value ([Some]) or fall
    through to the next element ([None]); the loop yields [None] when
    it runs out of elements. *)
Fixpoint first_returned {A R : Type} (body : A -> Exc (option R)) (l : list A)
  : Exc (option R) :=
  match l with
  | [] => Ok None
  | a :: rest =>
      bindE (body a) (fun r =>
        match r with
        | Some x => Ok (Some x)
        | None => first_returned body rest
        end)
  end.

(** A [for] loop over [l] that carries the variables it updates. *)
Fixpoint foldE {A S : Type} (l : list A) (s : S) (body : S -> A -> Exc S) : Exc S :=
  match l with
  | [] => Ok s
  | a :: rest => bindE (body s a) (fun s' => foldE rest s' body)
  end.

End Exn.
Export Exn.

(** ** Python dictionaries, in insertion order *)

Module Dict.

Definition dict (V : Type) : Type := list (string * V).

Fixpoint get {V : Type} (d : dict V) (k : string) : option V :=
  match d with
  | [] => None
  | (k', v) :: rest => if String.eqb k' k then Some v else get rest k
  end.

(** [d[k] = v]: overwrite in place, or append a new key. *)
Fixpoint set {V : Type} (d : dict V) (k : string) (v : V) : dict V :=
  match d with
  | [] => [(k, v)]
  | (k', v') :: rest =>
      if String.eqb k' k then (k', v) :: rest else (k', v') :: set rest k v
  end.

Definition keys {V : Type} (d : dict V) : list string := map fst d.
Definition values {V : Type} (d : dict V) : list V := map snd d.

(** [d += other] as Cypher's [SET n += row] does it, key by key. *)
Definition update {V : Type} (d other : dict V) : dict V :=
  fold_left (fun acc kv => set acc (fst kv) (snd kv)) other d.

End Dict.

(** ** Cell values and data frames *)

Module Frame.

(** A cell of a table, a cell of a frame, a query parameter, a node
    property. *)
Inductive value : Type :=
| VNull                 (* NULL, [None] *)
| VInt (z : Z)          (* an integer *)
| VFloat (z : Z)        (* a float worth the integer [z] *)
| VNaN                  (* [nan], what pandas puts for NULL among floats *)
| VText (s : string).

(** [a == b] on values: numbers are compared by what they are worth
    ([1 == 1.0]); the tables of [unique] count a missing value once. *)
Definition value_eqb (a b : value) : bool :=
  match a, b with
  | VNull, VNull => true
  | VNaN, VNaN => true
  | VInt x, VInt y | VInt x, VFloat y | VFloat x, VInt y | VFloat x, VFloat y =>
      Z.eqb x y
  | VText x, VText y => String.eqb x y
  | _, _ => false
  end.

(** [pd.notna(v)] *)
Definition notna (v : value) : bool :=
  match v with VNull | VNaN => false | _ => true end.

(** [str(v)] *)
Definition str (v : value) : string :=
  match v with
  | VNull => "None"
  | VInt z => Py.str_of_Z z
  | VFloat z => Py.str_of_float z
  | VNaN => "nan"
  | VText s => s
  end.

(** A frame: column names and the rows. *)
Record DataFrame : Type := mk_df {
  columns : list string;
  rows : list (list value)
}.

(** The type pandas gives a column. *)
Inductive dtype : Type := int64 | float64 | object.

Definition is_text (v : value) : bool :=
  match v with VText _ => true | _ => false end.
Definition is_number (v : value) : bool :=
  match v with VInt _ | VFloat _ => true | _ => false end.
Definition is_float (v : value) : bool :=
  match v with VFloat _ | VNaN => true | _ => false end.

(** The type of a column with these values: [object] with a text in
    it or without any number; among numbers, [float64] as soon as a
    value is missing or is a float. *)
Definition dtype_of (vals : list value) : dtype :=
  if existsb is_text vals then object
  else if negb (existsb is_number vals) then object
  else if existsb (fun v => negb (notna v) || is_float v) vals then float64
  else int64.

(** A value taken into a [float64] column or row. *)
Definition astype_float (v : value) : value :=
  match v with
  | VInt z => VFloat (Py.to_double z)
  | VNull => VNaN
  | _ => v
  end.

Definition column_at (i : nat) (rows : list (list value)) : list value :=
  map (fun row => nth i row VNull) rows.

Definition dtypes (width : nat) (rows : list (list value)) : list dtype :=
  map (fun i => dtype_of (column_at i rows)) (seq 0 width).

Fixpoint cast_row (dts : list dtype) (row : list value) : list value :=
  match dts, row with
  | dt :: dts', v :: row' =>
      (match dt with float64 => astype_float v | _ => v end) :: cast_row dts' row'
  | _, _ => row
  end.

(** What [pd.read_sql_query] makes of the rows SQLite returns
    ([DataFrame.from_records] with [coerce_float=True]): each column
    gets its type, and the integers and the NULLs of a [float64] column
    become floats. *)
Definition from_records (cols : list string) (fetched : list (list value)) : DataFrame :=
  mk_df cols (map (cast_row (dtypes (length cols) fetched)) fetched).

(** The type of the rows [df.iterrows()] yields: one type for the
    whole frame. *)
Definition row_dtype (df : DataFrame) : dtype :=
  let dts := dtypes (length (columns df)) (rows df) in
  if existsb (fun dt => match dt with object => true | _ => false end) dts then object
  else if existsb (fun dt => match dt with float64 => true | _ => false end) dts
       then float64
       else int64.

(** [df.iterrows()]: every row is a Series of one type, so in a frame
    of numbers with a [float64] column the integers come out as floats. *)
Definition iterrows (df : DataFrame) : list (list value) :=
  match row_dtype df with
  | float64 => map (map astype_float) (rows df)
  | _ => rows df
  end.

Fixpoint index_of (col : string) (cols : list string) : option nat :=
  match cols with
  | [] => None
  | c :: rest =>
      if String.eqb c col then Some 0
      else option_map S (index_of col rest)
  end.

(** [row[col]] for a row of a frame with columns [cols].  The code only
    asks for columns of the frame at hand; the model answers [VNull]
    elsewhere. *)
Definition cell (cols : list string) (row : list value) (col : string) : value :=
  match index_of col cols with
  | Some i => nth i row VNull
  | None => VNull
  end.

(** [df[col]] *)
Definition column_values (df : DataFrame) (col : string) : list value :=
  map (fun row => cell (columns df) row col) (rows df).

(** [series.dropna()] *)
Definition dropna (l : list value) : list value := filter notna l.

(** [series.unique()]: distinct values in order of first appearance. *)
Fixpoint unique (l : list value) : list value :=
  match l with
  | [] => []
  | x :: rest => x :: filter (fun y => negb (value_eqb x y)) (unique rest)
  end.

(** [df[col].dropna().unique()] *)
Definition distinct_values (df : DataFrame) (col : string) : list value :=
  unique (dropna (column_values df col)).

(** [df[col].nunique()]: nulls are not counted. *)
Definition nunique (df : DataFrame) (col : string) : nat :=
  length (distinct_values df col).

(** [col in df.columns] *)
Definition has_column (df : DataFrame) (col : string) : bool :=
  existsb (String.eqb col) (columns df).

(** A row as a dictionary ([df.to_dict('records')]): the values are
    taken column by column; a NULL among floats stays [nan]. *)
Definition record : Type := Dict.dict value.

Definition to_record (cols : list string) (row : list value) : record :=
  fold_left (fun acc col => Dict.set acc col (cell cols row col)) cols [].

Definition to_dict_records (df : DataFrame) : list record :=
  map (to_record (columns df)) (rows df).

Definition mem (v : value) (l : list value) : bool := existsb (value_eqb v) l.

(** Two of the values are equal. *)
Fixpoint has_duplicate (l : list value) : bool :=
  match l with
  | [] => false
  | x :: rest => mem x rest || has_duplicate rest
  end.

End Frame.
Export Frame.

(** ** Identifier sanitization ([DynamicKGConverter._safe_label], [_safe_property]) *)

Module Sanitize.

(** The character class [[a-zA-Z0-9_]]. *)
Definition is_word_char (c : ascii) : bool :=
  Py.is_ascii_lower c || Py.is_ascii_upper c || Py.is_digit c || Ascii.eqb c "_".

(** [re.sub(r'[^a-zA-Z0-9_]', '_', name)] *)
Definition re_sub_nonword (name : string) : string :=
  Py.map_chars (fun c => if is_word_char c then c else "_"%char) name.

Definition _safe_label (name : string) : string :=
  Py.slice_to 63 (re_sub_nonword name).

Definition _safe_property (name : string) : string :=
  Py.slice_to 63 (re_sub_nonword name).

(** Every character of [s] is in [[A-Za-z0-9_]]. *)
Definition all_word_chars (s : string) : bool :=
  forallb is_word_char (Py.chars s).

(** What the specification asks of a sanitized identifier. *)
Definition sanitized (s : string) : Prop :=
  all_word_chars s = true /\ String.length s <= 63.

End Sanitize.

(** ** The name-pattern test of [_detect_fk_to_target] *)

Module Pattern.

(** [fk_patterns], lines 130-134. *)
Definition fk_patterns (target_table target_pk : string) : list string :=
  [ (Py.lower target_table ++ "_id")%string;
    (Py.lower target_table ++ "_ID")%string;
    Py.lower target_pk ].

(** [any(pattern in col_lower for pattern in fk_patterns)], lines 137-138. *)
Definition name_matches (col target_table target_pk : string) : bool :=
  let col_lower := Py.lower col in
  existsb (fun pattern => Py.contains pattern col_lower)
          (fk_patterns target_table target_pk).

(** The two-pattern test the claim compares it with (written from the
    claim's words, not from the source). *)
Definition name_matches_two (col target_table target_pk : string) : bool :=
  Py.contains (Py.lower target_table ++ "_id")%string (Py.lower col)
  || Py.contains (Py.lower target_pk) (Py.lower col).

End Pattern.

(** ** The SQLite file behind [sqlite3.connect] and [pd.read_sql_query] *)

Module Sqlite.

(** One row of [PRAGMA table_info(t)], as the code keeps it:
    [{'name': r[1], 'type': r[2], 'pk': r[5], 'notnull': r[3]}]. *)
Record column_info : Type := mk_column {
  c_name : string;
  c_type : string;
  c_pk : nat;        (* 0, or the column's position in the declared key *)
  c_notnull : nat
}.

Record Table : Type := mk_table {
  t_name : string;
  t_columns : list column_info;
  t_rows : list (list value)
}.

Definition database : Type := list Table.

Inductive file : Type :=
| SqliteFile (db : database)
| NotADatabase.

(** No statement of the program writes to the source, so a connection
    is the content of the file at the time it was opened. *)
Definition connection : Type := file.

(** A file that cannot be read as a database makes the first statement
    fail. *)
Definition opened (conn : connection) : Exc database :=
  match conn with
  | SqliteFile db => Ok db
  | NotADatabase => Raise (mk_exn DatabaseError "file is not a database")
  end.

(** The table the catalogue lists under [name]. *)
Definition find_table (db : database) (name : string) : option Table :=
  find (fun t => String.eqb (t_name t) name) db.

Definition column_names (t : Table) : list string := map c_name (t_columns t).

(** The three places where the program splices a name, unquoted, into
    a statement:
    [PRAGMA table_info(name)], [... FROM name], [... WHERE name ...]. *)
Inductive splice : Type := in_pragma | in_from | in_where.

(** What the model leaves to the SQLite library and to the file system
    the program runs on. *)
Class platform : Type := mk_platform {
  (** SQLite does not read the text [name], at that place, as the name
      [name].  Where a table is named it rejects the statement then
      (a keyword such as [order], a text not made as an identifier
      is); what it does in a condition is [unquoted_where]. *)
  needs_quoting : splice -> string -> bool;
  (** What SQLite reads under a name the catalogue does not list as it
      is: a listed table in another case, a table of its own such as
      [sqlite_master], none, or a text it rejects. *)
  unlisted_table : splice -> database -> string -> Exc (option Table);
  (** The rows [SELECT * FROM t WHERE col IS NOT NULL] returns when
      [col] is not read as a column of that name of [t]: an error, or
      the rows chosen by what the text is read as. *)
  unquoted_where : Table -> string -> Exc (list (list value));
  (** The count of a verification query of [_detect_fk_to_target]
      outside what [count_key_rows] below accounts for. *)
  other_match_count : connection -> string -> string -> list value -> Exc nat;
  (** [sqlite3.connect] can create a file at this path: its directory
      is there and can be written to. *)
  can_create : string -> bool
}.

(** The frame pandas reads from a whole table. *)
Definition frame_of (t : Table) : DataFrame :=
  from_records (column_names t) (t_rows t).

(** [name LIKE 'sqlite_%']: LIKE ignores ASCII case, [_] stands for one
    character and [%] for any run of characters. *)
Definition like_sqlite_ (name : string) : bool :=
  prefix "sqlite" (Py.lower name) && (7 <=? String.length name).

(** [SELECT name FROM sqlite_master WHERE type='table'
     AND name NOT LIKE 'sqlite_%'] *)
Definition user_table_names (conn : connection) : Exc (list string) :=
  bindE (opened conn) (fun db =>
    Ok (map t_name (filter (fun t => negb (like_sqlite_ (t_name t))) db))).

Definition no_such_table {A : Type} : Exc A :=
  Raise (mk_exn DatabaseError "no such table").

Definition syntax_error {A : Type} : Exc A :=
  Raise (mk_exn DatabaseError "syntax error").

Section WithPlatform.

Context {sql : platform}.

(** The table a statement reads under the unquoted [name]: the listed
    one when SQLite reads the name as itself. *)
Definition read_table (p : splice) (db : database) (name : string) : Exc (option Table) :=
  match find_table db name with
  | Some t => if needs_quoting p name then syntax_error else Ok (Some t)
  | None => unlisted_table p db name
  end.

(** [PRAGMA table_info(name)] lists nothing for a table it does not know. *)
Definition table_info (conn : connection) (name : string) : Exc (list column_info) :=
  bindE (opened conn) (fun db =>
  bindE (read_table in_pragma db name) (fun found =>
    match found with
    | Some t => Ok (t_columns t)
    | None => Ok []
    end)).

(** The table of [... FROM name]. *)
Definition from_table (conn : connection) (name : string) : Exc Table :=
  bindE (opened conn) (fun db =>
  bindE (read_table in_from db name) (fun found =>
    match found with
    | Some t => Ok t
    | None => no_such_table
    end)).

(** [SELECT * FROM name] *)
Definition select_all (conn : connection) (name : string) : Exc DataFrame :=
  bindE (from_table conn name) (fun t => Ok (frame_of t)).

(** [SELECT COUNT( * ) as count FROM name] *)
Definition select_count (conn : connection) (name : string) : Exc nat :=
  bindE (from_table conn name) (fun t => Ok (length (t_rows t))).

(** [SELECT * FROM name LIMIT n] *)
Definition select_limit (conn : connection) (name : string) (n : nat) : Exc DataFrame :=
  bindE (from_table conn name) (fun t =>
    Ok (from_records (column_names t) (firstn n (t_rows t)))).

(** A column of [t] that SQLite reads under the unquoted [col]. *)
Definition reads_column (t : Table) (col : string) : bool :=
  existsb (String.eqb col) (column_names t) && negb (needs_quoting in_where col).

(** [SELECT * FROM name WHERE col IS NOT NULL] *)
Definition select_not_null (conn : connection) (name col : string) : Exc DataFrame :=
  bindE (from_table conn name) (fun t =>
    if reads_column t col
    then Ok (from_records (column_names t)
               (filter (fun row => notna (cell (column_names t) row col)) (t_rows t)))
    else bindE (unquoted_where t col) (fun kept =>
           Ok (from_records (column_names t) kept))).

(** The rows of [t] whose [pk] cell is worth one of [sample_vals]. *)
Definition count_key_rows (t : Table) (pk : string) (sample_vals : list value) : nat :=
  length (filter (fun row => mem (cell (column_names t) row pk) sample_vals)
                 (t_rows t)).

(** A number [str] renders as a literal that SQLite reads back as the
    same number: an integer, or a float without exponent. *)
Definition plain_number (v : value) : bool :=
  match v with
  | VInt _ => true
  | VFloat z => (Z.abs z <=? 2 ^ 53)%Z
  | _ => false
  end.

Definition integer_or_null (v : value) : bool :=
  match v with VInt _ | VNull => true | _ => false end.

(** The verification statement of [_detect_fk_to_target],
    [SELECT COUNT( * ) as match_count FROM t WHERE pk IN (v1, ..., vn)]
    with the [str] of the sampled values as [v1, ..., vn].  Where [t]
    and [pk] are read as themselves, the sampled values are numbers
    and the cells of [pk] are integers or NULL, SQLite compares numbers
    and the count is [count_key_rows]; anything else (text spliced
    without quotes, keys stored as text) is left to the platform. *)
Definition integer_check_query
    (conn : connection) (target_table target_pk : string) (sample_vals : list value)
  : Exc nat :=
  bindE (opened conn) (fun db =>
    match find_table db target_table with
    | Some t =>
        if negb (needs_quoting in_from target_table)
           && reads_column t target_pk
           && forallb plain_number sample_vals
           && forallb (fun row => integer_or_null (cell (column_names t) row target_pk))
                      (t_rows t)
        then Ok (count_key_rows t target_pk sample_vals)
        else other_match_count conn target_table target_pk sample_vals
    | None => other_match_count conn target_table target_pk sample_vals
    end).

End WithPlatform.

End Sqlite.

(** ** The Neo4j store *)

Module Graph.

Record node : Type := mk_node {
  label : string;
  props : Dict.dict value
}.

(** An edge joins two nodes, given by their positions in [nodes]. *)
Definition edge : Type := (nat * string * nat)%type.

Record constraint : Type := mk_constraint {
  k_name : string;
  k_label : string;
  k_key : string
}.

Record graph : Type := mk_graph {
  nodes : list node;
  edges : list edge;
  constraints : list constraint
}.

Definition empty : graph := mk_graph [] [] [].

(** The statements the program sends, with the names it splices into
    them and the parameters it passes. *)
Inductive cypher : Type :=
| DetachDeleteAll
    (* MATCH (n) DETACH DELETE n *)
| ShowConstraints
    (* CALL db.constraints() YIELD name RETURN name *)
| DropConstraint (name : string)
    (* DROP CONSTRAINT name IF EXISTS *)
| MergeRows (lbl pk : string) (rows : list record)
    (* UNWIND $rows as row MERGE (n:`lbl` { `pk`: row.`pk` }) SET n += row *)
| CountLabel (lbl : string)
    (* MATCH (n:`lbl`) RETURN count(n) as count *)
| CreateConstraint (name lbl key : string)
    (* CREATE CONSTRAINT name IF NOT EXISTS FOR (n:`lbl`) REQUIRE n.`key` IS UNIQUE *)
| MergeRel (source_label source_key : string) (source_id : value)
           (target_label target_key : string) (target_id : value)
           (rel_type : string)
    (* MATCH (source:`sl` { `sk`: $source_id })
       MATCH (target:`tl` { `tk`: $target_id })
       MERGE (source)-[:`rel_type`]->(target) *)
| MergeCategoryRel (lbl key : string) (cat_value cat_name : string)
                   (rel_name : string).
    (* MATCH (n:`lbl`) WHERE n.`key` = $cat_value
       MERGE (cat:Category { name: $cat_name })
       MERGE (n)-[:`rel_name`]->(cat) *)

Inductive result : Type :=
| RNone
| RCount (count : nat)
| RNames (names : list string).

(** [(n:`lbl` { `key`: v })]; a null never equals anything. *)
Definition matches (lbl key : string) (v : value) (n : node) : bool :=
  String.eqb (label n) lbl
  && match Dict.get (props n) key with
     | Some x => notna v && value_eqb x v
     | None => false
     end.

Fixpoint positions_from {A : Type} (p : A -> bool) (i : nat) (l : list A) : list nat :=
  match l with
  | [] => []
  | a :: rest =>
      if p a then i :: positions_from p (S i) rest
      else positions_from p (S i) rest
  end.

Definition matching (lbl key : string) (v : value) (g : graph) : list nat :=
  positions_from (matches lbl key v) 0 (nodes g).

Definition edge_eqb (a b : edge) : bool :=
  let '(s1, r1, t1) := a in
  let '(s2, r2, t2) := b in
  (s1 =? s2) && String.eqb r1 r2 && (t1 =? t2).

(** [MERGE (s)-[:r]->(t)]: the edge is created unless it is there. *)
Definition merge_edge (es : list edge) (e : edge) : list edge :=
  if existsb (edge_eqb e) es then es else es ++ [e].

Definition with_nodes (g : graph) (ns : list node) : graph :=
  mk_graph ns (edges g) (constraints g).
Definition with_edges (g : graph) (es : list edge) : graph :=
  mk_graph (nodes g) es (constraints g).
Definition with_constraints (g : graph) (ks : list constraint) : graph :=
  mk_graph (nodes g) (edges g) ks.

(** One row of [UNWIND $rows ... MERGE ... SET n += row]. *)
Definition merge_row (lbl pk : string) (g : graph) (row : record) : Exc graph :=
  match Dict.get row pk with
  | Some v =>
      if notna v then
        if existsb (matches lbl pk v) (nodes g)
        then Ok (with_nodes g
                   (map (fun n => if matches lbl pk v n
                                  then mk_node (label n) (Dict.update (props n) row)
                                  else n)
                        (nodes g)))
        else Ok (with_nodes g
                   (nodes g ++ [mk_node lbl (Dict.update [(pk, v)] row)]))
      else Raise (mk_exn ClientError "cannot merge node using null property value")
  | None => Raise (mk_exn ClientError "cannot merge node using null property value")
  end.

Fixpoint merge_rows (lbl pk : string) (g : graph) (rows : list record) : Exc graph :=
  match rows with
  | [] => Ok g
  | row :: rest => bindE (merge_row lbl pk g row) (fun g' => merge_rows lbl pk g' rest)
  end.

(** [MERGE (source)-[:r]->(target)] over every matched pair. *)
Definition merge_rel (g : graph) (sources targets : list nat) (rel_type : string) : graph :=
  with_edges g
    (fold_left
       (fun es s => fold_left (fun es' t => merge_edge es' (s, rel_type, t)) targets es)
       sources (edges g)).

(** For one matched entity node [n]:
    [MERGE (cat:Category { name: $cat_name }) MERGE (n)-[:r]->(cat)]. *)
Definition merge_category (cat_name rel_name : string) (g : graph) (n : nat) : graph :=
  let g1 :=
    if existsb (matches "Category" "name" (VText cat_name)) (nodes g)
    then g
    else with_nodes g (nodes g ++ [mk_node "Category" [("name", VText cat_name)]]) in
  merge_rel g1 [n] (matching "Category" "name" (VText cat_name) g1) rel_name.

(** The values a uniqueness constraint ranges over. *)
Definition constrained_values (g : graph) (k : constraint) : list value :=
  flat_map (fun n =>
              if String.eqb (label n) (k_label k)
              then match Dict.get (props n) (k_key k) with
                   | Some v => [v]
                   | None => []
                   end
              else [])
           (nodes g).

Definition consistent (g : graph) : bool :=
  forallb (fun k => negb (has_duplicate (constrained_values g k))) (constraints g).

(** A write is rolled back when it breaks a declared constraint. *)
Definition checked (g' : graph) : Exc (graph * result) :=
  if consistent g' then Ok (g', RNone)
  else Raise (mk_exn ClientError "constraint validation failed").

Definition count_label (lbl : string) (g : graph) : nat :=
  length (filter (fun n => String.eqb (label n) lbl) (nodes g)).

(** What the store does with a statement it accepts. *)
Definition run (q : cypher) (g : graph) : Exc (graph * result) :=
  match q with
  | DetachDeleteAll => Ok (mk_graph [] [] (constraints g), RNone)
  | ShowConstraints => Ok (g, RNames (map k_name (constraints g)))
  | DropConstraint name =>
      Ok (with_constraints g
            (filter (fun k => negb (String.eqb (k_name k) name)) (constraints g)),
          RNone)
  | MergeRows lbl pk rows =>
      bindE (merge_rows lbl pk g rows) checked
  | CountLabel lbl => Ok (g, RCount (count_label lbl g))
  | CreateConstraint name lbl key =>
      if existsb (fun k => String.eqb (k_name k) name
                           || (String.eqb (k_label k) lbl && String.eqb (k_key k) key))
                 (constraints g)
      then Ok (g, RNone)
      else checked (with_constraints g (constraints g ++ [mk_constraint name lbl key]))
  | MergeRel sl sk source_id tl tk target_id rel_type =>
      checked (merge_rel g (matching sl sk source_id g) (matching tl tk target_id g) rel_type)
  | MergeCategoryRel lbl key cat_value cat_name rel_name =>
      checked (fold_left (merge_category cat_name rel_name)
                         (matching lbl key (VText cat_value) g) g)
  end.

(** The labels, property keys and relationship types a statement names. *)
Definition labels_of (q : cypher) : list string :=
  match q with
  | MergeRows lbl _ _ | CountLabel lbl | CreateConstraint _ lbl _ => [lbl]
  | MergeRel sl _ _ tl _ _ _ => [sl; tl]
  | MergeCategoryRel lbl _ _ _ _ => [lbl; "Category"]
  | _ => []
  end.

Definition property_keys_of (q : cypher) : list string :=
  match q with
  | MergeRows _ pk rows => pk :: flat_map (@Dict.keys value) rows
  | CreateConstraint _ _ key => [key]
  | MergeRel _ sk _ _ tk _ _ => [sk; tk]
  | MergeCategoryRel _ key _ _ _ => [key; "name"]
  | _ => []
  end.

Definition rel_types_of (q : cypher) : list string :=
  match q with
  | MergeRel _ _ _ _ _ _ rel_type => [rel_type]
  | MergeCategoryRel _ _ _ _ rel_name => [rel_name]
  | _ => []
  end.

Definition rel_type_of_edge (e : edge) : string := snd (fst e).

End Graph.

(** ** The world the program runs in *)

Module World.

Record world : Type := mk_world {
  fs : Dict.dict Sqlite.file;      (* the files, by path *)
  store : Graph.graph;             (* the content of the Neo4j store *)
  log : list Graph.cypher          (* every statement sent to the store *)
}.

(** Effects performed before an exception stay performed. *)
Definition M (A : Type) : Type := world -> world * Exc A.

Definition ret {A : Type} (a : A) : M A := fun w => (w, Ok a).
Definition raise {A : Type} (e : exn) : M A := fun w => (w, Raise e).
Definition lift {A : Type} (m : Exc A) : M A := fun w => (w, m).

Definition bind {A B : Type} (m : M A) (k : A -> M B) : M B :=
  fun w =>
    match m w with
    | (w', Ok a) => k a w'
    | (w', Raise e) => (w', Raise e)
    end.

Definition try_except {A : Type} (m : M A) (h : exn -> M A) : M A :=
  fun w =>
    match m w with
    | (w', Ok a) => (w', Ok a)
    | (w', Raise e) => h e w'
    end.

(** A [for] loop that carries the variables it updates. *)
Fixpoint for_fold {A S : Type} (l : list A) (s : S) (body : S -> A -> M S) : M S :=
  match l with
  | [] => ret s
  | a :: rest => bind (body s a) (fun s' => for_fold rest s' body)
  end.

(** [os.path.exists(path)] *)
Definition os_path_exists (path : string) : M bool :=
  fun w => (w, Ok (match Dict.get (fs w) path with Some _ => true | None => false end)).

(** [sqlite3.connect(path)] opens the file; when there is none it
    creates an empty database, or raises if it cannot. *)
Definition sqlite3_connect {sql : Sqlite.platform} (path : string) : M Sqlite.connection :=
  fun w =>
    match Dict.get (fs w) path with
    | Some f => (w, Ok f)
    | None =>
        if Sqlite.can_create path
        then (mk_world (Dict.set (fs w) path (Sqlite.SqliteFile [])) (store w) (log w),
              Ok (Sqlite.SqliteFile []))
        else (w, Raise (mk_exn DatabaseError "unable to open database file"))
    end.

End World.
Export World.

Declare Scope monad_scope.
Notation "x <- m ;; k" := (bind m (fun x => k))
  (at level 61, m at next level, right associativity) : monad_scope.
Notation "m ;;; k" := (bind m (fun _ => k))
  (at level 61, right associativity) : monad_scope.
Open Scope monad_scope.

(** ** [DynamicIngestor] (src/ingestion/dynamic_ingestor.py) *)

Module Ingestor.
Import Sqlite.

(** [schemas[table_name]] *)
Record schema : Type := mk_schema {
  s_columns : list column_info;
  primary_key : option string;      (* [None] only for a table without columns *)
  row_count : nat;
  sample_data : list record
}.

(** The dictionary [ingest_all_tables] returns. *)
Record schema_info : Type := mk_schema_info {
  tables : list string;
  schemas : Dict.dict schema;
  total_rows : nat
}.

(** Line 40:
    [next((c['name'] for c in columns if c['pk']),
          columns[0]['name'] if columns else None)] *)
Definition detect_pk (columns : list column_info) : option string :=
  match find (fun c => negb (c_pk c =? 0)) columns with
  | Some c => Some (c_name c)
  | None =>
      match columns with
      | c :: _ => Some (c_name c)
      | [] => None
      end
  end.

Section WithPlatform.

Context {sql : platform}.

(** The body of the loop over [self.tables], lines 27-47. *)
Definition ingest_table (conn : connection) (schemas : Dict.dict schema)
    (table_name : string) : Exc (Dict.dict schema) :=
  bindE (table_info conn table_name) (fun columns =>
  bindE (select_count conn table_name) (fun row_count =>
  bindE (select_limit conn table_name 5) (fun sample_df =>
    let pk_col := detect_pk columns in
    Ok (Dict.set schemas table_name
          (mk_schema columns pk_col row_count (to_dict_records sample_df)))))).

(** [DynamicIngestor(db_path).ingest_all_tables()].  The attributes
    [self.tables] and [self.schemas] receive the values returned. *)
Definition ingest_all_tables (db_path : string) : M schema_info :=
  there <- os_path_exists db_path ;;
  if negb there
  then raise (mk_exn FileNotFoundError ("Database not found: " ++ db_path))
  else
    conn <- sqlite3_connect db_path ;;
    tables <- lift (user_table_names conn) ;;
    schemas <- lift (foldE tables [] (ingest_table conn)) ;;
    ret (mk_schema_info tables schemas
           (list_sum (map row_count (Dict.values schemas)))).

End WithPlatform.

End Ingestor.

(** ** [DynamicKGConverter] (src/kg_converter/dynamic_converter.py) *)

Module Converter.
Import Sqlite Graph Ingestor Sanitize.

(** [table_nodes[table_name]] *)
Record table_node : Type := mk_table_node {
  tn_label : string;
  tn_pk : string;
  tn_count : nat
}.

(** Line 217. *)
Definition categorical_cols : list string :=
  ["department"; "city"; "category"; "status"; "type";
   "name"; "product"; "country"; "genre"; "title"].

(** Lines 59-66: the non-null cells of a row under sanitized keys. *)
Definition row_dict (cols : list string) (row : list value) : record :=
  fold_left
    (fun acc cv =>
       let '(col, val) := cv in
       if notna val then Dict.set acc (_safe_property col) val else acc)
    (combine cols row) [].

(** Line 189. *)
Definition fk_rel_type (fk_col : string) : string :=
  ("REFERENCES_" ++ _safe_label (Py.upper fk_col))%string.

(** Line 229. *)
Definition categorical_rel_name (col : string) : string :=
  ("HAS_" ++ Py.upper (_safe_property col))%string.

(** Line 81. *)
Definition constraint_name (safe_label safe_pk : string) : string :=
  ("unique_" ++ safe_label ++ "_" ++ safe_pk)%string.

Section WithServices.

Context {sql : platform}.

(** [pd.read_sql_query(check_query, conn)['match_count'][0]] for the
    statement built from [target_table], [target_pk] and the [str]
    of the sampled values: whatever SQLite makes of that text. *)
Variable read_match_count :
  connection -> string -> string -> list value -> Exc nat.

(** Whether the store refuses the statement sent as its [n]-th. *)
Variable store_fault : nat -> bool.

(** [session.run(q, ...)] *)
Definition session_run (q : cypher) : M result :=
  fun w =>
    let sent := log w ++ [q] in
    if store_fault (length (log w))
    then (mk_world (fs w) (store w) sent,
          Raise (mk_exn ClientError "the store refused the statement"))
    else
      match Graph.run q (store w) with
      | Ok (g', r) => (mk_world (fs w) g' sent, Ok r)
      | Raise e => (mk_world (fs w) (store w) sent, Raise e)
      end.

(** Lines 252-261: the constraints are dropped if the store lists
    them; any failure here is swallowed. *)
Definition drop_all_constraints : M unit :=
  try_except
    (r <- session_run ShowConstraints ;;
     for_fold (match r with RNames names => names | _ => [] end) tt
              (fun _ name => session_run (DropConstraint name) ;;; ret tt))
    (fun _ => ret tt).

(** Lines 247-261. *)
Definition _safe_cleanup : M unit :=
  session_run DetachDeleteAll ;;;
  drop_all_constraints.

(** Lines 50-90. *)
Definition _create_base_nodes
    (db_path table_name safe_label pk : string) : M nat :=
  let safe_pk := _safe_property pk in
  conn <- sqlite3_connect db_path ;;
  df <- lift (select_all conn table_name) ;;
  let row_dicts := map (row_dict (columns df)) (iterrows df) in
  session_run (MergeRows safe_label safe_pk row_dicts) ;;;
  count_result <- session_run (CountLabel safe_label) ;;
  let node_count := match count_result with RCount n => n | _ => 0 end in
  session_run (CreateConstraint (constraint_name safe_label safe_pk)
                                safe_label safe_pk) ;;;
  ret node_count.

(** The first loop of [_detect_fk_to_target], lines 136-160, for one
    column.  [match_count / len(sample_vals) > 0.3] compares a
    quotient of an integer by a length between 1 and 10 with the
    double nearest to 0.3: the quotient is 3/10, whose double is that
    very number, or differs from it by at least 1/100, so the test is
    [3 * len(sample_vals) < 10 * match_count]. *)
Definition name_rule_body
    (source_df : DataFrame) (target_table target_pk : string) (conn : connection)
    (col : string) : Exc (option string) :=
  if Pattern.name_matches col target_table target_pk then
    let unique_vals := distinct_values source_df col in
    if length unique_vals =? 0 then Ok None
    else
      let sample_vals := firstn 10 unique_vals in
      try_exceptE
        (bindE (read_match_count conn target_table target_pk sample_vals)
           (fun match_count =>
              if 3 * length sample_vals <? 10 * match_count
              then Ok (Some col)
              else Ok None))
        (fun _ => Ok None)
  else Ok None.

(** The second loop, lines 163-182, for one column.
    [unique_count < total_rows * 0.1] is [10 * unique_count <
    total_rows]: the double product is exact when [total_rows] is a
    multiple of 10 and is at least 1/10 away from every integer
    otherwise. *)
Definition fallback_rule_body
    (source_df : DataFrame) (target_table target_pk : string) (conn : connection)
    (col : string) : Exc (option string) :=
  let unique_count := nunique source_df col in
  let total_rows := length (rows source_df) in
  if (10 * unique_count <? total_rows) && (1 <? unique_count) then
    let sample_vals := firstn 5 (distinct_values source_df col) in
    if 0 <? length sample_vals then
      try_exceptE
        (bindE (read_match_count conn target_table target_pk sample_vals)
           (fun match_count =>
              if 0 <? match_count then Ok (Some col) else Ok None))
        (fun _ => Ok None)
    else Ok None
  else Ok None.

(** Lines 127-184. *)
Definition _detect_fk_to_target
    (source_df : DataFrame) (target_table target_pk : string) (conn : connection)
  : Exc (option string) :=
  bindE (first_returned (name_rule_body source_df target_table target_pk conn)
                        (columns source_df))
    (fun found =>
       match found with
       | Some col => Ok (Some col)
       | None =>
           first_returned (fallback_rule_body source_df target_table target_pk conn)
                          (columns source_df)
       end).

(** Lines 186-211. *)
Definition _create_fk_rels
    (conn : connection) (source_label source_pk target_label target_pk
                         source_table fk_col : string) : M nat :=
  let rel_type := fk_rel_type fk_col in
  df <- lift (select_not_null conn source_table fk_col) ;;
  for_fold (iterrows df) 0
    (fun created_count row =>
       let source_id := cell (columns df) row source_pk in
       let target_id := cell (columns df) row fk_col in
       if notna target_id then
         try_except
           (session_run (MergeRel source_label (_safe_property source_pk) source_id
                                  target_label (_safe_property target_pk) target_id
                                  rel_type) ;;;
            ret (created_count + 1))
           (fun _ => ret created_count)
       else ret created_count).

(** Lines 106-122: the loop over the targets of one source table. *)
Definition fk_targets_loop
    (conn : connection) (table_nodes : Dict.dict table_node)
    (schemas : Dict.dict schema)
    (source_table : string) (source_info : table_node) (source_df : DataFrame)
    (total_rels : nat) : M nat :=
  for_fold table_nodes total_rels
    (fun total_rels target =>
       let '(target_table, target_info) := target in
       if String.eqb source_table target_table then ret total_rels
       else
         match Dict.get schemas target_table with
         | None => raise (mk_exn KeyError target_table)
         | Some _ =>
             fk_col <- lift (_detect_fk_to_target source_df target_table
                                                  (tn_pk target_info) conn) ;;
             match fk_col with
             | Some col =>
                 if Py.truthy col then
                   rel_count <- _create_fk_rels conn
                                  (tn_label source_info) (tn_pk source_info)
                                  (tn_label target_info) (tn_pk target_info)
                                  source_table col ;;
                   ret (total_rels + rel_count)
                 else ret total_rels
             | None => ret total_rels
             end
         end).

(** Lines 92-125. *)
Definition _create_all_fk_relationships
    (db_path : string) (table_nodes : Dict.dict table_node)
    (schemas : Dict.dict schema) : M nat :=
  conn <- sqlite3_connect db_path ;;
  for_fold table_nodes 0
    (fun total_rels source =>
       let '(source_table, source_info) := source in
       source_df <- lift (select_all conn source_table) ;;
       fk_targets_loop conn table_nodes schemas
                       source_table source_info source_df total_rels).

(** Lines 227-243: the first name of [categorical_cols] the frame
    has, the loop ending at its [break]. *)
Definition categorical_column (df : DataFrame) : option string :=
  find (has_column df) categorical_cols.

(** Lines 230-240, for the chosen column. *)
Definition categorical_values (df : DataFrame) (col : string) : list value :=
  filter (fun cat_value => Py.truthy (Py.strip (str cat_value)))
         (firstn 20 (distinct_values df col)).

Definition categorical_statement
    (safe_label col : string) (cat_value : value) : cypher :=
  MergeCategoryRel safe_label (_safe_property col)
                   (str cat_value) (str cat_value)
                   (categorical_rel_name col).

(** Lines 233-240: the body of the loop over the values. *)
Definition categorical_body (safe_label col : string) (_ : unit) (cat_value : value)
  : M unit :=
  if Py.truthy (Py.strip (str cat_value)) then
    session_run (categorical_statement safe_label col cat_value) ;;;
    ret tt
  else ret tt.

(** Lines 219-243, for one table. *)
Definition categorical_for_table
    (db_path table_name : string) (table_info : table_node) : M unit :=
  let safe_label := tn_label table_info in
  conn <- sqlite3_connect db_path ;;
  df <- lift (select_all conn table_name) ;;
  match categorical_column df with
  | Some col =>
      for_fold (firstn 20 (distinct_values df col)) tt (categorical_body safe_label col)
  | None => ret tt
  end.

(** Lines 213-245. *)
Definition _create_categorical_relationships
    (db_path : string) (table_nodes : Dict.dict table_node)
    (schemas : Dict.dict schema) : M unit :=
  for_fold table_nodes tt
    (fun _ entry =>
       let '(table_name, table_info) := entry in
       categorical_for_table db_path table_name table_info).

(** Lines 31-37: the loop that creates the nodes.  [_safe_property]
    is the first thing [_create_base_nodes] evaluates, and [re.sub]
    raises on [None]. *)
Definition create_all_nodes (db_path : string) (schemas : Dict.dict schema)
  : M (Dict.dict table_node) :=
  for_fold schemas []
    (fun table_nodes entry =>
       let '(table_name, schema) := entry in
       let safe_label := _safe_label table_name in
       match primary_key schema with
       | None => raise (mk_exn TypeError "expected string or bytes-like object")
       | Some pk =>
           node_count <- _create_base_nodes db_path table_name safe_label pk ;;
           ret (Dict.set table_nodes table_name
                         (mk_table_node safe_label pk node_count))
       end).

(** Lines 30-48: steps 3 to 5, on a cleaned store. *)
Definition build_graph (db_path : string) (schema_info : Ingestor.schema_info)
  : M Ingestor.schema_info :=
  table_nodes <- create_all_nodes db_path (schemas schema_info) ;;
  relationships_created <-
    _create_all_fk_relationships db_path table_nodes (schemas schema_info) ;;
  _create_categorical_relationships db_path table_nodes (schemas schema_info) ;;;
  ret schema_info.

(** Lines 19-48. *)
Definition convert_all_tables (db_path : string) : M schema_info :=
  schema_info <- ingest_all_tables db_path ;;
  _safe_cleanup ;;;
  build_graph db_path schema_info.

End WithServices.

End Converter.

(** ** [DualPathOrchestrator] (src/query_layer/llm_orchestrator.py) *)

Module Orchestrator.
Import Ingestor.

(** What [synthesize_sql_answer] and [synthesize_kg_answer] return. *)
Record synthesis : Type := mk_synthesis {
  syn_answer : string;
  syn_explanation : string
}.

(** The dictionary a path returns; [count] is its ["row_count"]
    (SQL) or ["result_count"] (Cypher). *)
Record path_result : Type := mk_path_result {
  method : string;
  query : string;
  data : list record;
  count : nat;
  answer : string;
  explanation : string
}.

Record dual_result : Type := mk_dual_result {
  sql_path : path_result;
  cypher_path : path_result
}.

Definition newline : string := String (ascii_of_nat 10) EmptyString.

Section WithServices.

(** [self.schema_info], read by the constructor. *)
Variable schema_info : Ingestor.schema_info.

(** The text-generation service, [self.llm]: each call returns or
    raises ([_make_request] ends in [raise_for_status]). *)
Variable generate_sql : string -> string -> Exc string.
Variable translate_to_cypher : string -> string -> Exc string.
Variable synthesize_sql_answer : string -> list record -> string -> Exc synthesis.
Variable synthesize_kg_answer : string -> list record -> string -> Exc synthesis.
Variable generate_fallback_answer : string -> string -> string -> Exc string.

(** [pd.read_sql_query(sql_query, sqlite3.connect(self.db_path))
     .to_dict('records')] *)
Variable run_sql : string -> Exc (list record).
(** [[dict(record) for record in session.run(cypher)]] *)
Variable run_cypher : string -> Exc (list record).
(** The two catalogue queries of [_get_kg_schema], joined:
    the labels and the relationship types of the store. *)
Variable kg_catalogue : Exc (string * string).

(** Lines 96-102. *)
Definition _get_sql_schema : string :=
  Py.join newline
    (map (fun entry =>
            let '(table, schema) := entry in
            ("Table `" ++ table ++ "`: "
             ++ Py.join ", " (map Sqlite.c_name (s_columns schema)))%string)
         (schemas schema_info)).

(** Lines 104-114. *)
Definition _get_kg_schema : string :=
  match kg_catalogue with
  | Ok (node_labels, rel_types) =>
      ("Nodes: " ++ node_labels ++ newline ++ "Relationships: " ++ rel_types)%string
  | Raise _ => "Knowledge Graph with multiple connected entities"
  end.

(** Lines 31-62. *)
Definition _sql_path (question : string) : Exc path_result :=
  let schema_text := _get_sql_schema in
  bindE (generate_sql question schema_text) (fun sql_query =>
    try_exceptE
      (bindE (run_sql sql_query) (fun sql_data =>
       bindE (synthesize_sql_answer question sql_data schema_text) (fun answer =>
         Ok (mk_path_result "SQL" sql_query sql_data (length sql_data)
                            (syn_answer answer) (syn_explanation answer)))))
      (fun e =>
         bindE (generate_fallback_answer question schema_text "SQL")
           (fun fallback_answer =>
              Ok (mk_path_result "SQL" sql_query [] 0 fallback_answer
                    ("Query failed: " ++ message e
                     ++ " - using schema knowledge")%string)))).

(** Lines 64-94. *)
Definition _cypher_path (question : string) : Exc path_result :=
  let schema_text := _get_kg_schema in
  bindE (translate_to_cypher question schema_text) (fun cypher_query =>
    try_exceptE
      (bindE (run_cypher (cypher_query ++ " LIMIT 50")%string) (fun cypher_data =>
       bindE (synthesize_kg_answer question cypher_data schema_text) (fun answer =>
         Ok (mk_path_result "Knowledge Graph" cypher_query cypher_data
                            (length cypher_data)
                            (syn_answer answer) (syn_explanation answer)))))
      (fun e =>
         bindE (generate_fallback_answer question schema_text "Cypher")
           (fun fallback_answer =>
              Ok (mk_path_result "Knowledge Graph" cypher_query [] 0 fallback_answer
                    ("Query failed: " ++ message e
                     ++ " - using graph schema knowledge")%string)))).

(** Lines 17-29. *)
Definition dual_path_query (question : string) : Exc dual_result :=
  bindE (_sql_path question) (fun sql_result =>
  bindE (_cypher_path question) (fun cypher_result =>
    Ok (mk_dual_result sql_result cypher_result))).

End WithServices.

End Orchestrator.

(** ** Vocabulary of the specification *)

Module Spec.
Import Sqlite Graph Sanitize Ingestor Converter.

(** The rows [_create_base_nodes] passes for a table: those of its
    frame, as [iterrows] yields them, without their missing values. *)
Definition row_dicts (t : Table) : list record :=
  map (row_dict (columns (frame_of t))) (iterrows (frame_of t)).


(** The key domain of a table: the values of its key column. *)
Definition key_values (t : Table) (pk : string) : list value :=
  map (fun row => cell (column_names t) row pk) (t_rows t).

(** How many of the sampled values occur in the key domain. *)
Definition found_in_key_domain (t : Table) (pk : string) (sample_vals : list value) : nat :=
  length (filter (fun v => mem v (key_values t pk)) sample_vals).

(** What an entry of [schemas] says about the table it is named after. *)
Definition describes (db : database) (name : string) (sch : schema) : Prop :=
  exists t, find_table db name = Some t
            /\ s_columns sch = t_columns t
            /\ primary_key sch = detect_pk (t_columns t)
            /\ row_count sch = length (t_rows t).

(** The values the name-pattern rule samples (line 145) and the values
    the fallback rule samples (line 169). *)
Definition name_sample (df : DataFrame) (col : string) : list value :=
  firstn 10 (distinct_values df col).
Definition fallback_sample (df : DataFrame) (col : string) : list value :=
  firstn 5 (distinct_values df col).

(** The acceptance test of the name-pattern rule as the specification
    words it: of up to 10 distinct non-null sampled values, the
    fraction found in the key domain of [t] exceeds 0.3. *)
Definition claimed_name_test (t : Table) (pk : string) (df : DataFrame) (col : string)
  : bool :=
  3 * length (name_sample df col)
  <? 10 * found_in_key_domain t pk (name_sample df col).

(** The acceptance test of the fallback rule as the specification words
    it: fewer distinct values than 10% of the rows, more than one, and
    at least one of up to 10 sampled values found in the key domain. *)
Definition claimed_fallback_test (t : Table) (pk : string) (df : DataFrame)
    (col : string) : bool :=
  (10 * nunique df col <? length (rows df))
  && (1 <? nunique df col)
  && (0 <? found_in_key_domain t pk (firstn 10 (distinct_values df col))).

(** A relationship type built from a sanitized column name. *)
Definition rel_type_sanitized (r : string) : Prop :=
  exists name, Sanitize.sanitized name
               /\ (r = ("REFERENCES_" ++ name)%string \/ r = ("HAS_" ++ name)%string).

(** Every label, property key and relationship type a statement names
    went through the sanitizer. *)
Definition stmt_sanitized (q : Graph.cypher) : Prop :=
  Forall Sanitize.sanitized (Graph.labels_of q)
  /\ Forall Sanitize.sanitized (Graph.property_keys_of q)
  /\ Forall rel_type_sanitized (Graph.rel_types_of q).

(** The world [w'] continues [w]: the statements sent in between are
    [tr], each satisfies [P], and an edge of the store that was not
    there before has a relationship type named by one of them. *)
Definition sent_between (P : Graph.cypher -> Prop) (w w' : world)
    (tr : list Graph.cypher) : Prop :=
  log w' = log w ++ tr
  /\ Forall P tr
  /\ (forall e, In e (edges (store w')) ->
                In e (edges (store w))
                \/ exists q, In q tr /\ In (rel_type_of_edge e) (rel_types_of q)).

Definition extends (P : Graph.cypher -> Prop) (w w' : world) : Prop :=
  exists tr, sent_between P w w' tr.

(** The source at [db_path] is the database [db]. *)
Definition holds_db (db_path : string) (db : database) (w : world) : Prop :=
  Dict.get (fs w) db_path = Some (SqliteFile db).

(** Run where the source at [db_path] is [db], the computation [m]
    leaves the source in place, only sends statements satisfying [P],
    and a value it returns satisfies [Q]. *)
Definition emits {A : Type} (db_path : string) (db : database)
    (P : Graph.cypher -> Prop) (Q : A -> Prop) (m : M A) : Prop :=
  forall w, holds_db db_path db w ->
    holds_db db_path db (fst (m w))
    /\ extends P w (fst (m w))
    /\ (forall a, snd (m w) = Ok a -> Q a).

(** *** The statements of each phase of [convert_all_tables] *)

Inductive cleanup_stmt : cypher -> Prop :=
| cleanup_delete : cleanup_stmt DetachDeleteAll
| cleanup_show : cleanup_stmt ShowConstraints
| cleanup_drop (name : string) : cleanup_stmt (DropConstraint name).

Inductive node_stmt (db : database) : cypher -> Prop :=
| node_merge (t : Table) (pk : string) :
    find_table db (t_name t) = Some t ->
    node_stmt db (MergeRows (_safe_label (t_name t)) (_safe_property pk) (row_dicts t))
| node_count (t : Table) :
    find_table db (t_name t) = Some t ->
    node_stmt db (CountLabel (_safe_label (t_name t)))
| node_constraint (t : Table) (pk : string) :
    find_table db (t_name t) = Some t ->
    node_stmt db (CreateConstraint
                    (constraint_name (_safe_label (t_name t)) (_safe_property pk))
                    (_safe_label (t_name t)) (_safe_property pk)).

Inductive reference_stmt (db : database) : cypher -> Prop :=
| reference_merge (s t : Table) (source_pk target_pk fk_col : string)
                  (source_id target_id : value) :
    find_table db (t_name s) = Some s ->
    find_table db (t_name t) = Some t ->
    t_name s <> t_name t ->
    In fk_col (column_names s) ->
    reference_stmt db
      (MergeRel (_safe_label (t_name s)) (_safe_property source_pk) source_id
                (_safe_label (t_name t)) (_safe_property target_pk) target_id
                (fk_rel_type fk_col)).

Inductive category_stmt (db : database) : cypher -> Prop :=
| category_merge (t : Table) (col : string) (cat_value : value) :
    find_table db (t_name t) = Some t ->
    categorical_column (frame_of t) = Some col ->
    In cat_value (categorical_values (frame_of t) col) ->
    category_stmt db (categorical_statement (_safe_label (t_name t)) col cat_value).

Definition converter_stmt (db : database) (q : cypher) : Prop :=
  cleanup_stmt q \/ node_stmt db q \/ reference_stmt db q \/ category_stmt db q.

(** An entry of [table_nodes] stands for a table of the source. *)
Definition table_node_ok (db : database) (entry : string * table_node) : Prop :=
  exists t, find_table db (fst entry) = Some t
            /\ t_name t = fst entry
            /\ tn_label (snd entry) = _safe_label (fst entry).

End Spec.

(** ** Sources used as examples *)

Module Scenario.
Import Sqlite Graph Converter.

(** *** The platform of the examples: what SQLite 3.40 does with the
    names and values that occur in them

    It answers as SQLite does for every ASCII name made as an
    identifier is, keywords included.  The other texts, which it takes
    to be rejected, are not among the examples (SQLite reads some of
    them as something else: a number in [PRAGMA table_info(123)], two
    names in [FROM a b]). *)

(** The keywords SQLite 3.40 takes for a name at none of the three
    places, and those it does not take after [FROM] or in a condition. *)
Definition reserved_words : list string :=
  [
   "add"; "all"; "alter"; "and"; "as"; "autoincrement"; "between"; "case";
   "check"; "collate"; "commit"; "constraint"; "create"; "deferrable";
   "distinct"; "drop"; "else"; "escape"; "except"; "exists"; "foreign";
   "from"; "group"; "having"; "in"; "index"; "insert"; "intersect"; "into";
   "is"; "isnull"; "join"; "limit"; "not"; "nothing"; "notnull"; "null";
   "or"; "order"; "primary"; "references"; "returning"; "select"; "set";
   "table"; "then"; "to"; "transaction"; "union"; "unique"; "update";
   "using"; "values"; "when"; "where"
  ].

Definition reserved_in (p : splice) : list string :=
  match p with
  | in_pragma => reserved_words
  | in_from => reserved_words ++ ["default"; "delete"; "on"]
  | in_where =>
      reserved_words
      ++ ["default"; "delete"; "on"; "cast"; "raise";
          "current_date"; "current_time"; "current_timestamp"]
  end.

(** A letter or an underscore, then letters, digits, underscores and
    dollar signs. *)
Definition identifier_shape (name : string) : bool :=
  match name with
  | EmptyString => false
  | String c rest =>
      (Py.is_ascii_lower c || Py.is_ascii_upper c || Ascii.eqb c "_")
      && forallb (fun d => Sanitize.is_word_char d || Ascii.eqb d "$") (Py.chars rest)
  end.

Definition sqlite_needs_quoting (p : splice) (name : string) : bool :=
  negb (identifier_shape name)
  || existsb (String.eqb (Py.lower name)) (reserved_in p).

(** The catalogue SQLite keeps of the tables, [sqlite_master].  The
    examples are databases whose tables were created in the order of
    the list, before any row was inserted, each by the statement that
    declares its columns and is kept in the column [sql]. *)
Definition declaration (c : column_info) : string :=
  ("[" ++ c_name c ++ "] " ++ c_type c
   ++ (if Nat.eqb (c_notnull c) 0 then "" else " NOT NULL")
   ++ (if Nat.eqb (c_pk c) 0 then "" else " PRIMARY KEY"))%string.

Definition create_statement (t : Table) : string :=
  ("CREATE TABLE [" ++ t_name t ++ "] ("
   ++ String.concat ", " (map declaration (t_columns t)) ++ ")")%string.

Definition catalogue_columns : list column_info :=
  [mk_column "type" "TEXT" 0 0; mk_column "name" "TEXT" 0 0;
   mk_column "tbl_name" "TEXT" 0 0; mk_column "rootpage" "INT" 0 0;
   mk_column "sql" "TEXT" 0 0].

Definition catalogue (name : string) (db : database) : Table :=
  mk_table name catalogue_columns
    (map (fun it : nat * Table =>
            [VText "table"; VText (t_name (snd it)); VText (t_name (snd it));
             VInt (Z.of_nat (fst it + 2)); VText (create_statement (snd it))])
         (combine (seq 0 (length db)) db)).

(** A name the catalogue does not list: the catalogue itself, or that
    of the temporary tables, of which the examples have none; a listed
    table whose name differs by the case of its letters; else no table
    (the table-valued functions of SQLite, such as
    [pragma_database_list], are not among the examples). *)
Definition sqlite_unlisted_table (p : splice) (db : database) (name : string)
  : Exc (option Table) :=
  if sqlite_needs_quoting p name then syntax_error
  else if existsb (String.eqb (Py.lower name)) ["sqlite_master"; "sqlite_schema"]
  then Ok (Some (catalogue name db))
  else if existsb (String.eqb (Py.lower name))
                  ["sqlite_temp_master"; "sqlite_temp_schema"]
  then Ok (Some (catalogue name []))
  else Ok (find (fun t => String.eqb (Py.lower (t_name t)) (Py.lower name)) db).

(** [WHERE col IS NOT NULL] with a text not read as a column: [null]
    is read as NULL, the [current_...] keywords as the time of the
    query, anything else is rejected. *)
Definition sqlite_unquoted_where (t : Table) (col : string)
  : Exc (list (list value)) :=
  if String.eqb (Py.lower col) "null" then Ok []
  else if existsb (String.eqb (Py.lower col))
                  ["current_date"; "current_time"; "current_timestamp"]
       then Ok (t_rows t)
       else Raise (mk_exn DatabaseError "no such column").

(** No example splices a text into a verification query. *)
Definition sqlite_other_match_count
    (conn : connection) (target_table target_pk : string) (sample_vals : list value)
  : Exc nat :=
  Raise (mk_exn DatabaseError "no such column").

(** The examples run in a directory that can be written to, and there
    are no others. *)
Definition sqlite_can_create (path : string) : bool :=
  negb (Py.contains "/" path).

Definition sqlite : platform :=
  mk_platform sqlite_needs_quoting sqlite_unlisted_table sqlite_unquoted_where
              sqlite_other_match_count sqlite_can_create.

#[local] Existing Instance sqlite.

Definition key_column (name : string) : column_info := mk_column name "INTEGER" 1 1.
Definition int_column (name : string) : column_info := mk_column name "INTEGER" 0 0.
Definition text_column (name : string) : column_info := mk_column name "TEXT" 0 0.

(** A store that accepts every statement. *)
Definition no_fault (n : nat) : bool := false.

(** Rows [i, cycle[i mod len(cycle)]] for [i] from [start] on. *)
Definition cycling_rows (start count : nat) (cycle : list Z) : list (list value) :=
  map (fun i => [VInt (Z.of_nat (start + i));
                 VInt (nth (i mod length cycle) cycle 0%Z)])
      (seq 0 count).

(** *** The employees of the specification's end-to-end example:
    every [manager_id] is the [emp_id] of another row *)

Definition employees : Table :=
  mk_table "employees"
    [key_column "emp_id"; int_column "manager_id"; text_column "department"]
    [[VInt 1; VNull; VText "Engineering"];
     [VInt 2; VInt 1; VText "Marketing"];
     [VInt 3; VInt 1; VText "Sales"];
     [VInt 4; VInt 2; VText "HR"];
     [VInt 5; VInt 2; VText "Finance"];
     [VInt 6; VInt 3; VText "Engineering"]].

Definition employees_world : world :=
  mk_world [("employees.db", SqliteFile [employees])] Graph.empty [].

Definition employees_run : world * Exc Ingestor.schema_info :=
  convert_all_tables integer_check_query no_fault "employees.db" employees_world.

Definition is_reference_statement (q : cypher) : bool :=
  match q with MergeRel _ _ _ _ _ _ _ => true | _ => false end.

(** *** Shops in fifty cities; the first shop's city is a blank *)

Definition city (i : nat) : value :=
  match i with
  | 0 => VText " "
  | _ => VText ("city " ++ Py.str_of_Z (Z.of_nat i))
  end.


(** The same shops, the first one in a named city. *)
Definition shops_named : Table :=
  mk_table "shops" [key_column "sid"; text_column "city"]
    (map (fun i => [VInt (Z.of_nat i); city (S i)]) (seq 0 50)).

Definition shops_world (t : Table) : world :=
  mk_world [("shops.db", SqliteFile [t])] Graph.empty [].

Definition shops_run (t : Table) : world * Exc Ingestor.schema_info :=
  convert_all_tables integer_check_query no_fault "shops.db" (shops_world t).


(** *** A store with one shop in Paris *)

Definition paris_store : graph :=
  mk_graph [mk_node "shops" [("sid", VInt 1); ("city", VText "Paris")]] [] [].

Definition paris_statement : cypher :=
  MergeCategoryRel "shops" "city" "Paris" "Paris" "HAS_CITY".

Definition paris_linked : graph :=
  match Graph.run paris_statement paris_store with
  | Ok (g, _) => g
  | Raise _ => paris_store
  end.

(** *** A text-generation service that is down, and one that answers *)

Definition service_down {A : Type} : Exc A :=
  Raise (mk_exn HTTPError "503 Server Error: Service Unavailable").

Definition canned_answer : Orchestrator.synthesis :=
  Orchestrator.mk_synthesis "Employee 5" "".

Definition some_schema : Ingestor.schema_info :=
  Ingestor.mk_schema_info ["employees"]
    [("employees",
      Ingestor.mk_schema
        [key_column "emp_id"; int_column "manager_id"; text_column "department"]
        (Some "emp_id") 6 [])]
    6.

(** Every service call raises. *)
Definition query_with_service_down (question : string) : Exc Orchestrator.dual_result :=
  Orchestrator.dual_path_query some_schema
    (fun _ _ => service_down) (fun _ _ => service_down)
    (fun _ _ _ => service_down) (fun _ _ _ => service_down)
    (fun _ _ _ => service_down)
    (fun _ => Ok []) (fun _ => Ok []) (Ok ("employees", "HAS_DEPARTMENT"))
    question.

(** The queries are generated, the generated SQL fails on the source,
    and the service is down when the fallback answer is asked for. *)
Definition query_with_fallback_down (question : string) : Exc Orchestrator.dual_result :=
  Orchestrator.dual_path_query some_schema
    (fun _ _ => Ok "SELECT nam FROM employees")
    (fun _ _ => Ok "MATCH (n) RETURN n")
    (fun _ _ _ => Ok canned_answer) (fun _ _ _ => Ok canned_answer)
    (fun _ _ _ => service_down)
    (fun _ => Raise (mk_exn DatabaseError "no such column: nam"))
    (fun _ => Ok []) (Ok ("employees", "HAS_DEPARTMENT"))
    question.

(** The service answers every call, and the generated SQL fails. *)
Definition query_with_failing_sql (question : string) : Exc Orchestrator.dual_result :=
  Orchestrator.dual_path_query some_schema
    (fun _ _ => Ok "SELECT nam FROM employees")
    (fun _ _ => Ok "MATCH (n) RETURN n")
    (fun _ _ _ => Ok canned_answer) (fun _ _ _ => Ok canned_answer)
    (fun _ _ _ => Ok "Probably the best paid employee")
    (fun _ => Raise (mk_exn DatabaseError "no such column: nam"))
    (fun _ => Ok []) (Ok ("employees", "HAS_DEPARTMENT"))
    question.

(** *** Employees and departments: a reference with one dangling value *)

Definition dept : Table :=
  mk_table "dept" [key_column "dept_id"; text_column "title"]
    [[VInt 10; VText "Research"]; [VInt 20; VText "Sales"]].

Definition emp : Table :=
  mk_table "emp" [key_column "id"; int_column "dept_id"]
    [[VInt 1; VInt 10]; [VInt 2; VInt 10]; [VInt 3; VInt 30]].

Definition staff_db : database := [emp; dept].

Definition staff_world : world :=
  mk_world [("staff.db", SqliteFile staff_db)] Graph.empty [].

(** The world once the nodes of [emp] and [dept] are created. *)
Definition staff_with_nodes : world :=
  fst (create_all_nodes no_fault "staff.db"
         (match snd (Ingestor.ingest_all_tables "staff.db" staff_world) with
          | Ok info => Ingestor.schemas info
          | Raise _ => []
          end)
         staff_world).

(** [_create_fk_rels] for [emp.dept_id] referring to [dept]. *)
Definition staff_references : world * Exc nat :=
  _create_fk_rels no_fault (SqliteFile staff_db)
                  "emp" "id" "dept" "dept_id" "emp" "dept_id" staff_with_nodes.

(** *** Orders of customers: a target without a declared key, whose
    first column repeats one value *)

Definition customers : Table :=
  mk_table "customers" [int_column "customer_id"; text_column "note"]
    [[VInt 1; VText "a"]; [VInt 1; VText "b"]; [VInt 1; VText "c"]; [VInt 1; VText "d"]].

Definition orders : Table :=
  mk_table "orders" [key_column "order_id"; int_column "customer_id"]
    (cycling_rows 100 10 [1; 2; 3; 4; 5; 6; 7; 8; 9; 10]%Z).

Definition shop : connection := SqliteFile [orders; customers].

(** *** Readings of sensors: 110 rows, ten distinct values of [t_id],
    three of which are keys of [t] *)

Definition t : Table :=
  mk_table "t" [key_column "key"; text_column "label"]
    [[VInt 1; VText "a"]; [VInt 2; VText "b"]; [VInt 3; VText "c"]].

Definition readings : Table :=
  mk_table "readings" [key_column "rid"; int_column "t_id"]
    (cycling_rows 0 110 [1; 2; 3; 104; 105; 106; 107; 108; 109; 110]%Z).

Definition sensors : connection := SqliteFile [readings; t].

(** *** Visits of places: 66 rows, six distinct values of [ref], the
    sixth of which is the only key of [places] *)

Definition places : Table :=
  mk_table "places" [key_column "code"; text_column "label"] [[VInt 1; VText "a"]].

Definition visits : Table :=
  mk_table "visits" [key_column "vid"; int_column "ref"]
    (cycling_rows 1000 66 [91; 92; 93; 94; 95; 1]%Z).

Definition trips : connection := SqliteFile [visits; places].

(** *** Events at places: 30 rows, two distinct values of [ref], one a key *)

Definition events : Table :=
  mk_table "events" [key_column "eid"; int_column "ref"]
    (cycling_rows 500 30 [1; 99]%Z).

Definition agenda : connection := SqliteFile [events; places].

End Scenario.

(** ** More of Python's strings *)

Module PyText.

(** [s.replace(old, new)] for a non-empty [old], which is all the
    program passes: the occurrences are found from left to right and do
    not overlap.  [skip] counts the characters of an occurrence still to
    be passed over. *)
Fixpoint replace_from (old new : string) (skip : nat) (s : string) : string :=
  match s with
  | EmptyString => EmptyString
  | String c s' =>
      match skip with
      | S k => replace_from old new k s'
      | O =>
          if prefix old s
          then (new ++ replace_from old new (String.length old - 1) s')%string
          else String c (replace_from old new 0 s')
      end
  end.

Definition replace (old new s : string) : string := replace_from old new 0 s.

(** [s.endswith(suffix)] *)
Definition endswith (s suffix : string) : bool :=
  (String.length suffix <=? String.length s)
  && String.eqb (substring (String.length s - String.length suffix)
                           (String.length suffix) s)
                suffix.

(** [s.split()]: the maximal runs of characters that are not white
    space.  [tok] is the run being read. *)
Fixpoint split_from (tok : string) (s : string) : list string :=
  match s with
  | EmptyString => if Py.truthy tok then [tok] else []
  | String c s' =>
      if Py.is_space c
      then (if Py.truthy tok then tok :: split_from EmptyString s'
            else split_from EmptyString s')
      else split_from (tok ++ String c EmptyString) s'
  end.

Definition split (s : string) : list string := split_from EmptyString s.

(** [set(l)] for strings, as a list without repetition, and
    [len(a.intersection(b))]. *)
Definition to_set (l : list string) : list string := nodup string_dec l.

Definition intersection_size (a b : list string) : nat :=
  length (filter (fun x => existsb (String.eqb x) b) a).

End PyText.

(** ** [LLMClient] (src/llm/client.py) *)

Module Client.
Import Orchestrator.

(** What [response.json()] returns.  A dictionary is kept as parsed,
    its keys distinct; a number is kept as its literal. *)
#[warnings="-register-all"] Inductive json : Type :=
| JNull
| JBool (b : bool)
| JNum (literal : string)
| JStr (s : string)
| JList (items : list json)
| JDict (items : list (string * json)).

(** The exceptions that can leave the client. *)
Inductive py_error : Type :=
| RequestError (e : exn)   (* raised by [requests.post], [raise_for_status]
                              or [response.json] *)
| PyKeyError (key : string)
| PyIndexError
| PyTypeError
| PyAttributeError.

Inductive outcome (A : Type) : Type :=
| Returns (a : A)
| Raises (e : py_error).
Arguments Returns {A} a.
Arguments Raises {A} e.

Definition and_then {A B : Type} (m : outcome A) (k : A -> outcome B) : outcome B :=
  match m with
  | Returns a => k a
  | Raises e => Raises e
  end.

(** [j[key]] for a string key. *)
Definition getitem (j : json) (key : string) : outcome json :=
  match j with
  | JDict items =>
      match Dict.get items key with
      | Some v => Returns v
      | None => Raises (PyKeyError key)
      end
  | _ => Raises PyTypeError
  end.

(** [j[0]] *)
Definition getitem_0 (j : json) : outcome json :=
  match j with
  | JList (x :: _) => Returns x
  | JList [] => Raises PyIndexError
  | JStr (String c _) => Returns (JStr (String c EmptyString))
  | JStr EmptyString => Raises PyIndexError
  | JDict _ => Raises (PyKeyError "0")
  | _ => Raises PyTypeError
  end.

(** [j.strip()] *)
Definition strip_text (j : json) : outcome string :=
  match j with
  | JStr s => Returns (Py.strip s)
  | _ => Raises PyAttributeError
  end.

(** [result["choices"][0]["message"]["content"].strip()] *)
Definition content_of (result : json) : outcome string :=
  and_then (getitem result "choices") (fun choices =>
  and_then (getitem_0 choices) (fun choice =>
  and_then (getitem choice "message") (fun message =>
  and_then (getitem message "content") strip_text))).

Record chat_message : Type := mk_message { role : string; content : string }.

(** The dictionary posted as JSON; [temperature] is the literal of
    the source, when the key is there. *)
Record payload : Type := mk_payload {
  p_model : string;
  p_messages : list chat_message;
  p_max_tokens : nat;
  p_temperature : option string
}.

Definition nl : string := String (ascii_of_nat 10) EmptyString.

Definition fence : string := "```".

Section WithService.

(** [self.base_url], [self.headers], [self.model] *)
Variable base_url : string.
Variable headers : Dict.dict string.
Variable model : string.

(** [requests.post(url, headers=..., json=payload, timeout=30)],
    followed by [raise_for_status()] and [json()]. *)
Variable post : string -> Dict.dict string -> payload -> Exc json.

(** [json.dumps(rows, indent=2)] *)
Variable json_dumps : list record -> string.

(** Lines 19-23. *)
Definition _make_request (endpoint : string) (p : payload) : outcome json :=
  let url := (base_url ++ "/" ++ endpoint)%string in
  match post url headers p with
  | Ok j => Returns j
  | Raise e => Raises (RequestError e)
  end.

(** Lines 26-41: the payload of [generate_sql]. *)
Definition sql_payload (question schema : string) : payload :=
  mk_payload model
    [mk_message "user"
       ("Generate SQL query:" ++ nl ++ nl ++ "SCHEMA:" ++ nl ++ schema ++ nl ++ nl
        ++ "Question: " ++ question ++ nl ++ nl ++ "Return ONLY the SQL query:")%string]
    400 (Some "0.1").

(** Lines 25-44. *)
Definition generate_sql (question schema : string) : outcome string :=
  and_then (_make_request "chat/completions" (sql_payload question schema))
    (fun result =>
  and_then (content_of result) (fun sql =>
    Returns (Py.strip (PyText.replace fence ""
                         (PyText.replace (fence ++ "sql")%string "" sql))))).

(** Lines 47-55: the payload of [translate_to_cypher]. *)
Definition cypher_payload (question schema : string) : payload :=
  mk_payload model
    [mk_message "system"
       ("Neo4j Cypher expert. Schema: " ++ schema ++ nl ++ "Always use LIMIT.")%string;
     mk_message "user" question]
    500 (Some "0.1").

(** Lines 46-58. *)
Definition translate_to_cypher (question schema : string) : outcome string :=
  and_then (_make_request "chat/completions" (cypher_payload question schema))
    (fun result =>
  and_then (content_of result) (fun cypher =>
    Returns (Py.strip (PyText.replace fence ""
                         (PyText.replace (fence ++ "cypher")%string "" cypher))))).

(** [json.dumps(data[:10], indent=2) if data else "No data returned"] *)
Definition data_str (data : list record) : string :=
  match data with
  | [] => "No data returned"
  | _ => json_dumps (firstn 10 data)
  end.

(** Lines 60-71. *)
Definition synthesize_sql_answer (question : string) (data : list record)
    (schema : string) : outcome synthesis :=
  let p :=
    mk_payload model
      [mk_message "user"
         ("Question: " ++ question ++ nl ++ "SQL Results: " ++ data_str data ++ nl ++ nl
          ++ "Answer the question directly based on the results:")%string]
      300 None in
  and_then (_make_request "chat/completions" p) (fun result =>
  and_then (content_of result) (fun answer =>
    Returns (mk_synthesis answer ""))).

(** Lines 73-84. *)
Definition synthesize_kg_answer (question : string) (data : list record)
    (schema : string) : outcome synthesis :=
  let p :=
    mk_payload model
      [mk_message "user"
         ("Question: " ++ question ++ nl ++ "KG Results: " ++ data_str data ++ nl ++ nl
          ++ "Answer the question directly based on the graph results:")%string]
      300 None in
  and_then (_make_request "chat/completions" p) (fun result =>
  and_then (content_of result) (fun answer =>
    Returns (mk_synthesis answer ""))).

(** Lines 86-105. *)
Definition generate_fallback_answer (question schema method : string) : outcome string :=
  let p :=
    mk_payload model
      [mk_message "user"
         ("Question: " ++ question ++ nl ++ nl ++ schema ++ nl ++ nl
          ++ "Using " ++ method
          ++ " knowledge only (no query execution), provide the most likely answer." ++ nl
          ++ "If you cannot find exact data, give a reasonable summary or say what you'd expect to find."
          ++ nl ++ nl ++ "Answer directly:")%string]
      300 (Some "0.3") in
  and_then (_make_request "chat/completions" p) content_of.

End WithService.

End Client.

(** ** [SQLiteIngestor] (src/ingestion/sqlite_ingestor.py) *)

Module SQLiteIngestor.
Import Sqlite.

(** [dict(name=r[1], type=r[2], pk=r[5])] *)
Record column : Type := mk_col {
  col_name : string;
  col_type : string;
  col_pk : nat
}.

Definition column_of (c : column_info) : column :=
  mk_col (c_name c) (c_type c) (c_pk c).

Record relationship : Type := mk_relationship {
  source_table : string;
  source_column : string;
  target_table : string;
  relationship_type : string
}.

(** The dictionary [get_table_schema] returns. *)
Record table_schema : Type := mk_table_schema {
  table_name : string;
  ts_columns : list column;
  ts_primary_key : option string;
  ts_data : DataFrame;
  ts_row_count : nat;
  relationships : list relationship;
  ts_sample_data : list record
}.

(** [SELECT name FROM sqlite_master WHERE type='table'] *)
Definition table_names (conn : connection) : Exc (list string) :=
  bindE (opened conn) (fun db => Ok (map t_name db)).

Section WithPlatform.

Context {sql : platform}.

(** Lines 9-14. *)
Definition get_tables (db_path : string) : M (list string) :=
  conn <- sqlite3_connect db_path ;;
  tables <- lift (table_names conn) ;;
  ret tables.

(** Lines 68-76: the body of the loop over the tables. *)
Definition find_target_body (values : list value) (conn : connection) (table : string)
  : Exc (option string) :=
  if String.eqb table "sqlite_master" then Ok None
  else
    try_exceptE
      (bindE (select_count conn table) (fun pk_count =>
         if pk_count =? length values then Ok (Some table) else Ok None))
      (fun _ => Ok None).

(** Lines 65-77. *)
Definition _find_target_table (values : list value) (conn : connection)
  : Exc (option string) :=
  bindE (table_names conn) (fun tables =>
    first_returned (find_target_body values conn) tables).

(** Line 50: [col.lower() in ['id', '_id'] or col.endswith('_id')] *)
Definition looks_like_id (col : string) : bool :=
  existsb (String.eqb (Py.lower col)) ["id"; "_id"] || PyText.endswith col "_id".

(** Lines 49-62: the body of the loop over the columns.
    [len(unique_vals) < len(df) * 0.5] compares an integer with half an
    integer, which a double holds exactly: it is
    [2 * len(unique_vals) < len(df)]. *)
Definition detect_body (table_name : string) (df : DataFrame) (conn : connection)
    (relationships : list relationship) (col : string) : Exc (list relationship) :=
  if looks_like_id col then
    let unique_vals := distinct_values df col in
    if 2 * length unique_vals <? length (rows df) then
      bindE (_find_target_table unique_vals conn) (fun target_table =>
        match target_table with
        | Some target =>
            if Py.truthy target
            then Ok (relationships
                       ++ [mk_relationship table_name col target "BELONGS_TO"])
            else Ok relationships
        | None => Ok relationships
        end)
    else Ok relationships
  else Ok relationships.

(** Lines 46-63. *)
Definition _detect_relationships (table_name : string) (df : DataFrame)
    (conn : connection) : Exc (list relationship) :=
  foldE (columns df) [] (detect_body table_name df conn).

(** Line 29:
    [next((c['name'] for c in columns if c['pk']),
          df.columns[0] if len(df.columns) > 0 else None)] *)
Definition pk_of (columns : list column) (df : DataFrame) : option string :=
  match find (fun c => negb (col_pk c =? 0)) columns with
  | Some c => Some (col_name c)
  | None =>
      match Frame.columns df with
      | c :: _ => Some c
      | [] => None
      end
  end.

(** [df.head(5)] *)
Definition head5 (df : DataFrame) : DataFrame :=
  mk_df (columns df) (firstn 5 (rows df)).

(** Lines 16-44. *)
Definition get_table_schema (db_path table_name : string) : M table_schema :=
  conn <- sqlite3_connect db_path ;;
  columns <- lift (bindE (table_info conn table_name)
                         (fun cs => Ok (map column_of cs))) ;;
  df <- lift (select_limit conn table_name 100) ;;
  let pk_col := pk_of columns df in
  relationships <- lift (_detect_relationships table_name df conn) ;;
  ret (mk_table_schema table_name columns pk_col df (length (rows df))
                       relationships (to_dict_records (head5 df))).

End WithPlatform.

End SQLiteIngestor.

(** ** [KGVisualizer.create_plotly_graph] (src/visualization/kg_visualizer.py) *)

Module Visualizer.

(** An entry of [graph_data['nodes']] and one of [graph_data['edges']]. *)
Record vnode : Type := mk_vnode {
  vn_id : nat;
  vn_label : string;
  vn_name : value;
  vn_properties : Dict.dict value
}.

Record vedge : Type := mk_vedge {
  ve_id : nat;
  ve_source : nat;
  ve_target : nat;
  ve_type : string;
  ve_properties : Dict.dict value
}.

Record graph_data : Type := mk_graph_data {
  gd_nodes : list vnode;
  gd_edges : list vedge
}.

(** What the figure is built from: the coordinates of the edge trace
    ([None] separates two segments), those of the node trace, its texts
    and colours, and the text of the annotation. *)
Record figure : Type := mk_figure {
  edge_x : list (option nat);
  edge_y : list (option nat);
  node_x : list nat;
  node_y : list nat;
  node_text : list string;
  node_colors : list nat;
  annotation : string
}.

(** A dictionary with integer keys, in insertion order. *)
Fixpoint pos_set (d : list (nat * (nat * nat))) (k : nat) (v : nat * nat)
  : list (nat * (nat * nat)) :=
  match d with
  | [] => [(k, v)]
  | (k', v') :: rest =>
      if k' =? k then (k', v) :: rest else (k', v') :: pos_set rest k v
  end.

Fixpoint pos_get (d : list (nat * (nat * nat))) (k : nat) : Exc (nat * nat) :=
  match d with
  | [] => Raise (mk_exn KeyError (Py.str_of_Z (Z.of_nat k)))
  | (k', v) :: rest => if k' =? k then Ok v else pos_get rest k
  end.

(** [enumerate(nodes)] from [i] on. *)
Fixpoint enumerate_from {A : Type} (i : nat) (l : list A) : list (nat * A) :=
  match l with
  | [] => []
  | a :: rest => (i, a) :: enumerate_from (S i) rest
  end.

(** Line 82:
    [{node['id']: (i % 10, i // 10) for i, node in enumerate(nodes)}],
    one entry at a time. *)
Definition place_node (pos : list (nat * (nat * nat))) (entry : nat * vnode)
  : list (nat * (nat * nat)) :=
  let '(i, node) := entry in pos_set pos (vn_id node) (i mod 10, i / 10).

Definition positions (nodes : list vnode) : list (nat * (nat * nat)) :=
  fold_left place_node (enumerate_from 0 nodes) [].

(** Lines 86-90: the body of the loop over the edges. *)
Definition edge_body (pos : list (nat * (nat * nat)))
    (acc : list (option nat) * list (option nat)) (edge : vedge)
  : Exc (list (option nat) * list (option nat)) :=
  let '(edge_x, edge_y) := acc in
  bindE (pos_get pos (ve_source edge)) (fun p0 =>
  bindE (pos_get pos (ve_target edge)) (fun p1 =>
    let '(x0, y0) := p0 in
    let '(x1, y1) := p1 in
    Ok (edge_x ++ [Some x0; Some x1; None],
        edge_y ++ [Some y0; Some y1; None]))).

(** Lines 85-90. *)
Definition edge_traces (pos : list (nat * (nat * nat))) (edges : list vedge)
  : Exc (list (option nat) * list (option nat)) :=
  foldE edges ([], []) (edge_body pos).

(** Lines 99-104: the body of the loop over the nodes. *)
Definition node_body (pos : list (nat * (nat * nat)))
    (acc : list nat * list nat * list string * list nat) (node : vnode)
  : Exc (list nat * list nat * list string * list nat) :=
  let '(node_x, node_y, node_text, node_colors) := acc in
  bindE (pos_get pos (vn_id node)) (fun p =>
    let '(x, y) := p in
    Ok (node_x ++ [x], node_y ++ [y],
        node_text ++ [(vn_label node ++ ": " ++ str (vn_name node))%string],
        node_colors ++ [length (vn_properties node) * 10])).

(** Lines 98-104. *)
Definition node_traces (pos : list (nat * (nat * nat))) (nodes : list vnode)
  : Exc (list nat * list nat * list string * list nat) :=
  foldE nodes ([], [], [], []) (node_body pos).

(** Lines 76-135. *)
Definition create_plotly_graph (g : graph_data) : Exc figure :=
  let nodes := gd_nodes g in
  let edges := gd_edges g in
  let pos := positions nodes in
  bindE (edge_traces pos edges) (fun et =>
  bindE (node_traces pos nodes) (fun nt =>
    let '(edge_x, edge_y) := et in
    let '(node_x, node_y, node_text, node_colors) := nt in
    Ok (mk_figure edge_x edge_y node_x node_y node_text node_colors
          ("Nodes: " ++ Py.str_of_Z (Z.of_nat (length nodes))
           ++ " | Edges: " ++ Py.str_of_Z (Z.of_nat (length edges)))%string))).

End Visualizer.

(** ** [Evaluator.run_evaluation], the scores (src/evaluation/evaluator.py) *)

Module Evaluator.

(** Lines 7-13. *)
Definition ground_truth : Dict.dict string :=
  [("Who has the highest salary?", "Employee with highest salary is around $150k+");
   ("Who manages the most employees?", "Managers with multiple direct reports");
   ("Show engineering team salaries", "Engineering team salary range");
   ("What is the average performance score?", "Average around 4.0-4.5");
   ("Who was hired in 2023?", "Employees hired in 2023")].

(** An entry of [scores]; ['overlap'] is the double nearest to
    [overlap / tokens]. *)
Record score : Type := mk_score {
  s_method : string;
  s_question : string;
  overlap : nat;          (* [len(pred_tokens.intersection(gold_tokens))] *)
  tokens : nat            (* [max(len(pred_tokens), 1)] *)
}.

(** [result[key]] *)
Definition field (result : Dict.dict string) (key : string) : Exc string :=
  match Dict.get result key with
  | Some v => Ok v
  | None => Raise (mk_exn KeyError key)
  end.

(** Lines 22-35: the body of the loop over the results. *)
Definition score_of (result : Dict.dict string) : Exc score :=
  bindE (field result "question") (fun question =>
  bindE (field result "final_answer") (fun final_answer =>
    let pred := Py.lower final_answer in
    let gold :=
      Py.lower (match Dict.get ground_truth question with
                | Some g => g
                | None => EmptyString
                end) in
    let pred_tokens := PyText.to_set (PyText.split pred) in
    let gold_tokens := PyText.to_set (PyText.split gold) in
    let overlap := PyText.intersection_size pred_tokens gold_tokens in
    bindE (field result "method") (fun method =>
      Ok (mk_score method question overlap (Nat.max (length pred_tokens) 1))))).

(** Lines 18-35. *)
Definition scores (sql_results kg_results : list (Dict.dict string)) : Exc (list score) :=
  foldE (sql_results ++ kg_results) []
        (fun scores result => bindE (score_of result) (fun s => Ok (scores ++ [s]))).

End Evaluator.

(** ** [TableToKGConverter] (src/kg_converter/table_to_kg.py) *)

Module TableToKG.
Import Sqlite SQLiteIngestor.

(** [s.title()] on ASCII: a letter that follows a letter is lowered,
    any other letter is raised. *)
Fixpoint title_from (prev_cased : bool) (s : string) : string :=
  match s with
  | EmptyString => EmptyString
  | String c s' =>
      let cased := Py.is_ascii_upper c || Py.is_ascii_lower c in
      String (if prev_cased then Py.lower_char c else Py.upper_char c)
             (title_from cased s')
  end.

Definition title (s : string) : string := title_from false s.

(** [re.search(p + '$', s)] for a literal [p]: [$] matches at the end
    of the string and before a newline that ends it. *)
Definition search_at_end (p s : string) : bool :=
  PyText.endswith s p || PyText.endswith s (p ++ Orchestrator.newline).

(** The three patterns of lines 60-64, with their relationship types. *)
Inductive pattern : Type :=
| UnderscoreIdAtEnd   (* '_id$' *)
| UnderscoreId        (* '_id'  *)
| IdAtEnd.            (* 'id$'  *)

Definition relationship_patterns : list (pattern * string) :=
  [(UnderscoreIdAtEnd, "BELONGS_TO");
   (UnderscoreId, "BELONGS_TO");
   (IdAtEnd, "BELONGS_TO")].

(** [re.search(pattern, col)] *)
Definition re_search (p : pattern) (col : string) : bool :=
  match p with
  | UnderscoreIdAtEnd => search_at_end "_id" col
  | UnderscoreId => Py.contains "_id" col
  | IdAtEnd => search_at_end "id" col
  end.

(** Line 71. *)
Definition target_label_of (col : string) : string :=
  title (PyText.replace "id" "" (PyText.replace "_id" "" col)).

(** The statements the converter sends, with the names spliced into
    them as they are and the rows passed as parameter. *)
Inductive statement : Type :=
| DeleteAll
    (* MATCH (n) DETACH DELETE n *)
| CreateUnique (label key : string)
    (* CREATE CONSTRAINT IF NOT EXISTS FOR (n:`label`) REQUIRE n.key IS UNIQUE *)
| MergeEntities (label pk : string) (rows : list record)
    (* UNWIND $rows as row MERGE (n:`label` {`pk`: row.`pk`}) SET n += row *)
| MergeTargets (source_label pk col target_label rel_type : string) (rows : list record)
    (* UNWIND $rows as row
       MATCH (source:`source_label` {`pk`: row.`pk`}) WHERE row.`col` IS NOT NULL
       MERGE (target:`target_label` {id: row.`col`})
       MERGE (source)-[:rel_type {column: 'col'}]->(target) *)
| MergeCategories (source_label pk col : string) (rows : list record).
    (* UNWIND $rows as row
       MATCH (source:`source_label` {`pk`: row.`pk`}) WHERE row.`col` IS NOT NULL
       MERGE (cat:Category {name: row.`col`})
       MERGE (source)-[:HAS_CATEGORY {column: 'col'}]->(cat) *)

(** The files, and the statements sent to the store so far. *)
Definition state : Type := (world * list statement)%type.

Definition T (A : Type) : Type := state -> state * Exc A.

Definition unit_T {A : Type} (a : A) : T A := fun s => (s, Ok a).

Definition bind_T {A B : Type} (m : T A) (k : A -> T B) : T B :=
  fun s =>
    match m s with
    | (s', Ok a) => k a s'
    | (s', Raise e) => (s', Raise e)
    end.

(** A computation on the files alone. *)
Definition on_files {A : Type} (m : M A) : T A :=
  fun s => let '(w, r) := m (fst s) in ((w, snd s), r).

(** A [for] loop without variables of its own. *)
Fixpoint for_each {A : Type} (l : list A) (body : A -> T unit) : T unit :=
  match l with
  | [] => unit_T tt
  | a :: rest => bind_T (body a) (fun _ => for_each rest body)
  end.

(** [str(schema['primary_key'])] as the f-strings splice it. *)
Definition key_text (pk : option string) : string :=
  match pk with
  | Some k => k
  | None => "None"
  end.

Section WithServices.

Context {sql : platform}.

(** Whether the store refuses the statement sent as its [n]-th. *)
Variable store_fault : nat -> bool.

(** [df[col].dtype == 'object'] *)
Variable is_object : DataFrame -> string -> bool.

(** [session.run(q, ...)] *)
Definition send (q : statement) : T unit :=
  fun s =>
    if store_fault (length (snd s))
    then ((fst s, snd s ++ [q]),
          Raise (mk_exn ClientError "the store refused the statement"))
    else ((fst s, snd s ++ [q]), Ok tt).

(** Lines 43-53. *)
Definition _create_main_entities (schema : table_schema) (table_name : string) : T unit :=
  let df := ts_data schema in
  send (MergeEntities table_name (key_text (ts_primary_key schema))
                             (to_dict_records df)).

(** Lines 69-81: the body of the loop over the patterns, for [col]. *)
Definition pattern_body (schema : table_schema) (source_table col : string)
    (entry : pattern * string) : T unit :=
  let '(p, rel_type) := entry in
  if re_search p col then
    send (MergeTargets source_table (key_text (ts_primary_key schema)) col
                              (target_label_of col) rel_type
                              (to_dict_records (ts_data schema)))
  else unit_T tt.

(** Line 86. *)
Definition categorical_cols_of (schema : table_schema) : list string :=
  filter (fun col =>
            is_object (ts_data schema) col
            && negb (match ts_primary_key schema with
                     | Some pk => String.eqb col pk
                     | None => false
                     end))
         (columns (ts_data schema)).

(** Lines 55-95. *)
Definition _create_relationships (schema : table_schema) (source_table db_path : string)
  : T unit :=
  let df := ts_data schema in
  bind_T (on_files (sqlite3_connect db_path)) (fun conn =>
  bind_T (for_each (columns df) (fun col =>
            for_each relationship_patterns (pattern_body schema source_table col)))
         (fun _ =>
  for_each (firstn 3 (categorical_cols_of schema)) (fun col =>
    send (MergeCategories source_table (key_text (ts_primary_key schema)) col
                                 (to_dict_records df))))).

(** Lines 27-41: what [convert] does once the schema is read. *)
Definition build (schema : table_schema) (table_name db_path : string) : T unit :=
  bind_T (send DeleteAll) (fun _ =>
  bind_T (send (CreateUnique table_name (key_text (ts_primary_key schema))))
         (fun _ =>
  bind_T (_create_main_entities schema table_name) (fun _ =>
  _create_relationships schema table_name db_path))).

(** Lines 18-41. *)
Definition convert (db_path table_name : string) : T unit :=
  bind_T (on_files (get_table_schema db_path table_name)) (fun schema =>
  build schema table_name db_path).

End WithServices.

End TableToKG.


(** ** Vocabulary of the further properties *)

Module Terms.
Import Sqlite Graph Ingestor Converter Orchestrator Spec Sanitize.

(** The tables [ingest_all_tables] lists. *)
Definition user_tables (db : database) : list string :=
  map t_name (filter (fun t => negb (like_sqlite_ (t_name t))) db).


(** The body of the loop of lines 258-259 of [_safe_cleanup]. *)
Definition drop_body (store_fault : nat -> bool) (_ : unit) (name : string) : M unit :=
  session_run store_fault (DropConstraint name) ;;; ret tt.

(** The body of the loop of lines 195-209 of [_create_fk_rels], for the
    rows of a frame with columns [cols]. *)
Definition fk_row_body (store_fault : nat -> bool)
    (source_label source_pk target_label target_pk fk_col : string)
    (cols : list string) (created_count : nat) (row : list value) : M nat :=
  let source_id := cell cols row source_pk in
  let target_id := cell cols row fk_col in
  if notna target_id then
    try_except
      (session_run store_fault
         (MergeRel source_label (_safe_property source_pk) source_id
                   target_label (_safe_property target_pk) target_id
                   (fk_rel_type fk_col)) ;;;
       ret (created_count + 1))
      (fun _ => ret created_count)
  else ret created_count.

(** The statement of lines 201-205 for a row. *)
Definition fk_statement
    (source_label source_pk target_label target_pk fk_col : string)
    (cols : list string) (row : list value) : cypher :=
  MergeRel source_label (_safe_property source_pk) (cell cols row source_pk)
           target_label (_safe_property target_pk) (cell cols row fk_col)
           (fk_rel_type fk_col).

(** The rows line 191 reads from [s] when the names are read as
    themselves, as [iterrows] yields them. *)
Definition referring_rows (s : Table) (fk_col : string) : list (list value) :=
  iterrows (from_records (column_names s)
              (filter (fun row => notna (cell (column_names s) row fk_col)) (t_rows s))).

(** The statements of [_create_fk_rels] for a column of [s]: one per
    row that refers to something. *)
Definition fk_statements
    (source_label source_pk target_label target_pk : string) (s : Table)
    (fk_col : string) : list cypher :=
  map (fk_statement source_label source_pk target_label target_pk fk_col
                    (column_names s))
      (referring_rows s fk_col).

(** Of [n] statements sent from the [start]-th on, those the store
    does not refuse. *)
Definition not_refused (store_fault : nat -> bool) (start n : nat) : nat :=
  length (filter (fun i => negb (store_fault i)) (seq start n)).

(** Verification queries that report no match where those of
    [read_match_count] fail. *)
Definition quiet (read_match_count : connection -> string -> string -> list value -> Exc nat)
    (conn : connection) (target_table target_pk : string) (sample_vals : list value)
  : Exc nat :=
  match read_match_count conn target_table target_pk sample_vals with
  | Ok match_count => Ok match_count
  | Raise _ => Ok 0
  end.

(** The statements lines 106-122 send for the source [s] and one
    target: those of the column detected for this pair, if any. *)
Definition pair_statements
    (read_match_count : connection -> string -> string -> list value -> Exc nat)
    (db : database) (source_info : table_node) (s : Table)
    (target : string * table_node) : list cypher :=
  if String.eqb (t_name s) (fst target) then []
  else
    match _detect_fk_to_target read_match_count (frame_of s) (fst target)
                               (tn_pk (snd target)) (SqliteFile db) with
    | Ok (Some col) =>
        if Py.truthy col
        then fk_statements (tn_label source_info) (tn_pk source_info)
                           (tn_label (snd target)) (tn_pk (snd target)) s col
        else []
    | _ => []
    end.

(** The statements of all ordered pairs, in the order of lines 99-122. *)
Definition all_pair_statements
    (read_match_count : connection -> string -> string -> list value -> Exc nat)
    (db : database) (table_nodes : Dict.dict table_node) : list cypher :=
  flat_map
    (fun source =>
       match find_table db (fst source) with
       | Some s => flat_map (pair_statements read_match_count db (snd source) s) table_nodes
       | None => []
       end)
    table_nodes.

(** What [_cypher_path] executes and synthesizes from, lines 69-74. *)
Definition cypher_attempt
    (synthesize_kg_answer : string -> list record -> string -> Exc synthesis)
    (run_cypher : string -> Exc (list record))
    (kg_catalogue : Exc (string * string))
    (question cypher_query : string) : Exc (list record * synthesis) :=
  bindE (run_cypher (cypher_query ++ " LIMIT 50")%string) (fun cypher_data =>
  bindE (synthesize_kg_answer question cypher_data (_get_kg_schema kg_catalogue))
        (fun answer => Ok (cypher_data, answer))).


(** The ids of the nodes of a graph to draw, and the place of the
    [i]-th of them on a grid ten wide. *)
Definition ids (nodes : list Visualizer.vnode) : list nat := map Visualizer.vn_id nodes.

Definition place (i : nat) : nat * nat := (i mod 10, i / 10).

(** Where the files satisfy [I], the computation [m] leaves them alone
    and only adds statements to those already sent; and when the store
    refuses nothing it returns having sent [tr]. *)
Definition sends (store_fault : nat -> bool) (I : world -> Prop)
    (m : TableToKG.T unit) (tr : list TableToKG.statement) : Prop :=
  forall s,
    I (fst s) ->
    fst (fst (m s)) = fst s
    /\ (exists sent, snd (fst (m s)) = snd s ++ sent)
    /\ ((forall n, store_fault n = false) -> m s = ((fst s, snd s ++ tr), Ok tt)).

(** The statement of lines 75-81 for a column and a pattern. *)
Definition link (schema : SQLiteIngestor.table_schema) (source_table col : string)
    (entry : TableToKG.pattern * string) : TableToKG.statement :=
  TableToKG.MergeTargets source_table
    (TableToKG.key_text (SQLiteIngestor.ts_primary_key schema)) col
    (TableToKG.target_label_of col) (snd entry)
    (to_dict_records (SQLiteIngestor.ts_data schema)).

(** The statements of lines 66-81 for one column: one per pattern
    that matches its name. *)
Definition links_of (schema : SQLiteIngestor.table_schema) (source_table col : string)
  : list TableToKG.statement :=
  map (link schema source_table col)
      (filter (fun entry => TableToKG.re_search (fst entry) col)
              TableToKG.relationship_patterns).


End Terms.

(** ** Further sources and services used as examples *)

Module Samples.
Import Sqlite Graph Converter Scenario.



(** A store that refuses the statement sent as its [n]-th only. *)
Definition refusing (n : nat) (k : nat) : bool := k =? n.

(** A table whose name is a keyword of SQL, with a column whose name
    is one. *)
Definition order : Table :=
  mk_table "order" [key_column "id"; int_column "group"]
    [[VInt 1; VInt 7]; [VInt 2; VInt 7]].

Definition order_world : world :=
  mk_world [("order.db", SqliteFile [order])] Graph.empty [].

(** Verification queries that fail when the target is [emp]. *)
Definition failing_for_emp
    (conn : connection) (target_table target_pk : string) (sample_vals : list value)
  : Exc nat :=
  if String.eqb target_table "emp"
  then Raise (mk_exn DatabaseError "syntax error")
  else integer_check_query (sql := sqlite) conn target_table target_pk sample_vals.

(** A graph store that answers a failed statement. *)
Definition invalid_input {A : Type} : Exc A :=
  Raise (mk_exn ClientError "Invalid input").

(** A service that answers every request with the same text. *)
Definition completion (text : string) : Client.json :=
  Client.JDict
    [("choices",
      Client.JList
        [Client.JDict
           [("message", Client.JDict [("role", Client.JStr "assistant");
                                      ("content", Client.JStr text)])]])].

Definition answering (text : string)
    (url : string) (headers : Dict.dict string) (p : Client.payload) : Exc Client.json :=
  Ok (completion text).

(** A rendering of rows that only tells how many there are. *)
Definition count_rows (rows : list record) : string :=
  Py.str_of_Z (Z.of_nat (length rows)).

Definition eleven_rows : list record :=
  map (fun i => [("n", VInt (Z.of_nat i))]) (seq 0 11).

Definition twelve_rows : list record :=
  map (fun i => [("n", VInt (Z.of_nat i))]) (seq 0 12).

(** Orders that refer to four customers. *)
Definition clients : Table :=
  mk_table "clients" [key_column "id"; text_column "label"]
    [[VInt 1; VText "a"]; [VInt 2; VText "b"]; [VInt 3; VText "c"]; [VInt 4; VText "d"]].

Definition purchases : Table :=
  mk_table "purchases" [key_column "pid"; int_column "client_id"]
    (cycling_rows 100 12 [1; 2; 3; 4]%Z).

Definition trade_db : database := [purchases; clients].

Definition trade_world : world :=
  mk_world [("trade.db", SqliteFile trade_db)] Graph.empty [].


(** Two nodes and an edge to draw. *)
Definition two_nodes : Visualizer.graph_data :=
  Visualizer.mk_graph_data
    [Visualizer.mk_vnode 0 "emp" (VInt 1) [];
     Visualizer.mk_vnode 1 "dept" (VInt 10) []]
    [Visualizer.mk_vedge 0 0 1 "REFERENCES_DEPT_ID" []].

(** A result to score. *)
Definition hired_result : Dict.dict string :=
  [("question", "Who was hired in 2023?");
   ("final_answer", "Employees hired in 2023");
   ("method", "KG+LLM")].

End Samples.

(* ================================================================== *)
(** * Part II: properties                                              *)
(* ================================================================== *)

(** ** Strings *)

Module PyFacts.
Import Py.

Lemma chars_map_chars (f : ascii -> ascii) (s : string) :
chars (map_chars f s) = map f (chars s).
Proof.
induction s as [|c s IH]; simpl; [reflexivity|].
unfold chars in *. now rewrite IH.
Qed.

Lemma chars_append (s t : string) : chars (s ++ t)%string = chars s ++ chars t.
Proof.
induction s as [|c s IH]; simpl; [reflexivity|].
unfold chars in *. now rewrite IH.
Qed.

Lemma lower_char_not_upper (c : ascii) : is_ascii_upper (lower_char c) = false.
Proof.
destruct c as [[] [] [] [] [] [] [] []]; vm_compute; reflexivity.
Qed.

Lemma lower_has_no_upper (s : string) (c : ascii) :
In c (chars (lower s)) -> is_ascii_upper c = false.
Proof.
unfold lower. rewrite chars_map_chars, in_map_iff.
intros [d [<- _]]. apply lower_char_not_upper.
Qed.

Lemma prefix_chars (p s : string) :
prefix p s = true -> forall c, In c (chars p) -> In c (chars s).
Proof.
revert s. induction p as [|a p IH]; intros s Hp c Hc.
- destruct Hc.
- destruct s as [|b s]; simpl in Hp; [discriminate|].
  destruct (ascii_dec a b) as [->|]; [|discriminate].
  destruct Hc as [<-|Hc]; [now left|right]. exact (IH s Hp c Hc).
Qed.

Lemma contains_chars (p s : string) :
contains p s = true -> forall c, In c (chars p) -> In c (chars s).
Proof.
induction s as [|b s IH]; simpl; intros Hp c Hc.
- exact (prefix_chars p "" Hp c Hc).
- apply orb_true_iff in Hp. destruct Hp as [Hp|Hp].
  + exact (prefix_chars p (String b s) Hp c Hc).
  + right. exact (IH Hp c Hc).
Qed.

(** A pattern holding an upper-case ASCII letter never occurs in a
  lower-cased string. *)
Lemma contains_lower_upper_free (p s : string) (c : ascii) :
In c (chars p) -> is_ascii_upper c = true -> contains p (lower s) = false.
Proof.
intros Hc Hup. destruct (contains p (lower s)) eqn:E; [|reflexivity].
pose proof (lower_has_no_upper s c (contains_chars _ _ E c Hc)) as H.
congruence.
Qed.

Lemma length_slice_to (n : nat) (s : string) : String.length (slice_to n s) <= n.
Proof.
unfold slice_to. revert n. induction s as [|c s IH]; intros [|n]; simpl; try lia.
specialize (IH n). lia.
Qed.

Lemma slice_to_chars (n : nat) (s : string) (c : ascii) :
In c (chars (slice_to n s)) -> In c (chars s).
Proof.
unfold slice_to. revert n. induction s as [|a s IH]; intros [|n]; simpl; try tauto.
intros [->|H]; [now left|right]. now apply (IH n).
Qed.

End PyFacts.

(** ** Sanitization *)

Module SanitizeFacts.
Import Py Sanitize PyFacts.

Lemma replaced_char_is_word (c : ascii) :
is_word_char (if is_word_char c then c else "_"%char) = true.
Proof.
destruct (is_word_char c) eqn:E; [exact E|reflexivity].
Qed.

Lemma re_sub_nonword_word_chars (name : string) (c : ascii) :
In c (chars (re_sub_nonword name)) -> is_word_char c = true.
Proof.
unfold re_sub_nonword. rewrite chars_map_chars, in_map_iff.
intros [d [<- _]]. apply replaced_char_is_word.
Qed.

Lemma safe_label_sanitized (name : string) : sanitized (_safe_label name).
Proof.
split.
- unfold all_word_chars. apply forallb_forall. intros c Hc.
  apply (re_sub_nonword_word_chars name). now apply (slice_to_chars 63).
- apply length_slice_to.
Qed.

Lemma safe_property_sanitized (name : string) : sanitized (_safe_property name).
Proof. exact (safe_label_sanitized name). Qed.

End SanitizeFacts.

(** ** The name-pattern test *)

Module PatternFacts.
Import Py Pattern PyFacts.

Lemma upper_ID_pattern_never_matches (target_table col : string) :
contains (lower target_table ++ "_ID")%string (lower col) = false.
Proof.
apply contains_lower_upper_free with (c := "I"%char); [|reflexivity].
rewrite chars_append. apply in_or_app. right. simpl. tauto.
Qed.

(** C10. The pattern [<t>_ID] is looked up in a lower-cased column name
  and so never matches: the three-pattern test of [_detect_fk_to_target]
  is extensionally the two-pattern test on [<t>_id] and the lower-cased
  primary-key name. *)
Theorem name_matches_is_two_pattern_test (col target_table target_pk : string) :
name_matches col target_table target_pk
= name_matches_two col target_table target_pk.
Proof.
unfold name_matches, name_matches_two, fk_patterns. simpl.
rewrite upper_ID_pattern_never_matches. simpl.
now rewrite orb_false_r.
Qed.

End PatternFacts.

(** ** Dictionaries and frames *)

Module DataFacts.

Lemma dict_set_In {V : Type} (d : Dict.dict V) (k0 : string) (v0 : V) (k : string) (v : V) :
  In (k, v) (Dict.set d k0 v0) -> In (k, v) d \/ (k = k0 /\ v = v0).
Proof.
  induction d as [|[k' v'] d IH]; simpl.
  - intros [H|[]]. inversion H. now right.
  - destruct (String.eqb k' k0) eqn:E; simpl.
    + apply String.eqb_eq in E. intros [H|H].
      * inversion H; subst. now right.
      * left. now right.
    + intros [H|H]; [left; now left|].
      destruct (IH H) as [H'|H']; [left; now right|now right].
Qed.

Lemma dict_set_length {V : Type} (d : Dict.dict V) (k : string) (v : V) :
  length (Dict.set d k v) <= S (length d).
Proof.
  induction d as [|[k' v'] d IH]; simpl; [lia|].
  destruct (String.eqb k' k); simpl; lia.
Qed.

Lemma dict_get_set {V : Type} (d : Dict.dict V) (k : string) (v : V) (k' : string) :
  Dict.get (Dict.set d k v) k' = if String.eqb k k' then Some v else Dict.get d k'.
Proof.
  induction d as [|[k0 v0] d IH]; simpl.
  - reflexivity.
  - destruct (String.eqb k0 k) eqn:E0; simpl.
    + apply String.eqb_eq in E0. subst k0.
      destruct (String.eqb k k'); reflexivity.
    + rewrite IH. destruct (String.eqb k0 k') eqn:E1; [|reflexivity].
      apply String.eqb_eq in E1. subst k0. now rewrite String.eqb_sym, E0.
Qed.


Lemma value_eqb_refl (a : value) : value_eqb a a = true.
Proof. destruct a; simpl; auto using Z.eqb_refl, String.eqb_refl. Qed.

Lemma value_eqb_sym (a b : value) : value_eqb a b = value_eqb b a.
Proof.
  destruct a, b; simpl; try reflexivity; auto using Z.eqb_sym, String.eqb_sym.
Qed.

Lemma value_eqb_trans (a b c : value) :
  value_eqb a b = true -> value_eqb b c = true -> value_eqb a c = true.
Proof.
  destruct a, b, c; simpl; intros H1 H2; try discriminate; try reflexivity;
    try (apply Z.eqb_eq in H1, H2; subst; apply Z.eqb_refl).
  apply String.eqb_eq in H1, H2. subst. apply String.eqb_refl.
Qed.

(** Equal values are equal to the same values. *)
Lemma value_eqb_congr (a b c : value) :
  value_eqb a b = true -> value_eqb a c = value_eqb b c.
Proof.
  intros H. destruct (value_eqb a c) eqn:E1, (value_eqb b c) eqn:E2; try reflexivity.
  - rewrite value_eqb_sym in H. now rewrite (value_eqb_trans b a c H E1) in E2.
  - now rewrite (value_eqb_trans a b c H E2) in E1.
Qed.

Lemma mem_exists (v : value) (l : list value) :
  mem v l = true <-> exists x, In x l /\ value_eqb v x = true.
Proof. unfold mem. apply existsb_exists. Qed.

Lemma mem_congr (a b : value) (l : list value) :
  value_eqb a b = true -> mem a l = mem b l.
Proof.
  intros H. unfold mem. induction l as [|c l IH]; simpl; [reflexivity|].
  now rewrite (value_eqb_congr a b c H), IH.
Qed.

Lemma mem_filter_other (x a : value) (u : list value) :
  value_eqb x a = false ->
  mem x (filter (fun y => negb (value_eqb a y)) u) = mem x u.
Proof.
  intros E. unfold mem. induction u as [|b u IH]; cbn [filter existsb]; [reflexivity|].
  destruct (value_eqb a b) eqn:Eab; cbn [negb existsb]; rewrite IH; [|reflexivity].
  destruct (value_eqb x b) eqn:Exb; [|reflexivity].
  rewrite value_eqb_sym in Eab. now rewrite (value_eqb_trans x b a Exb Eab) in E.
Qed.

Lemma mem_unique (x : value) (l : list value) : mem x (unique l) = mem x l.
Proof.
  induction l as [|a l IH]; [reflexivity|].
  change (mem x (unique (a :: l)))
    with (value_eqb x a || mem x (filter (fun y => negb (value_eqb a y)) (unique l))).
  change (mem x (a :: l)) with (value_eqb x a || mem x l).
  destruct (value_eqb x a) eqn:E; [reflexivity|].
  cbn [orb]. now rewrite (mem_filter_other x a (unique l) E).
Qed.

Lemma mem_filter_false (p : value -> bool) (x : value) (l : list value) :
  mem x l = false -> mem x (filter p l) = false.
Proof.
  unfold mem. induction l as [|a l IH]; cbn [filter existsb]; [reflexivity|].
  intros H. apply orb_false_iff in H. destruct H as [H1 H2].
  destruct (p a); cbn [existsb]; [rewrite H1|]; now apply IH.
Qed.

Lemma has_duplicate_filter (p : value -> bool) (l : list value) :
  has_duplicate l = false -> has_duplicate (filter p l) = false.
Proof.
  induction l as [|a l IH]; cbn [filter has_duplicate]; [reflexivity|].
  intros H. apply orb_false_iff in H. destruct H as [H1 H2].
  destruct (p a); cbn [has_duplicate]; [|now apply IH].
  now rewrite (mem_filter_false p a l H1), IH.
Qed.

(** The values [unique] keeps are different from one another. *)
Lemma unique_distinct (l : list value) : has_duplicate (unique l) = false.
Proof.
  induction l as [|a l IH]; cbn [unique has_duplicate]; [reflexivity|].
  rewrite (has_duplicate_filter _ _ IH), orb_false_r. clear IH.
  unfold mem. induction (unique l) as [|b u IHu]; cbn [filter existsb]; [reflexivity|].
  destruct (value_eqb a b) eqn:E; cbn [negb existsb]; [exact IHu|].
  now rewrite E, IHu.
Qed.

Lemma mem_firstn_false (n : nat) (x : value) (l : list value) :
  mem x l = false -> mem x (firstn n l) = false.
Proof.
  unfold mem. revert n. induction l as [|a l IH]; intros [|n]; cbn [firstn existsb];
    try reflexivity.
  intros H. apply orb_false_iff in H. destruct H as [H1 H2]. now rewrite H1, IH.
Qed.

Lemma has_duplicate_firstn (n : nat) (l : list value) :
  has_duplicate l = false -> has_duplicate (firstn n l) = false.
Proof.
  revert n. induction l as [|a l IH]; intros [|n]; cbn [firstn has_duplicate];
    try reflexivity.
  intros H. apply orb_false_iff in H. destruct H as [H1 H2].
  now rewrite (mem_firstn_false n a l H1), IH.
Qed.

Lemma distinct_values_distinct (df : DataFrame) (col : string) :
  has_duplicate (distinct_values df col) = false.
Proof. apply unique_distinct. Qed.

(** Two lists of different values see the same number of common
    elements. *)
Lemma count_common_step (x : value) (l1 l2 : list value) :
  mem x l1 = false -> has_duplicate l2 = false ->
  length (filter (fun v => value_eqb v x || mem v l1) l2)
  = (if mem x l2 then 1 else 0) + length (filter (fun v => mem v l1) l2).
Proof.
  intros Hx. induction l2 as [|b l2 IH]; cbn [has_duplicate filter mem existsb];
    [reflexivity|].
  fold (mem x l2). fold (mem b l2). intros Hd.
  apply orb_false_iff in Hd. destruct Hd as [Hb Hd]. specialize (IH Hd).
  destruct (value_eqb x b) eqn:Exb.
  - rewrite value_eqb_sym, Exb. cbn [orb length].
    assert (Hm2 : mem x l2 = false) by (now rewrite (mem_congr x b l2 Exb)).
    assert (Hm1 : mem b l1 = false).
    { rewrite value_eqb_sym in Exb. now rewrite (mem_congr b x l1 Exb). }
    rewrite Hm2 in IH. rewrite Hm1. cbn [plus] in *. now rewrite IH.
  - rewrite value_eqb_sym, Exb. cbn [orb].
    destruct (mem b l1); cbn [length]; rewrite IH; destruct (mem x l2); cbn; lia.
Qed.

Lemma count_common (l1 l2 : list value) :
  has_duplicate l1 = false -> has_duplicate l2 = false ->
  length (filter (fun v => mem v l2) l1) = length (filter (fun v => mem v l1) l2).
Proof.
  intros H1 H2. induction l1 as [|x l1 IH]; cbn [filter].
  - clear H1 H2. induction l2 as [|b l2 IHl]; cbn; [reflexivity|exact IHl].
  - cbn [has_duplicate] in H1. apply orb_false_iff in H1. destruct H1 as [Hx H1].
    change (fun v => mem v (x :: l1)) with (fun v => value_eqb v x || mem v l1).
    rewrite (count_common_step x l1 l2 Hx H2).
    destruct (mem x l2); cbn [length plus]; now rewrite (IH H1).
Qed.

(** What pandas makes of fetched rows keeps their number and which
    cells are missing. *)
Lemma notna_astype_float (v : value) : notna (astype_float v) = notna v.
Proof. now destruct v. Qed.

Lemma nth_cast_row (dts : list dtype) (row : list value) (i : nat) :
  notna (nth i (cast_row dts row) VNull) = notna (nth i row VNull).
Proof.
  revert row i. induction dts as [|dt dts IH]; intros [|v row] [|i]; cbn;
    try reflexivity.
  - destruct dt; try reflexivity. apply notna_astype_float.
  - apply IH.
Qed.

Lemma notna_cell_cast_row (cols : list string) (dts : list dtype) (row : list value)
    (col : string) :
  notna (cell cols (cast_row dts row) col) = notna (cell cols row col).
Proof.
  unfold cell. destruct (index_of col cols); [apply nth_cast_row|reflexivity].
Qed.

Lemma columns_from_records (cols : list string) (fetched : list (list value)) :
  columns (from_records cols fetched) = cols.
Proof. reflexivity. Qed.

Lemma length_from_records (cols : list string) (fetched : list (list value)) :
  length (rows (from_records cols fetched)) = length fetched.
Proof. unfold from_records. cbn [rows]. apply length_map. Qed.

Lemma length_iterrows (df : DataFrame) : length (iterrows df) = length (rows df).
Proof. unfold iterrows. destruct (row_dtype df); try reflexivity. apply length_map. Qed.

Lemma length_filter_map {A B : Type} (f : A -> B) (p : B -> bool) (l : list A) :
  length (filter (fun a => p (f a)) l) = length (filter p (map f l)).
Proof.
  induction l as [|a l IH]; simpl; [reflexivity|].
  destruct (p (f a)); simpl; now rewrite IH.
Qed.

Lemma filter_ext_length {A : Type} (p q : A -> bool) (l : list A) :
  (forall a, p a = q a) -> length (filter p l) = length (filter q l).
Proof.
  intros H. induction l as [|a l IH]; cbn; [reflexivity|].
  rewrite H. destruct (q a); cbn; now rewrite IH.
Qed.

(** The rows of a frame whose cell in [col] is there are as many as
    the fetched rows whose cell is not NULL. *)
Lemma notna_rows_from_records (cols : list string) (fetched : list (list value))
    (col : string) :
  length (filter notna (column_values (from_records cols fetched) col))
  = length (filter (fun row => notna (cell cols row col)) fetched).
Proof.
  unfold column_values, from_records. cbn [columns rows]. rewrite map_map.
  rewrite <- length_filter_map. apply filter_ext_length.
  intros row. apply notna_cell_cast_row.
Qed.

End DataFacts.

(** ** The statements sent to SQLite *)

Module SqliteFacts.
Import Sqlite DataFacts.

Lemma find_table_name (db : database) (name : string) (t : Table) :
find_table db name = Some t -> t_name t = name.
Proof.
unfold find_table. intros H. apply find_some in H.
destruct H as [_ H]. now apply String.eqb_eq.
Qed.

Lemma find_table_listed (db : database) (name : string) :
  In name (map t_name db) -> exists t, find_table db name = Some t /\ t_name t = name.
Proof.
  unfold find_table. induction db as [|t db IH]; simpl; [tauto|].
  destruct (String.eqb (t_name t) name) eqn:E.
  - intros _. exists t. split; [reflexivity|now apply String.eqb_eq].
  - intros [H|H]; [rewrite H, String.eqb_refl in E; discriminate|now apply IH].
Qed.

Lemma has_column_In (df : DataFrame) (col : string) :
has_column df col = true -> In col (columns df).
Proof.
unfold has_column. rewrite existsb_exists. intros [c [Hin E]].
apply String.eqb_eq in E. now subst.
Qed.

Lemma has_column_of_In (df : DataFrame) (col : string) :
In col (columns df) -> has_column df col = true.
Proof.
intros H. unfold has_column. apply existsb_exists.
exists col. split; [exact H|apply String.eqb_refl].
Qed.

Section WithPlatform.

Context {sql : platform}.

(** A listed table is read as itself, or the statement is rejected. *)
Lemma read_table_listed (p : splice) (db : database) (name : string) (t : Table) :
find_table db name = Some t ->
read_table p db name = if needs_quoting p name then syntax_error else Ok (Some t).
Proof. intros H. unfold read_table. now rewrite H. Qed.

Lemma table_info_listed (db : database) (name : string) (t : Table) :
find_table db name = Some t ->
table_info (SqliteFile db) name
= if needs_quoting in_pragma name then syntax_error else Ok (t_columns t).
Proof.
intros H. unfold table_info. cbn [opened bindE].
rewrite (read_table_listed in_pragma db name t H).
now destruct (needs_quoting in_pragma name).
Qed.

Lemma from_table_listed (db : database) (name : string) (t : Table) :
find_table db name = Some t ->
from_table (SqliteFile db) name
= if needs_quoting in_from name then syntax_error else Ok t.
Proof.
intros H. unfold from_table. cbn [opened bindE].
rewrite (read_table_listed in_from db name t H).
now destruct (needs_quoting in_from name).
Qed.

Lemma select_all_listed (db : database) (name : string) (t : Table) :
find_table db name = Some t ->
select_all (SqliteFile db) name
= if needs_quoting in_from name then syntax_error else Ok (frame_of t).
Proof.
intros H. unfold select_all. rewrite (from_table_listed db name t H).
now destruct (needs_quoting in_from name).
Qed.

Lemma select_count_listed (db : database) (name : string) (t : Table) :
find_table db name = Some t ->
select_count (SqliteFile db) name
= if needs_quoting in_from name then syntax_error else Ok (length (t_rows t)).
Proof.
intros H. unfold select_count. rewrite (from_table_listed db name t H).
now destruct (needs_quoting in_from name).
Qed.

Lemma select_limit_listed (db : database) (name : string) (t : Table) (n : nat) :
find_table db name = Some t ->
select_limit (SqliteFile db) name n
= if needs_quoting in_from name then syntax_error
  else Ok (from_records (column_names t) (firstn n (t_rows t))).
Proof.
intros H. unfold select_limit. rewrite (from_table_listed db name t H).
now destruct (needs_quoting in_from name).
Qed.

(** A frame read from a listed table is the frame of that table. *)
Lemma select_all_inv (db : database) (name : string) (t : Table) (df : DataFrame) :
find_table db name = Some t ->
select_all (SqliteFile db) name = Ok df ->
df = frame_of t /\ needs_quoting in_from name = false.
Proof.
intros H. rewrite (select_all_listed db name t H).
destruct (needs_quoting in_from name); [discriminate|].
intros E. inversion E. now split.
Qed.

(** The rows kept, when the names are read as themselves. *)
Lemma select_not_null_plain (db : database) (name col : string) (t : Table) :
find_table db name = Some t ->
needs_quoting in_from name = false ->
In col (column_names t) ->
needs_quoting in_where col = false ->
select_not_null (SqliteFile db) name col
= Ok (from_records (column_names t)
        (filter (fun row => notna (cell (column_names t) row col)) (t_rows t))).
Proof.
intros H Hn Hc Hq. unfold select_not_null. rewrite (from_table_listed db name t H), Hn.
cbn [bindE]. unfold reads_column. rewrite Hq.
assert (E : existsb (String.eqb col) (column_names t) = true).
{ apply existsb_exists. exists col. split; [exact Hc|apply String.eqb_refl]. }
now rewrite E.
Qed.

(** The verification query on numbers and integer keys. *)
Lemma integer_check_query_plain (db : database) (target_table target_pk : string)
  (t : Table) (sample_vals : list value) :
find_table db target_table = Some t ->
needs_quoting in_from target_table = false ->
reads_column t target_pk = true ->
forallb plain_number sample_vals = true ->
forallb (fun row => integer_or_null (cell (column_names t) row target_pk)) (t_rows t)
= true ->
integer_check_query (SqliteFile db) target_table target_pk sample_vals
= Ok (count_key_rows t target_pk sample_vals).
Proof.
intros Ht Hq Hpk Hs Hk. unfold integer_check_query. cbn [opened bindE].
now rewrite Ht, Hq, Hpk, Hs, Hk.
Qed.

End WithPlatform.

End SqliteFacts.

(** ** Schema introspection *)

Module IngestorFacts.
Import Sqlite Ingestor Spec Terms DataFacts SqliteFacts.




Lemma user_tables_listed (db : database) (name : string) :
  In name (user_tables db) -> In name (map t_name db).
Proof.
  unfold user_tables. rewrite !in_map_iff. intros [t [Hn Hin]].
  apply filter_In in Hin. exists t. tauto.
Qed.

Section WithPlatform.

Context {sql : platform}.

(** The body of the loop, for a table the catalogue lists. *)
Lemma ingest_table_listed (db : database) (schemas : Dict.dict schema) (name : string)
  (t : Table) :
find_table db name = Some t ->
ingest_table (SqliteFile db) schemas name
= if needs_quoting in_pragma name || needs_quoting in_from name
  then syntax_error
  else Ok (Dict.set schemas name
             (mk_schema (t_columns t) (detect_pk (t_columns t)) (length (t_rows t))
                (to_dict_records
                   (from_records (column_names t) (firstn 5 (t_rows t)))))).
Proof.
intros H. unfold ingest_table.
rewrite (table_info_listed db name t H), (select_count_listed db name t H),
        (select_limit_listed db name t 5 H).
destruct (needs_quoting in_pragma name); [reflexivity|].
now destruct (needs_quoting in_from name).
Qed.

Lemma ingest_table_describes (db : database) (schemas schemas' : Dict.dict schema)
  (name : string) :
In name (map t_name db) ->
ingest_table (SqliteFile db) schemas name = Ok schemas' ->
(forall k v, In (k, v) schemas -> describes db k v) ->
forall k v, In (k, v) schemas' -> describes db k v.
Proof.
intros Hl. destruct (find_table_listed db name Hl) as [t [Ht _]].
rewrite (ingest_table_listed db schemas name t Ht).
destruct (_ || _); [discriminate|].
intros H Hold k v Hin. inversion H; subst schemas'; clear H.
apply dict_set_In in Hin. destruct Hin as [Hin|[-> ->]].
- now apply Hold.
- exists t. simpl. repeat split; assumption || reflexivity.
Qed.

Lemma ingest_fold_describes (db : database) (tables : list string) :
forall schemas schemas',
  (forall name, In name tables -> In name (map t_name db)) ->
  foldE tables schemas (ingest_table (SqliteFile db)) = Ok schemas' ->
  (forall k v, In (k, v) schemas -> describes db k v) ->
  forall k v, In (k, v) schemas' -> describes db k v.
Proof.
induction tables as [|name tables IH]; simpl; intros schemas schemas' Hl H Hold.
- inversion H; subst. exact Hold.
- destruct (ingest_table (SqliteFile db) schemas name) as [s1|e] eqn:E1; simpl in H;
    [|discriminate].
  apply (IH s1 schemas' (fun n Hn => Hl n (or_intror Hn)) H).
  exact (ingest_table_describes db schemas s1 name (Hl name (or_introl eq_refl)) E1 Hold).
Qed.



(** The three outcomes of [ingest_all_tables]. *)
Lemma ingest_missing (db_path : string) (w : world) :
Dict.get (fs w) db_path = None ->
ingest_all_tables db_path w
= (w, Raise (mk_exn FileNotFoundError ("Database not found: " ++ db_path))).
Proof.
intros E. unfold ingest_all_tables, bind, os_path_exists. now rewrite E.
Qed.

Lemma ingest_not_a_database (db_path : string) (w : world) :
Dict.get (fs w) db_path = Some NotADatabase ->
ingest_all_tables db_path w
= (w, Raise (mk_exn DatabaseError "file is not a database")).
Proof.
intros E. unfold ingest_all_tables, bind, os_path_exists, sqlite3_connect, lift.
rewrite E. simpl. rewrite E. reflexivity.
Qed.

Lemma ingest_database (db_path : string) (w : world) (db : database) :
Dict.get (fs w) db_path = Some (SqliteFile db) ->
ingest_all_tables db_path w
= (w, bindE (foldE (user_tables db) [] (ingest_table (SqliteFile db)))
            (fun schemas =>
               Ok (mk_schema_info (user_tables db) schemas
                     (list_sum (map row_count (Dict.values schemas)))))).
Proof.
intros E. unfold ingest_all_tables, bind, os_path_exists, sqlite3_connect, lift, ret.
rewrite E. simpl. rewrite E. simpl. unfold user_tables.
now destruct (foldE _ [] (ingest_table (SqliteFile db))).
Qed.

Lemma ingest_preserves_world (db_path : string) (w : world) :
fst (ingest_all_tables db_path w) = w.
Proof.
destruct (Dict.get (fs w) db_path) as [[db|]|] eqn:E.
- now rewrite (ingest_database db_path w db E).
- now rewrite (ingest_not_a_database db_path w E).
- now rewrite (ingest_missing db_path w E).
Qed.



End WithPlatform.

(** The employees declare [emp_id] as their key; the customers declare
    none and get their first column. *)
Lemma introspection_examples :
  option_map (fun info => map (fun entry => primary_key (snd entry)) (schemas info))
             (match snd (ingest_all_tables (sql := Scenario.sqlite)
                           "employees.db" Scenario.employees_world) with
              | Ok info => Some info
              | Raise _ => None
              end)
  = Some [Some "emp_id"]
  /\ detect_pk (t_columns Scenario.customers) = Some "customer_id"
  /\ snd (ingest_all_tables (sql := Scenario.sqlite)
            "missing.db" Scenario.employees_world)
     = Raise (mk_exn FileNotFoundError "Database not found: missing.db").
Proof. vm_compute. repeat split; reflexivity. Qed.

End IngestorFacts.

(** ** Statements sent to the store *)

Module TraceFacts.
Import Sqlite Graph Spec Converter.

Lemma extends_refl (P : cypher -> Prop) (w : world) : extends P w w.
Proof.
exists []. split; [now rewrite app_nil_r|]. split; [constructor|].
intros e He. now left.
Qed.

Lemma extends_trans (P : cypher -> Prop) (w1 w2 w3 : world) :
extends P w1 w2 -> extends P w2 w3 -> extends P w1 w3.
Proof.
intros [t1 [L1 [F1 E1]]] [t2 [L2 [F2 E2]]]. exists (t1 ++ t2). split; [|split].
- now rewrite L2, L1, app_assoc.
- apply Forall_app. now split.
- intros e He. destruct (E2 e He) as [H|[q [Hq Hr]]].
  + destruct (E1 e H) as [H'|[q [Hq Hr]]]; [now left|].
    right. exists q. split; [apply in_or_app; now left|exact Hr].
  + right. exists q. split; [apply in_or_app; now right|exact Hr].
Qed.

Lemma extends_weaken (P P' : cypher -> Prop) (w w' : world) :
(forall q, P q -> P' q) -> extends P w w' -> extends P' w w'.
Proof.
intros H [tr [L [F E]]]. exists tr. split; [exact L|]. split; [|exact E].
revert F. apply Forall_impl. exact H.
Qed.

(** *** Where the edges of the store come from *)

Lemma merge_edge_In (es : list edge) (e0 e : edge) :
In e (merge_edge es e0) -> In e es \/ e = e0.
Proof.
unfold merge_edge. destruct (existsb (edge_eqb e0) es); [now left|].
intros H. apply in_app_or in H. destruct H as [H|[H|[]]]; [now left|now right].
Qed.

Lemma merge_rel_edges (g : graph) (sources targets : list nat) (rel_type : string)
  (e : edge) :
In e (edges (merge_rel g sources targets rel_type)) ->
In e (edges g) \/ rel_type_of_edge e = rel_type.
Proof.
unfold merge_rel. simpl. generalize (edges g) as es.
induction sources as [|s sources IH]; simpl; intros es H; [now left|].
destruct (IH _ H) as [H1|H1]; [|now right]. clear H IH.
revert es H1. induction targets as [|t0 targets IHt]; simpl; intros es H1; [now left|].
destruct (IHt _ H1) as [H2|H2]; [|now right].
apply merge_edge_In in H2. destruct H2 as [H2| ->]; [now left|now right].
Qed.

Lemma merge_rel_nodes (g : graph) (sources targets : list nat) (rel_type : string) :
nodes (merge_rel g sources targets rel_type) = nodes g.
Proof. reflexivity. Qed.

Lemma merge_category_edges (cat_name rel_name : string) (g : graph) (n : nat) (e : edge) :
In e (edges (merge_category cat_name rel_name g n)) ->
In e (edges g) \/ rel_type_of_edge e = rel_name.
Proof.
unfold merge_category. intros H. apply merge_rel_edges in H.
destruct H as [H|H]; [left|now right].
now destruct (existsb _ (nodes g)).
Qed.

Lemma fold_merge_category_edges (cat_name rel_name : string) (ns : list nat) (g : graph)
  (e : edge) :
In e (edges (fold_left (merge_category cat_name rel_name) ns g)) ->
In e (edges g) \/ rel_type_of_edge e = rel_name.
Proof.
revert g. induction ns as [|n ns IH]; simpl; intros g H; [now left|].
destruct (IH _ H) as [H1|H1]; [|now right].
now apply merge_category_edges in H1.
Qed.

Lemma merge_rows_edges (lbl pk : string) (rows : list record) (g g' : graph) :
merge_rows lbl pk g rows = Ok g' -> edges g' = edges g.
Proof.
revert g. induction rows as [|row rows IH]; simpl; intros g H.
- now inversion H.
- destruct (merge_row lbl pk g row) as [g1|e] eqn:E; simpl in H; [|discriminate].
  rewrite (IH _ H). unfold merge_row in E.
  destruct (Dict.get row pk) as [v|]; [|discriminate].
  destruct (notna v); [|discriminate].
  destruct (existsb _ (nodes g)); now inversion E.
Qed.

Lemma checked_inv (g g' : graph) (r : result) : checked g = Ok (g', r) -> g' = g.
Proof. unfold checked. destruct (consistent g); [|discriminate]. now inversion 1. Qed.

(** A statement only adds edges of a relationship type it names. *)
Lemma run_edges (q : cypher) (g g' : graph) (r : result) (e : edge) :
Graph.run q g = Ok (g', r) ->
In e (edges g') ->
In e (edges g) \/ In (rel_type_of_edge e) (rel_types_of q).
Proof.
destruct q as [| |name|lbl pk rws|lbl|name lbl key
               |sl sk source_id tl tk target_id rel_type
               |lbl key cat_value cat_name rel_name]; simpl; intros H He.
- inversion H; subst. destruct He.
- inversion H; subst. now left.
- inversion H; subst. now left.
- destruct (merge_rows lbl pk g rws) as [g1|x] eqn:E; simpl in H; [|discriminate].
  apply checked_inv in H. subst g'. rewrite (merge_rows_edges _ _ _ _ _ E) in He.
  now left.
- inversion H; subst. now left.
- destruct (existsb _ (constraints g)).
  + inversion H; subst. now left.
  + apply checked_inv in H. subst g'. now left.
- apply checked_inv in H. subst g'. apply merge_rel_edges in He.
  destruct He as [He|He]; [now left|right; now left].
- apply checked_inv in H. subst g'. apply fold_merge_category_edges in He.
  destruct He as [He|He]; [now left|right; now left].
Qed.

Section Emits.

Context {sql : platform}.
Variable db_path : string.
Variable db : database.

Lemma emits_ret {A : Type} (P : cypher -> Prop) (Q : A -> Prop) (a : A) :
Q a -> emits db_path db P Q (ret a).
Proof.
intros H w Hw. simpl. split; [exact Hw|]. split; [apply extends_refl|].
intros a' E. now inversion E; subst.
Qed.

Lemma emits_raise {A : Type} (P : cypher -> Prop) (Q : A -> Prop) (e : exn) :
emits db_path db P Q (raise e).
Proof.
intros w Hw. simpl. split; [exact Hw|]. split; [apply extends_refl|discriminate].
Qed.

Lemma emits_lift {A : Type} (P : cypher -> Prop) (Q : A -> Prop) (m : Exc A) :
(forall a, m = Ok a -> Q a) -> emits db_path db P Q (lift m).
Proof.
intros H w Hw. simpl. split; [exact Hw|]. split; [apply extends_refl|exact H].
Qed.

Lemma emits_bind {A B : Type} (P : cypher -> Prop) (Q1 : A -> Prop) (Q2 : B -> Prop)
  (m : M A) (k : A -> M B) :
emits db_path db P Q1 m ->
(forall a, Q1 a -> emits db_path db P Q2 (k a)) ->
emits db_path db P Q2 (bind m k).
Proof.
intros Hm Hk w Hw. unfold bind. destruct (Hm w Hw) as [Hi [He Hq]].
destruct (m w) as [w1 [a|e]]; simpl in *.
- destruct (Hk a (Hq a eq_refl) w1 Hi) as [Hi' [He' Hq']].
  split; [exact Hi'|]. split; [|exact Hq'].
  exact (extends_trans _ _ _ _ He He').
- split; [exact Hi|]. split; [exact He|discriminate].
Qed.

Lemma emits_try_except {A : Type} (P : cypher -> Prop) (Q : A -> Prop)
  (m : M A) (h : exn -> M A) :
emits db_path db P Q m -> (forall e, emits db_path db P Q (h e)) ->
emits db_path db P Q (try_except m h).
Proof.
intros Hm Hh w Hw. unfold try_except. destruct (Hm w Hw) as [Hi [He Hq]].
destruct (m w) as [w1 [a|e]]; simpl in *.
- split; [exact Hi|]. split; [exact He|exact Hq].
- destruct (Hh e w1 Hi) as [Hi' [He' Hq']].
  split; [exact Hi'|]. split; [|exact Hq'].
  exact (extends_trans _ _ _ _ He He').
Qed.

Lemma emits_for_fold {A S : Type} (P : cypher -> Prop) (I : S -> Prop)
  (l : list A) (body : S -> A -> M S) :
(forall s a, I s -> In a l -> emits db_path db P I (body s a)) ->
forall s, I s -> emits db_path db P I (for_fold l s body).
Proof.
induction l as [|a l IH]; intros Hb s Hs; simpl.
- now apply emits_ret.
- apply emits_bind with (Q1 := I).
  + apply Hb; [exact Hs|now left].
  + intros s' Hs'. apply IH; [|exact Hs'].
    intros s0 a0 H0 Hin. apply Hb; [exact H0|now right].
Qed.

Lemma emits_weaken {A : Type} (P P' : cypher -> Prop) (Q Q' : A -> Prop) (m : M A) :
emits db_path db P Q m ->
(forall q, P q -> P' q) -> (forall a, Q a -> Q' a) ->
emits db_path db P' Q' m.
Proof.
intros Hm Hp Hq w Hw. destruct (Hm w Hw) as [Hi [He H]].
split; [exact Hi|]. split; [exact (extends_weaken _ _ _ _ Hp He)|].
intros a E. apply Hq. now apply H.
Qed.

(** Where the source is in place, [sqlite3.connect] opens it and
  creates nothing. *)
Lemma connect_existing (w : world) :
holds_db db_path db w -> sqlite3_connect db_path w = (w, Ok (SqliteFile db)).
Proof. unfold holds_db, sqlite3_connect. now intros ->. Qed.

Lemma emits_connect (P : cypher -> Prop) :
emits db_path db P (fun conn => conn = SqliteFile db) (sqlite3_connect db_path).
Proof.
intros w Hw. rewrite (connect_existing w Hw). simpl.
split; [exact Hw|]. split; [apply extends_refl|].
intros a E. now inversion E.
Qed.

Lemma emits_session_run (P : cypher -> Prop) (store_fault : nat -> bool) (q : cypher) :
P q -> emits db_path db P (fun _ => True) (session_run store_fault q).
Proof.
intros Hq w Hw. unfold session_run.
assert (Hx : forall g,
           (forall e, In e (edges g) ->
                      In e (edges (store w)) \/ In (rel_type_of_edge e) (rel_types_of q)) ->
           extends P w (mk_world (fs w) g (log w ++ [q]))).
{ intros g Hg. exists [q]. split; [reflexivity|]. split; [now repeat constructor|].
  simpl. intros e He. destruct (Hg e He) as [H|H]; [now left|].
  right. exists q. split; [now left|exact H]. }
destruct (store_fault (length (log w)));
  [|destruct (Graph.run q (store w)) as [[g r]|x] eqn:Hrun];
  simpl; (split; [exact Hw|]); (split; [apply Hx|trivial]).
- intros e He. now left.
- intros e He. exact (run_edges q (store w) g r e Hrun He).
- intros e He. now left.
Qed.

End Emits.

End TraceFacts.

(** ** Reference detection *)

Module DetectionFacts.
Import Sqlite Converter Spec DataFacts.

Lemma first_returned_some {A R : Type} (body : A -> Exc (option R)) (l : list A) (x : R) :
first_returned body l = Ok (Some x) -> exists a, In a l /\ body a = Ok (Some x).
Proof.
induction l as [|a l IH]; simpl; [discriminate|].
destruct (body a) as [[r|]|e] eqn:E; simpl; intros H.
- inversion H; subst. exists a. split; [now left|exact E].
- destruct (IH H) as [a' [Hin Ha']]. exists a'. split; [now right|exact Ha'].
- discriminate.
Qed.

Lemma first_returned_ok {A R : Type} (body : A -> Exc (option R)) (l : list A) :
(forall a, In a l -> exists r, body a = Ok r) ->
exists r, first_returned body l = Ok r.
Proof.
induction l as [|a l IH]; simpl; intros H; [now exists None|].
destruct (H a (or_introl eq_refl)) as [[x|] ->]; simpl.
- now exists (Some x).
- apply IH. intros a' Hin. apply H. now right.
Qed.

Lemma first_returned_app_skip {A R : Type} (body : A -> Exc (option R))
  (before after : list A) :
(forall a, In a before -> body a = Ok None) ->
first_returned body (before ++ after) = first_returned body after.
Proof.
induction before as [|a before IH]; simpl; intros H; [reflexivity|].
rewrite (H a (or_introl eq_refl)). simpl. apply IH.
intros a' Hin. apply H. now right.
Qed.

Section Detection.

Variable read_match_count : connection -> string -> string -> list value -> Exc nat.
Variable source_df : DataFrame.
Variables target_table target_pk : string.
Variable conn : connection.

Let name_body := name_rule_body read_match_count source_df target_table target_pk conn.
Let fallback_body := fallback_rule_body read_match_count source_df target_table target_pk conn.

Lemma name_rule_body_cases (col : string) :
name_body col = Ok (Some col) \/ name_body col = Ok None.
Proof.
unfold name_body, name_rule_body.
destruct (Pattern.name_matches col target_table target_pk); [|now right].
destruct (length (distinct_values source_df col) =? 0); [now right|].
destruct (read_match_count _ _ _ _) as [n|e]; simpl; [|now right].
destruct (_ <? _); [now left|now right].
Qed.

Lemma fallback_rule_body_cases (col : string) :
fallback_body col = Ok (Some col) \/ fallback_body col = Ok None.
Proof.
unfold fallback_body, fallback_rule_body.
destruct (_ && _); [|now right].
destruct (0 <? length _); [|now right].
destruct (read_match_count _ _ _ _) as [n|e]; simpl; [|now right].
destruct (0 <? n); [now left|now right].
Qed.

(** A failed verification query leaves the column unaccepted. *)
Lemma name_rule_body_query_failed (col : string) (e : exn) :
read_match_count conn target_table target_pk
                 (firstn 10 (distinct_values source_df col)) = Raise e ->
name_body col = Ok None.
Proof.
intros H. unfold name_body, name_rule_body.
destruct (Pattern.name_matches col target_table target_pk); [|reflexivity].
destruct (length (distinct_values source_df col) =? 0); [reflexivity|].
now rewrite H.
Qed.

Lemma fallback_rule_body_query_failed (col : string) (e : exn) :
read_match_count conn target_table target_pk
                 (firstn 5 (distinct_values source_df col)) = Raise e ->
fallback_body col = Ok None.
Proof.
intros H. unfold fallback_body, fallback_rule_body.
destruct (_ && _); [|reflexivity].
destruct (0 <? length _); [|reflexivity].
now rewrite H.
Qed.

Lemma detect_never_raises :
exists r, _detect_fk_to_target read_match_count source_df target_table target_pk conn
          = Ok r.
Proof.
unfold _detect_fk_to_target. fold name_body. fold fallback_body.
destruct (first_returned_ok name_body (columns source_df)) as [[x|] ->]; simpl.
- intros a _. destruct (name_rule_body_cases a) as [->| ->]; eauto.
- now exists (Some x).
- apply first_returned_ok.
  intros a _. destruct (fallback_rule_body_cases a) as [->| ->]; eauto.
Qed.

Lemma detect_returns_a_column (col : string) :
_detect_fk_to_target read_match_count source_df target_table target_pk conn
= Ok (Some col) ->
In col (columns source_df).
Proof.
unfold _detect_fk_to_target. fold name_body. fold fallback_body.
destruct (first_returned name_body (columns source_df)) as [[x|]|e] eqn:E; simpl;
  intros H; try discriminate.
- inversion H; subst x. apply first_returned_some in E.
  destruct E as [a [Hin Ha]].
  destruct (name_rule_body_cases a) as [Hc|Hc]; rewrite Hc in Ha;
    inversion Ha; now subst.
- apply first_returned_some in H. destruct H as [a [Hin Ha]].
  destruct (fallback_rule_body_cases a) as [Hc|Hc]; rewrite Hc in Ha;
    inversion Ha; now subst.
Qed.

End Detection.

End DetectionFacts.

(** ** The phases of [convert_all_tables] *)

Module ConverterFacts.
Import Sqlite Graph Ingestor Converter Spec Sanitize Terms.
Import TraceFacts DetectionFacts DataFacts SqliteFacts IngestorFacts.

Section Phases.

Context {sql : platform}.
Variable read_match_count : connection -> string -> string -> list value -> Exc nat.
Variable store_fault : nat -> bool.
Variable db_path : string.
Variable db : database.

Lemma emits_ingest (P : cypher -> Prop) :
emits db_path db P
      (fun info => forall k v, In (k, v) (schemas info) -> describes db k v)
      (ingest_all_tables db_path).
Proof.
intros w Hw. rewrite (ingest_database db_path w db Hw). simpl.
split; [exact Hw|]. split; [apply extends_refl|].
intros info H.
destruct (foldE _ [] (ingest_table (SqliteFile db))) as [s|e] eqn:F;
  simpl in H; [|discriminate].
inversion H; subst info. simpl.
apply (ingest_fold_describes db _ [] s (user_tables_listed db) F). intros k v [].
Qed.

Lemma emits_drop_all_constraints :
emits db_path db cleanup_stmt (fun _ : unit => True)
      (drop_all_constraints store_fault).
Proof.
unfold drop_all_constraints.
apply emits_try_except; [|intros e; now apply emits_ret].
apply emits_bind with (Q1 := fun _ => True);
  [apply emits_session_run; constructor|intros r _].
apply emits_for_fold with (I := fun _ : unit => True); [|trivial].
intros s name _ _.
apply emits_bind with (Q1 := fun _ => True);
  [apply emits_session_run; constructor|intros _ _; now apply emits_ret].
Qed.

Lemma emits_safe_cleanup :
emits db_path db cleanup_stmt (fun _ : unit => True) (_safe_cleanup store_fault).
Proof.
unfold _safe_cleanup.
apply emits_bind with (Q1 := fun _ => True);
  [apply emits_session_run; constructor|intros _ _].
apply emits_drop_all_constraints.
Qed.

Lemma emits_create_base_nodes (t : Table) (pk : string) :
find_table db (t_name t) = Some t ->
emits db_path db (node_stmt db) (fun _ : nat => True)
      (_create_base_nodes store_fault db_path (t_name t) (_safe_label (t_name t)) pk).
Proof.
intros Ht. unfold _create_base_nodes.
apply emits_bind with (Q1 := fun conn => conn = SqliteFile db);
  [apply emits_connect|intros conn ->].
apply emits_bind with (Q1 := fun df => df = frame_of t).
{ apply emits_lift. intros df H. now apply (select_all_inv db (t_name t) t df Ht) in H. }
intros df ->.
apply emits_bind with (Q1 := fun _ => True);
  [apply emits_session_run; now constructor|intros _ _].
apply emits_bind with (Q1 := fun _ => True);
  [apply emits_session_run; now constructor|intros r _].
apply emits_bind with (Q1 := fun _ => True);
  [apply emits_session_run; now constructor|intros _ _].
now apply emits_ret.
Qed.

Lemma emits_create_all_nodes (schemas : Dict.dict schema) :
(forall k v, In (k, v) schemas -> describes db k v) ->
emits db_path db (node_stmt db)
      (fun table_nodes => forall entry, In entry table_nodes -> table_node_ok db entry)
      (create_all_nodes store_fault db_path schemas).
Proof.
intros Hs. unfold create_all_nodes.
apply emits_for_fold
  with (I := fun tns => forall entry, In entry tns -> table_node_ok db entry);
  [|intros entry []].
intros tns [table_name sch] Htns Hin.
destruct (Hs table_name sch Hin) as [t [Ht _]].
pose proof (find_table_name db table_name t Ht) as Hn. subst table_name.
destruct (primary_key sch) as [pk|]; [|apply emits_raise].
apply emits_bind with (Q1 := fun _ => True);
  [now apply emits_create_base_nodes|intros node_count _].
apply emits_ret. intros [k tn] Hk. apply dict_set_In in Hk.
destruct Hk as [Hk|[-> ->]]; [now apply Htns|].
exists t. now repeat split.
Qed.

Lemma emits_create_fk_rels (s t : Table) (source_pk target_pk fk_col : string) :
find_table db (t_name s) = Some s ->
find_table db (t_name t) = Some t ->
t_name s <> t_name t ->
In fk_col (column_names s) ->
emits db_path db (reference_stmt db) (fun _ : nat => True)
      (_create_fk_rels store_fault (SqliteFile db)
         (_safe_label (t_name s)) source_pk (_safe_label (t_name t)) target_pk
         (t_name s) fk_col).
Proof.
intros Hs Ht Hne Hin. unfold _create_fk_rels.
apply emits_bind with (Q1 := fun _ => True); [now apply emits_lift|].
intros df _.
apply emits_for_fold with (I := fun _ : nat => True); [|trivial].
intros created_count row _ _.
destruct (notna (cell (columns df) row fk_col)); [|now apply emits_ret].
apply emits_try_except; [|intros e; now apply emits_ret].
apply emits_bind with (Q1 := fun _ => True); [|intros _ _; now apply emits_ret].
apply emits_session_run. now constructor.
Qed.

Lemma emits_fk_targets_loop (table_nodes : Dict.dict table_node)
  (schemas : Dict.dict schema) (s : Table) (source_info : table_node)
  (source_df : DataFrame) (total_rels : nat) :
(forall entry, In entry table_nodes -> table_node_ok db entry) ->
find_table db (t_name s) = Some s ->
tn_label source_info = _safe_label (t_name s) ->
columns source_df = column_names s ->
emits db_path db (reference_stmt db) (fun _ : nat => True)
      (fk_targets_loop read_match_count store_fault (SqliteFile db)
         table_nodes schemas (t_name s) source_info source_df total_rels).
Proof.
intros Hok Hs Hl Hcols. unfold fk_targets_loop.
apply emits_for_fold with (I := fun _ : nat => True); [|trivial].
intros total [target_table target_info] _ Hin.
destruct (String.eqb (t_name s) target_table) eqn:E; [now apply emits_ret|].
destruct (Dict.get schemas target_table); [|apply emits_raise].
apply emits_bind
  with (Q1 := fun r => forall col, r = Some col -> In col (column_names s)).
{ apply emits_lift. intros r Hr col ->. rewrite <- Hcols.
  exact (detect_returns_a_column read_match_count source_df target_table
           (tn_pk target_info) (SqliteFile db) col Hr). }
intros fk_col Hcol.
destruct fk_col as [col|]; [|now apply emits_ret].
destruct (Py.truthy col); [|now apply emits_ret].
apply emits_bind with (Q1 := fun _ => True); [|intros; now apply emits_ret].
destruct (Hok _ Hin) as [t [Ht [Hn Htl]]]. simpl in *. subst target_table.
rewrite Hl, Htl. apply emits_create_fk_rels; try assumption.
- intros Heq. rewrite Heq, String.eqb_refl in E. discriminate.
- now apply Hcol.
Qed.

Lemma emits_create_all_fk_relationships (table_nodes : Dict.dict table_node)
  (schemas : Dict.dict schema) :
(forall entry, In entry table_nodes -> table_node_ok db entry) ->
emits db_path db (reference_stmt db) (fun _ : nat => True)
      (_create_all_fk_relationships read_match_count store_fault
         db_path table_nodes schemas).
Proof.
intros Hok. unfold _create_all_fk_relationships.
apply emits_bind with (Q1 := fun conn => conn = SqliteFile db);
  [apply emits_connect|intros conn ->].
apply emits_for_fold with (I := fun _ : nat => True); [|trivial].
intros total [source_table source_info] _ Hin.
destruct (Hok _ Hin) as [s [Hs [Hn Hl]]]. simpl in *. subst source_table.
apply emits_bind with (Q1 := fun df => df = frame_of s).
{ apply emits_lift. intros df H. now apply (select_all_inv db (t_name s) s df Hs) in H. }
intros df ->. now apply emits_fk_targets_loop.
Qed.

Lemma emits_categorical_for_table (t : Table) (table_info : table_node) :
find_table db (t_name t) = Some t ->
tn_label table_info = _safe_label (t_name t) ->
emits db_path db (category_stmt db) (fun _ : unit => True)
      (categorical_for_table store_fault db_path (t_name t) table_info).
Proof.
intros Ht Hl. unfold categorical_for_table.
apply emits_bind with (Q1 := fun conn => conn = SqliteFile db);
  [apply emits_connect|intros conn ->].
apply emits_bind with (Q1 := fun df => df = frame_of t).
{ apply emits_lift. intros df H. now apply (select_all_inv db (t_name t) t df Ht) in H. }
intros df ->.
destruct (categorical_column (frame_of t)) as [col|] eqn:Hc; [|now apply emits_ret].
apply emits_for_fold with (I := fun _ : unit => True); [|trivial].
intros [] cat_value _ Hin. unfold categorical_body.
destruct (Py.truthy (Py.strip (str cat_value))) eqn:Hv; [|now apply emits_ret].
apply emits_bind with (Q1 := fun _ => True); [|intros; now apply emits_ret].
apply emits_session_run. rewrite Hl. constructor; try assumption.
unfold categorical_values. apply filter_In. now split.
Qed.

Lemma emits_create_categorical_relationships (table_nodes : Dict.dict table_node)
  (schemas : Dict.dict schema) :
(forall entry, In entry table_nodes -> table_node_ok db entry) ->
emits db_path db (category_stmt db) (fun _ : unit => True)
      (_create_categorical_relationships store_fault db_path table_nodes schemas).
Proof.
intros Hok. unfold _create_categorical_relationships.
apply emits_for_fold with (I := fun _ : unit => True); [|trivial].
intros [] [table_name table_info] _ Hin.
destruct (Hok _ Hin) as [t [Ht [Hn Hl]]]. simpl in *. subst table_name.
now apply emits_categorical_for_table.
Qed.

Lemma emits_build_graph (info : schema_info) :
(forall k v, In (k, v) (schemas info) -> describes db k v) ->
emits db_path db
      (fun q => node_stmt db q \/ reference_stmt db q \/ category_stmt db q)
      (fun _ => True)
      (build_graph read_match_count store_fault db_path info).
Proof.
intros Hinfo. unfold build_graph.
eapply emits_bind.
{ eapply emits_weaken; [apply (emits_create_all_nodes _ Hinfo)| |intros a H; exact H].
  intros q Hq. now left. }
intros table_nodes Hok.
apply emits_bind with (Q1 := fun _ => True).
{ eapply emits_weaken; [now apply emits_create_all_fk_relationships| |trivial].
  intros q Hq. right. now left. }
intros _ _.
apply emits_bind with (Q1 := fun _ => True); [|intros; now apply emits_ret].
eapply emits_weaken; [now apply emits_create_categorical_relationships| |trivial].
intros q Hq. right. now right.
Qed.

Lemma emits_convert_all_tables :
emits db_path db (converter_stmt db) (fun _ => True)
      (convert_all_tables read_match_count store_fault db_path).
Proof.
unfold convert_all_tables.
eapply emits_bind; [apply emits_ingest|intros info Hinfo].
apply emits_bind with (Q1 := fun _ => True).
{ eapply emits_weaken; [apply emits_safe_cleanup| |trivial].
  intros q Hq. now left. }
intros _ _.
eapply emits_weaken; [apply (emits_build_graph info Hinfo)| |trivial].
intros q Hq. now right.
Qed.

(** A cleanup that returns has emptied the store of its edges. *)
Lemma safe_cleanup_resets_edges (w w1 : world) (u : unit) :
holds_db db_path db w ->
_safe_cleanup store_fault w = (w1, Ok u) ->
edges (store w1) = [].
Proof.
intros Hw. unfold _safe_cleanup, bind at 1.
destruct (session_run store_fault DetachDeleteAll w) as [w0 [r|e]] eqn:E0;
  [|discriminate].
assert (H0 : edges (store w0) = [] /\ holds_db db_path db w0).
{ revert E0. unfold session_run.
  destruct (store_fault (length (log w))); [discriminate|]. simpl.
  intros H. inversion H; subst. now split. }
destruct H0 as [H0 Hw0]. intros H.
destruct (emits_drop_all_constraints w0 Hw0) as [_ [Hx _]].
rewrite H in Hx. simpl in Hx. destruct Hx as [tr [_ [F Hx]]].
destruct (edges (store w1)) as [|e es] eqn:Ee; [reflexivity|exfalso].
destruct (Hx e (or_introl eq_refl)) as [Hin|[q [Hq Hr]]].
- rewrite H0 in Hin. destruct Hin.
- rewrite Forall_forall in F. destruct (F q Hq); destruct Hr.
Qed.

(** A run that returns went through ingestion and a cleanup that
  emptied the store, and is [build_graph] from there. *)
Lemma convert_returns_inv (w : world) (info : schema_info) :
holds_db db_path db w ->
snd (convert_all_tables read_match_count store_fault db_path w) = Ok info ->
exists i w1,
  (forall k v, In (k, v) (schemas i) -> describes db k v)
  /\ holds_db db_path db w1
  /\ edges (store w1) = []
  /\ convert_all_tables read_match_count store_fault db_path w
     = build_graph read_match_count store_fault db_path i w1.
Proof.
intros Hw. destruct (emits_ingest (fun _ => True) w Hw) as [_ [_ Hinfo]].
unfold convert_all_tables, bind.
destruct (ingest_all_tables db_path w) as [w0 [i|x]] eqn:Ei; [|discriminate].
pose proof (ingest_preserves_world db_path w) as Hp. rewrite Ei in Hp.
simpl in Hp. subst w0. simpl in Hinfo.
destruct (_safe_cleanup store_fault w) as [w1 [u|x]] eqn:Ec; [|discriminate].
intros _. exists i, w1. split; [now apply Hinfo|]. split; [|split].
- destruct (emits_safe_cleanup w Hw) as [Hw1 _]. now rewrite Ec in Hw1.
- exact (safe_cleanup_resets_edges w w1 u Hw Ec).
- reflexivity.
Qed.

End Phases.

(** Whatever the source, the verification queries and the store do, every
  statement [convert_all_tables] sends belongs to one of its phases. *)
Lemma convert_all_tables_statements {sql : platform}
  (read_match_count : connection -> string -> string -> list value -> Exc nat)
  (store_fault : nat -> bool) (db_path : string) (w : world) :
exists tr,
  log (fst (convert_all_tables read_match_count store_fault db_path w)) = log w ++ tr
  /\ Forall (fun q => exists db, holds_db db_path db w /\ converter_stmt db q) tr.
Proof.
destruct (Dict.get (fs w) db_path) as [[db|]|] eqn:E.
- destruct (emits_convert_all_tables read_match_count store_fault db_path db w E)
    as [_ [[tr [L [F _]]] _]].
  exists tr. split; [exact L|]. revert F. apply Forall_impl.
  intros q Hq. now exists db.
- exists []. split; [|constructor].
  unfold convert_all_tables, bind. rewrite (ingest_not_a_database db_path w E).
  simpl. now rewrite app_nil_r.
- exists []. split; [|constructor].
  unfold convert_all_tables, bind. rewrite (ingest_missing db_path w E).
  simpl. now rewrite app_nil_r.
Qed.

End ConverterFacts.

(** ** Sanitized names in every statement *)

Module SanitizedStatements.
Import Sqlite Graph Ingestor Converter Spec Sanitize.
Import PyFacts SanitizeFacts ConverterFacts.

Lemma upper_char_word (c : ascii) :
is_word_char c = true -> is_word_char (Py.upper_char c) = true.
Proof.
destruct c as [[] [] [] [] [] [] [] []]; vm_compute; intros H; exact H || reflexivity.
Qed.

Lemma length_map_chars (f : ascii -> ascii) (s : string) :
String.length (Py.map_chars f s) = String.length s.
Proof. induction s as [|c s IH]; simpl; [reflexivity|now rewrite IH]. Qed.

Lemma sanitized_upper (s : string) : sanitized s -> sanitized (Py.upper s).
Proof.
intros [Hc Hl]. split.
- unfold all_word_chars, Py.upper in *. rewrite chars_map_chars.
  rewrite forallb_forall in *. intros c Hin. apply in_map_iff in Hin.
  destruct Hin as [d [<- Hd]]. apply upper_char_word. now apply Hc.
- unfold Py.upper. now rewrite length_map_chars.
Qed.

Lemma sanitized_Category : sanitized "Category".
Proof. split; [reflexivity|simpl; lia]. Qed.

Lemma sanitized_name : sanitized "name".
Proof. split; [reflexivity|simpl; lia]. Qed.

Lemma keys_set_sanitized (d : record) (k : string) (v : value) :
Forall sanitized (Dict.keys d) -> sanitized k ->
Forall sanitized (Dict.keys (Dict.set d k v)).
Proof.
unfold Dict.keys. induction d as [|[k' v'] d IH]; simpl; intros Hd Hk.
- constructor; [exact Hk|constructor].
- inversion Hd; subst. destruct (String.eqb k' k); simpl; constructor; auto.
Qed.

Lemma row_dict_keys_sanitized (cols : list string) (row : list value) :
Forall sanitized (Dict.keys (row_dict cols row)).
Proof.
unfold row_dict.
assert (H : Forall sanitized (Dict.keys (@nil (string * value)))) by constructor.
revert H. generalize (@nil (string * value)).
induction (combine cols row) as [|[col val] l IH]; simpl; intros acc Hacc; [exact Hacc|].
apply IH. destruct (notna val); [|exact Hacc].
apply keys_set_sanitized; [exact Hacc|apply safe_property_sanitized].
Qed.

Lemma row_dicts_keys_sanitized (cols : list string) (rows : list (list value)) :
Forall sanitized (flat_map (@Dict.keys value) (map (row_dict cols) rows)).
Proof.
induction rows as [|row rows IH]; simpl; [constructor|].
apply Forall_app. split; [apply row_dict_keys_sanitized|exact IH].
Qed.

Ltac names_ok :=
repeat match goal with
       | |- _ /\ _ => split
       | |- Forall _ [] => constructor
       | |- Forall _ (_ :: _) => constructor
       | |- sanitized (_safe_label _) => apply safe_label_sanitized
       | |- sanitized (_safe_property _) => apply safe_property_sanitized
       | |- sanitized "Category" => apply sanitized_Category
       | |- sanitized "name" => apply sanitized_name
       | |- Forall sanitized (flat_map _ _) => apply row_dicts_keys_sanitized
       end.

Lemma converter_stmt_sanitized (db : database) (q : cypher) :
converter_stmt db q -> stmt_sanitized q.
Proof.
intros [H|[H|[H|H]]]; destruct H; unfold stmt_sanitized; simpl; names_ok.
- exists (_safe_label (Py.upper fk_col)). split; [apply safe_label_sanitized|now left].
- exists (Py.upper (_safe_property col)).
  split; [apply sanitized_upper, safe_property_sanitized|now right].
Qed.

(** C9. [_safe_label] and [_safe_property] return, for every string, a
  string over [[A-Za-z0-9_]] of length at most 63; and every label,
  property key and relationship type named by a statement that
  [convert_all_tables] sends to the store went through them: labels and
  keys are sanitizer outputs (or the fixed [Category] and [name]), and
  a relationship type is [REFERENCES_] or [HAS_] followed by one. *)
Theorem sanitization_contract {sql : platform} :
(forall name : string, sanitized (_safe_label name) /\ sanitized (_safe_property name))
/\ (forall (read_match_count : connection -> string -> string -> list value -> Exc nat)
           (store_fault : nat -> bool) (db_path : string) (w : world),
      exists tr,
        log (fst (convert_all_tables read_match_count store_fault db_path w))
        = log w ++ tr
        /\ Forall stmt_sanitized tr).
Proof.
split.
- intros name. split; [apply safe_label_sanitized|apply safe_property_sanitized].
- intros read_match_count store_fault db_path w.
  destruct (convert_all_tables_statements read_match_count store_fault db_path w)
    as [tr [L F]].
  exists tr. split; [exact L|]. revert F. apply Forall_impl.
  intros q [db [_ Hq]]. exact (converter_stmt_sanitized db q Hq).
Qed.

End SanitizedStatements.

(** ** The loop of [_create_fk_rels] *)

Module ReferenceLoop.
Import Sqlite Graph Converter Spec Sanitize Terms.
Import DataFacts SqliteFacts.

Lemma merge_rel_consistent (g : graph) (sources targets : list nat) (rel_type : string) :
  consistent (merge_rel g sources targets rel_type) = consistent g.
Proof. reflexivity. Qed.

Lemma not_refused_step (store_fault : nat -> bool) (start n : nat) :
  not_refused store_fault start (S n)
  = (if store_fault start then 0 else 1) + not_refused store_fault (S start) n.
Proof. unfold not_refused. cbn [seq filter]. now destruct (store_fault start). Qed.

Lemma not_refused_app (store_fault : nat -> bool) (start m n : nat) :
  not_refused store_fault start (m + n)
  = not_refused store_fault start m + not_refused store_fault (start + m) n.
Proof.
  unfold not_refused. rewrite seq_app, filter_app, length_app. reflexivity.
Qed.

Lemma filter_seq_shift (p : nat -> bool) (a b n : nat) :
  length (filter p (seq (a + b) n)) = length (filter (fun i => p (a + i)) (seq b n)).
Proof.
  revert b. induction n as [|n IH]; intros b; [reflexivity|].
  cbn [seq filter]. rewrite <- Nat.add_succ_r.
  destruct (p (a + b)); cbn [length]; now rewrite IH.
Qed.

Lemma not_refused_from (store_fault : nat -> bool) (start n : nat) :
  not_refused store_fault start n
  = length (filter (fun i => negb (store_fault (start + i))) (seq 0 n)).
Proof.
  unfold not_refused. rewrite <- (Nat.add_0_r start) at 1.
  exact (filter_seq_shift (fun i => negb (store_fault i)) start 0 n).
Qed.

Lemma not_refused_no_fault (store_fault : nat -> bool) (start n : nat) :
  (forall k, store_fault k = false) -> not_refused store_fault start n = n.
Proof.
  intros H. revert start. induction n as [|n IH]; intros start; [reflexivity|].
  rewrite not_refused_step, H, IH. reflexivity.
Qed.

(** The rows [iterrows] yields have a value where the rows read have one. *)
Lemma notna_cell_astype_float (cols : list string) (row : list value) (col : string) :
  notna (cell cols (map astype_float row) col) = notna (cell cols row col).
Proof.
  unfold cell. destruct (index_of col cols) as [i|]; [|reflexivity].
  destruct (Nat.lt_ge_cases i (length row)) as [Hlt|Hge].
  - rewrite (nth_indep _ VNull (astype_float VNull)) by now rewrite length_map.
    rewrite map_nth. apply notna_astype_float.
  - rewrite !nth_overflow; [reflexivity|exact Hge|now rewrite length_map].
Qed.

Lemma iterrows_from_records_notna (cols : list string) (fetched : list (list value))
    (col : string) :
  Forall (fun row => notna (cell cols row col) = true) fetched ->
  Forall (fun row => notna (cell cols row col) = true)
         (iterrows (from_records cols fetched)).
Proof.
  intros H. unfold iterrows, from_records. cbn [rows columns].
  assert (H1 : Forall (fun row => notna (cell cols row col) = true)
                      (map (cast_row (dtypes (length cols) fetched)) fetched)).
  { apply Forall_map. revert H. apply Forall_impl. intros row Hr.
    now rewrite notna_cell_cast_row. }
  destruct (row_dtype _); try exact H1.
  apply Forall_map. revert H1. apply Forall_impl. intros row Hr.
  now rewrite notna_cell_astype_float.
Qed.

Lemma referring_rows_refer (s : Table) (fk_col : string) :
  Forall (fun row => notna (cell (column_names s) row fk_col) = true)
         (referring_rows s fk_col).
Proof.
  unfold referring_rows. apply iterrows_from_records_notna.
  apply Forall_forall. intros row Hrow. apply filter_In in Hrow. tauto.
Qed.

Lemma length_referring_rows (s : Table) (fk_col : string) :
  length (referring_rows s fk_col)
  = length (filter notna (column_values (frame_of s) fk_col)).
Proof.
  unfold referring_rows, frame_of.
  now rewrite length_iterrows, length_from_records, notna_rows_from_records.
Qed.

Section Loop.

Variable store_fault : nat -> bool.
Variables source_label source_pk target_label target_pk fk_col : string.
Variable cols : list string.

Let fk_row_body :=
  Terms.fk_row_body store_fault source_label source_pk target_label target_pk fk_col cols.
Let statement :=
  fk_statement source_label source_pk target_label target_pk fk_col cols.

Lemma fk_row_body_step (created_count : nat) (row : list value) (w : world) :
  notna (cell cols row fk_col) = true ->
  fs (fst (fk_row_body created_count row w)) = fs w
  /\ nodes (store (fst (fk_row_body created_count row w))) = nodes (store w)
  /\ constraints (store (fst (fk_row_body created_count row w))) = constraints (store w)
  /\ log (fst (fk_row_body created_count row w)) = log w ++ [statement row]
  /\ ((snd (fk_row_body created_count row w) = Ok created_count
       /\ (store_fault (length (log w)) = true \/ consistent (store w) = false))
      \/ (snd (fk_row_body created_count row w) = Ok (created_count + 1)
          /\ store_fault (length (log w)) = false)).
Proof.
  intros Hn. unfold fk_row_body, Terms.fk_row_body, statement, fk_statement. rewrite Hn.
  unfold try_except, bind, session_run.
  destruct (store_fault (length (log w))); cbn [Graph.run].
  - cbn. repeat split. left. split; [reflexivity|now left].
  - unfold checked. rewrite merge_rel_consistent.
    destruct (consistent (store w)); cbn.
    + repeat split. right. now split.
    + repeat split. left. split; [reflexivity|now right].
Qed.

Lemma consistent_same (g g' : graph) :
  nodes g' = nodes g -> constraints g' = constraints g -> consistent g' = consistent g.
Proof.
  intros Hn Hk. unfold consistent, constrained_values. now rewrite Hn, Hk.
Qed.

Lemma fk_loop_trace (rows : list (list value)) (created_count : nat) (w : world) :
  Forall (fun row => notna (cell cols row fk_col) = true) rows ->
  exists n w',
    for_fold rows created_count fk_row_body w = (w', Ok n)
    /\ fs w' = fs w
    /\ nodes (store w') = nodes (store w)
    /\ constraints (store w') = constraints (store w)
    /\ log w' = log w ++ map statement rows
    /\ created_count <= n <= created_count + length rows
    /\ (consistent (store w) = true ->
        n = created_count + not_refused store_fault (length (log w)) (length rows)).
Proof.
  revert created_count w. induction rows as [|row rows IH]; intros c w Hall.
  - exists c, w. cbn. rewrite app_nil_r. repeat split; lia.
  - inversion Hall as [|? ? Hrow Hrest]; subst. cbn [for_fold]. unfold bind.
    destruct (fk_row_body_step c row w Hrow) as [Hf [Hn [Hk [Hl Hs]]]].
    destruct (fk_row_body c row w) as [w1 [c1|e]]; cbn [fst snd] in *;
      [|destruct Hs as [[Hs _]|[Hs _]]; discriminate].
    destruct (IH c1 w1 Hrest) as [n [w' [Hr [Hf' [Hn' [Hk' [Hl' [Hb He]]]]]]]].
    exists n, w'. split; [exact Hr|].
    assert (Hc1 : c1 = c \/ c1 = c + 1).
    { destruct Hs as [[Hs _]|[Hs _]]; inversion Hs; auto. }
    split; [congruence|]. split; [congruence|]. split; [congruence|].
    split; [rewrite Hl', Hl, <- app_assoc; reflexivity|].
    split; [cbn [length]; lia|].
    intros Hc. cbn [length]. rewrite not_refused_step.
    assert (Hc' : consistent (store w1) = true).
    { now rewrite (consistent_same (store w) (store w1)). }
    rewrite (He Hc'), Hl, length_app. cbn [length].
    replace (length (log w) + 1) with (S (length (log w))) by lia.
    destruct Hs as [[Hs [Hx|Hx]]|[Hs Hx]].
    + rewrite Hx. inversion Hs. lia.
    + rewrite Hc in Hx. discriminate.
    + rewrite Hx. inversion Hs. lia.
Qed.

End Loop.

Section Rels.

Context {sql : platform}.
Variable store_fault : nat -> bool.

(** [_create_fk_rels] where line 191 reads the table and the column
    it names. *)
Lemma create_fk_rels_plain (db : database) (s : Table)
    (source_label source_pk target_label target_pk fk_col : string) (w : world) :
  find_table db (t_name s) = Some s ->
  needs_quoting in_from (t_name s) = false ->
  In fk_col (column_names s) ->
  needs_quoting in_where fk_col = false ->
  exists created_count w',
    _create_fk_rels store_fault (SqliteFile db) source_label source_pk
                    target_label target_pk (t_name s) fk_col w
    = (w', Ok created_count)
    /\ fs w' = fs w
    /\ nodes (store w') = nodes (store w)
    /\ constraints (store w') = constraints (store w)
    /\ log w' = log w ++ fk_statements source_label source_pk target_label target_pk
                                       s fk_col
    /\ created_count <= length (referring_rows s fk_col)
    /\ (consistent (store w) = true ->
        created_count
        = not_refused store_fault (length (log w)) (length (referring_rows s fk_col))).
Proof.
  intros Hs Hq Hin Hw. unfold _create_fk_rels, bind, lift.
  rewrite (select_not_null_plain db (t_name s) fk_col s Hs Hq Hin Hw).
  rewrite columns_from_records.
  destruct (fk_loop_trace store_fault source_label source_pk target_label target_pk
              fk_col (column_names s) (referring_rows s fk_col) 0 w
              (referring_rows_refer s fk_col))
    as [n [w' [Hr [Hf [Hn [Hk [Hl [Hb He]]]]]]]].
  exists n, w'. split; [exact Hr|]. split; [exact Hf|]. split; [exact Hn|].
  split; [exact Hk|]. split; [exact Hl|]. split; [lia|exact He].
Qed.

(** Line 191 is outside any [try]: a name SQLite does not read as
    itself makes [_create_fk_rels] raise before anything is sent. *)
Lemma create_fk_rels_quoting (db : database) (s : Table)
    (source_label source_pk target_label target_pk fk_col : string) (w : world) :
  find_table db (t_name s) = Some s ->
  needs_quoting in_from (t_name s) = true ->
  _create_fk_rels store_fault (SqliteFile db) source_label source_pk
                  target_label target_pk (t_name s) fk_col w
  = (w, syntax_error).
Proof.
  intros Hs Hq. unfold _create_fk_rels, bind, lift, select_not_null.
  rewrite (from_table_listed db (t_name s) s Hs), Hq. reflexivity.
Qed.

End Rels.

End ReferenceLoop.

(** ** Failure isolation in reference detection *)

Module IsolationFacts.
Import Sqlite Graph Ingestor Converter Spec Terms.
Import DataFacts SqliteFacts DetectionFacts ConverterFacts TraceFacts ReferenceLoop.

(** Loops whose bodies do the same, do the same. *)
Lemma for_fold_ext {A S : Type} (l : list A) (body body' : S -> A -> M S) :
(forall s a w, In a l -> body s a w = body' s a w) ->
forall s w, for_fold l s body w = for_fold l s body' w.
Proof.
induction l as [|a l IH]; intros Hb s w; simpl; [reflexivity|].
unfold bind. rewrite (Hb s a w (or_introl eq_refl)).
destruct (body' s a w) as [w1 [x|e]]; [|reflexivity].
apply IH. intros s0 a0 w0 Hin. apply Hb. now right.
Qed.

Lemma first_returned_ext {A R : Type} (body body' : A -> Exc (option R)) (l : list A) :
(forall a, In a l -> body a = body' a) ->
first_returned body l = first_returned body' l.
Proof.
induction l as [|a l IH]; intros Hb; simpl; [reflexivity|].
rewrite (Hb a (or_introl eq_refl)).
destruct (body' a) as [[r|]|e]; simpl; try reflexivity.
apply IH. intros a' Hin. apply Hb. now right.
Qed.

Lemma first_returned_hit {A R : Type} (body : A -> Exc (option R)) (a : A) (l : list A)
  (x : R) :
body a = Ok (Some x) -> first_returned body (a :: l) = Ok (Some x).
Proof. intros H. simpl. now rewrite H. Qed.

Section Quiet.

Variable read_match_count : connection -> string -> string -> list value -> Exc nat.

(** A query that fails and a query that reports no match leave the
    column unaccepted alike. *)
Lemma name_rule_body_quiet (source_df : DataFrame) (target_table target_pk : string)
  (conn : connection) (col : string) :
name_rule_body read_match_count source_df target_table target_pk conn col
= name_rule_body (quiet read_match_count) source_df target_table target_pk conn col.
Proof.
unfold name_rule_body, quiet.
destruct (Pattern.name_matches col target_table target_pk); [|reflexivity].
destruct (length (distinct_values source_df col) =? 0); [reflexivity|].
destruct (read_match_count _ _ _ _) as [n|e]; simpl; reflexivity.
Qed.

Lemma fallback_rule_body_quiet (source_df : DataFrame) (target_table target_pk : string)
  (conn : connection) (col : string) :
fallback_rule_body read_match_count source_df target_table target_pk conn col
= fallback_rule_body (quiet read_match_count) source_df target_table target_pk conn col.
Proof.
unfold fallback_rule_body, quiet.
destruct (_ && _); [|reflexivity].
destruct (0 <? length _); [|reflexivity].
destruct (read_match_count _ _ _ _) as [n|e]; reflexivity.
Qed.

Lemma detect_quiet (source_df : DataFrame) (target_table target_pk : string)
  (conn : connection) :
_detect_fk_to_target read_match_count source_df target_table target_pk conn
= _detect_fk_to_target (quiet read_match_count) source_df target_table target_pk conn.
Proof.
unfold _detect_fk_to_target.
rewrite (first_returned_ext
           (name_rule_body read_match_count source_df target_table target_pk conn)
           (name_rule_body (quiet read_match_count) source_df target_table target_pk conn))
  by (intros a _; apply name_rule_body_quiet).
destruct (first_returned _ _) as [[x|]|e]; simpl; try reflexivity.
apply first_returned_ext. intros a _. apply fallback_rule_body_quiet.
Qed.

Lemma pair_statements_quiet (db : database) (source_info : table_node) (s : Table)
  (target : string * table_node) :
pair_statements (quiet read_match_count) db source_info s target
= pair_statements read_match_count db source_info s target.
Proof. unfold pair_statements. now rewrite <- detect_quiet. Qed.

Lemma all_pair_statements_quiet (db : database) (table_nodes : Dict.dict table_node) :
all_pair_statements (quiet read_match_count) db table_nodes
= all_pair_statements read_match_count db table_nodes.
Proof.
unfold all_pair_statements. apply flat_map_ext. intros source.
destruct (find_table db (fst source)) as [s|]; [|reflexivity].
apply flat_map_ext. intros target. apply pair_statements_quiet.
Qed.

(** The name-pattern rule goes on past the columns whose query fails. *)
Lemma detect_after_failed_name_queries (source_df : DataFrame)
  (target_table target_pk : string) (conn : connection)
  (before : list string) (col : string) (after : list string) (match_count : nat) :
columns source_df = before ++ col :: after ->
(forall c, In c before ->
           exists e, read_match_count conn target_table target_pk (name_sample source_df c)
                     = Raise e) ->
Pattern.name_matches col target_table target_pk = true ->
name_sample source_df col <> [] ->
read_match_count conn target_table target_pk (name_sample source_df col) = Ok match_count ->
3 * length (name_sample source_df col) < 10 * match_count ->
_detect_fk_to_target read_match_count source_df target_table target_pk conn
= Ok (Some col).
Proof.
intros Hcols Hbefore Hm Hne Hq Hr. unfold _detect_fk_to_target. rewrite Hcols.
rewrite first_returned_app_skip.
- rewrite (first_returned_hit _ col after col); [reflexivity|].
  unfold name_rule_body. rewrite Hm.
  destruct (length (distinct_values source_df col) =? 0) eqn:E.
  + apply Nat.eqb_eq in E. exfalso. apply Hne. unfold name_sample.
    destruct (distinct_values source_df col); [reflexivity|discriminate].
  + fold (name_sample source_df col). rewrite Hq. unfold try_exceptE, bindE.
    apply Nat.ltb_lt in Hr. now rewrite Hr.
- intros c Hc. destruct (Hbefore c Hc) as [e He].
  exact (name_rule_body_query_failed read_match_count source_df target_table target_pk
                                     conn c e He).
Qed.

(** So does the fallback rule, after a name-pattern rule all of whose
    queries failed. *)
Lemma detect_after_failed_fallback_queries (source_df : DataFrame)
  (target_table target_pk : string) (conn : connection)
  (before : list string) (col : string) (after : list string) (match_count : nat) :
columns source_df = before ++ col :: after ->
(forall c, In c (columns source_df) ->
           Pattern.name_matches c target_table target_pk = true ->
           exists e, read_match_count conn target_table target_pk (name_sample source_df c)
                     = Raise e) ->
(forall c, In c before ->
           exists e, read_match_count conn target_table target_pk
                                      (fallback_sample source_df c)
                     = Raise e) ->
10 * nunique source_df col < length (rows source_df) ->
1 < nunique source_df col ->
read_match_count conn target_table target_pk (fallback_sample source_df col)
= Ok match_count ->
0 < match_count ->
_detect_fk_to_target read_match_count source_df target_table target_pk conn
= Ok (Some col).
Proof.
intros Hcols Hname Hbefore Hc1 Hc2 Hq Hr. unfold _detect_fk_to_target.
rewrite <- (app_nil_r (columns source_df)) at 1.
rewrite first_returned_app_skip.
- simpl. rewrite Hcols. rewrite first_returned_app_skip.
  + apply first_returned_hit. unfold fallback_rule_body.
    apply Nat.ltb_lt in Hc1, Hc2. rewrite Hc1, Hc2. cbn [andb].
    fold (fallback_sample source_df col).
    assert (Hl : (0 <? length (fallback_sample source_df col)) = true).
    { apply Nat.ltb_lt. unfold fallback_sample. apply Nat.ltb_lt in Hc2.
      unfold nunique in Hc2. rewrite length_firstn. lia. }
    rewrite Hl, Hq. unfold try_exceptE, bindE. apply Nat.ltb_lt in Hr. now rewrite Hr.
  + intros c Hc. destruct (Hbefore c Hc) as [e He].
    exact (fallback_rule_body_query_failed read_match_count source_df target_table
                                           target_pk conn c e He).
- intros c Hc. unfold name_rule_body.
  destruct (Pattern.name_matches c target_table target_pk) eqn:Em; [|reflexivity].
  destruct (Hname c Hc Em) as [e He].
  destruct (length (distinct_values source_df c) =? 0); [reflexivity|].
  fold (name_sample source_df c). now rewrite He.
Qed.

End Quiet.

Section Isolation.

Context {sql : platform}.
Variable read_match_count : connection -> string -> string -> list value -> Exc nat.
Variable store_fault : nat -> bool.

(** The loops of lines 99-122 with queries that fail and with queries
    that report no match instead. *)
Lemma fk_targets_loop_quiet (conn : connection) (table_nodes : Dict.dict table_node)
  (schemas : Dict.dict schema) (source_table : string) (source_info : table_node)
  (source_df : DataFrame) (total_rels : nat) (w : world) :
fk_targets_loop read_match_count store_fault conn table_nodes schemas
                source_table source_info source_df total_rels w
= fk_targets_loop (quiet read_match_count) store_fault conn table_nodes schemas
                  source_table source_info source_df total_rels w.
Proof.
unfold fk_targets_loop. apply for_fold_ext.
intros total [target_table target_info] w0 _.
destruct (String.eqb source_table target_table); [reflexivity|].
destruct (Dict.get schemas target_table); [|reflexivity].
unfold bind, lift. now rewrite <- detect_quiet.
Qed.

Lemma create_all_fk_relationships_quiet (db_path : string)
  (table_nodes : Dict.dict table_node) (schemas : Dict.dict schema) (w : world) :
_create_all_fk_relationships read_match_count store_fault db_path table_nodes schemas w
= _create_all_fk_relationships (quiet read_match_count) store_fault db_path
                               table_nodes schemas w.
Proof.
unfold _create_all_fk_relationships, bind.
destruct (sqlite3_connect db_path w) as [w1 [conn|e]]; [|reflexivity].
apply for_fold_ext. intros total [source_table source_info] w0 _.
unfold bind, lift. destruct (select_all conn source_table) as [df|e]; [|reflexivity].
apply fk_targets_loop_quiet.
Qed.

(** The statements of the pairs with one source, when lines 104 and
    191 read the table and the columns they name. *)
Lemma fk_targets_loop_trace (db : database) (schemas : Dict.dict schema) (s : Table)
  (source_info : table_node) (targets : Dict.dict table_node) :
find_table db (t_name s) = Some s ->
needs_quoting in_from (t_name s) = false ->
(forall col, In col (column_names s) -> needs_quoting in_where col = false) ->
(forall entry, In entry targets -> exists sch, Dict.get schemas (fst entry) = Some sch) ->
forall (total_rels : nat) (w : world),
exists total w',
  fk_targets_loop read_match_count store_fault (SqliteFile db)
                  targets schemas (t_name s) source_info (frame_of s) total_rels w
  = (w', Ok total)
  /\ fs w' = fs w
  /\ nodes (store w') = nodes (store w)
  /\ constraints (store w') = constraints (store w)
  /\ log w' = log w ++ flat_map (pair_statements read_match_count db source_info s) targets
  /\ total <= total_rels
              + length (flat_map (pair_statements read_match_count db source_info s) targets)
  /\ (consistent (store w) = true ->
      total = total_rels
              + not_refused store_fault (length (log w))
                  (length (flat_map (pair_statements read_match_count db source_info s)
                                    targets))).
Proof.
intros Hs Hq Hcols. unfold fk_targets_loop.
induction targets as [|[target_table target_info] targets IH]; intros Hsch total w.
- exists total, w. cbn. rewrite app_nil_r. repeat split; lia.
- assert (Hrest : forall entry, In entry targets ->
                                exists sch, Dict.get schemas (fst entry) = Some sch).
  { intros entry He. apply Hsch. now right. }
  specialize (IH Hrest).
  cbn [for_fold flat_map]. unfold bind at 1.
  unfold pair_statements at 1 3 5. cbn [fst snd].
  destruct (String.eqb (t_name s) target_table) eqn:Eq.
  + cbn [ret app]. exact (IH total w).
  + destruct (Hsch _ (or_introl eq_refl)) as [sch Hg]. cbn [fst] in Hg. rewrite Hg.
    unfold bind at 1, lift at 1.
    destruct (detect_never_raises read_match_count (frame_of s) target_table
                                  (tn_pk target_info) (SqliteFile db)) as [r Hr].
    rewrite Hr. destruct r as [col|]; [|cbn [ret app]; exact (IH total w)].
    destruct (Py.truthy col); [|cbn [ret app]; exact (IH total w)].
    pose proof (detect_returns_a_column _ _ _ _ _ _ Hr) as Hin.
    unfold frame_of in Hin. rewrite columns_from_records in Hin.
    destruct (create_fk_rels_plain store_fault db s (tn_label source_info)
                (tn_pk source_info) (tn_label target_info) (tn_pk target_info) col w
                Hs Hq Hin (Hcols col Hin))
      as [n [w1 [Hrun [Hf1 [Hn1 [Hk1 [Hl1 [Hb1 He1]]]]]]]].
    unfold bind at 1. rewrite Hrun. cbn [ret].
    destruct (IH (total + n) w1) as [total' [w' [Hrun' [Hf [Hn [Hk [Hl [Hb He]]]]]]]].
    exists total', w'. split; [exact Hrun'|].
    split; [congruence|]. split; [congruence|]. split; [congruence|].
    split; [rewrite Hl, Hl1, <- app_assoc; reflexivity|].
    assert (Hlen : length (fk_statements (tn_label source_info) (tn_pk source_info)
                             (tn_label target_info) (tn_pk target_info) s col)
                   = length (referring_rows s col)).
    { unfold fk_statements. apply length_map. }
    split; [rewrite length_app, Hlen; lia|].
    intros Hc. rewrite length_app, not_refused_app, Hlen.
    rewrite He; [|now rewrite (consistent_same (store w) (store w1))].
    rewrite (He1 Hc), Hl1, length_app, Hlen. lia.
Qed.

(** The statements of all the pairs. *)
Lemma create_all_fk_relationships_trace (db_path : string) (db : database)
  (table_nodes : Dict.dict table_node) (schemas : Dict.dict schema) (w : world) :
holds_db db_path db w ->
(forall entry, In entry table_nodes ->
   (exists t, find_table db (fst entry) = Some t
              /\ needs_quoting in_from (fst entry) = false
              /\ forall col, In col (column_names t) -> needs_quoting in_where col = false)
   /\ (exists sch, Dict.get schemas (fst entry) = Some sch)) ->
exists total_rels w',
  _create_all_fk_relationships read_match_count store_fault db_path table_nodes schemas w
  = (w', Ok total_rels)
  /\ fs w' = fs w
  /\ log w' = log w ++ all_pair_statements read_match_count db table_nodes
  /\ total_rels <= length (all_pair_statements read_match_count db table_nodes)
  /\ (consistent (store w) = true ->
      total_rels
      = not_refused store_fault (length (log w))
          (length (all_pair_statements read_match_count db table_nodes))).
Proof.
intros Hw Hok. unfold _create_all_fk_relationships, bind.
rewrite (connect_existing db_path db w Hw).
assert (Hsch : forall entry, In entry table_nodes ->
                             exists sch, Dict.get schemas (fst entry) = Some sch).
{ intros entry He. now apply Hok. }
unfold all_pair_statements.
assert (Hsrc : forall entry, In entry table_nodes ->
          exists t, find_table db (fst entry) = Some t
                    /\ needs_quoting in_from (fst entry) = false
                    /\ forall col, In col (column_names t) ->
                                   needs_quoting in_where col = false).
{ intros entry He. now apply Hok. }
clear Hok Hw.
cut (forall (sources : Dict.dict table_node) (total : nat) (w0 : world),
       (forall entry, In entry sources -> In entry table_nodes) ->
       exists total' w',
         for_fold sources total
           (fun total_rels source =>
              let '(source_table, source_info) := source in
              bind (lift (select_all (SqliteFile db) source_table))
                (fun source_df =>
                   fk_targets_loop read_match_count store_fault (SqliteFile db)
                     table_nodes schemas source_table source_info source_df total_rels))
           w0
         = (w', Ok total')
         /\ fs w' = fs w0
         /\ nodes (store w') = nodes (store w0)
         /\ constraints (store w') = constraints (store w0)
         /\ log w'
            = log w0
              ++ flat_map
                   (fun source =>
                      match find_table db (fst source) with
                      | Some s =>
                          flat_map (pair_statements read_match_count db (snd source) s)
                                   table_nodes
                      | None => []
                      end)
                   sources
         /\ total' <= total
                      + length
                          (flat_map
                             (fun source =>
                                match find_table db (fst source) with
                                | Some s =>
                                    flat_map
                                      (pair_statements read_match_count db (snd source) s)
                                      table_nodes
                                | None => []
                                end)
                             sources)
         /\ (consistent (store w0) = true ->
             total' = total
                      + not_refused store_fault (length (log w0))
                          (length
                             (flat_map
                                (fun source =>
                                   match find_table db (fst source) with
                                   | Some s =>
                                       flat_map
                                         (pair_statements read_match_count db
                                                          (snd source) s)
                                         table_nodes
                                   | None => []
                                   end)
                                sources)))).
{ intros H. destruct (H table_nodes 0 w (fun entry He => He))
    as [total [w' [Hrun [Hf [_ [_ [Hl [Hb He]]]]]]]].
  exists total, w'. split; [exact Hrun|]. split; [exact Hf|]. split; [exact Hl|].
  split; [exact Hb|exact He]. }
induction sources as [|[source_table source_info] sources IH]; intros total w0 Hsub.
- exists total, w0. cbn. rewrite app_nil_r. repeat split; lia.
- cbn [for_fold flat_map fst snd]. unfold bind at 1.
  destruct (Hsrc _ (Hsub _ (or_introl eq_refl))) as [s [Hs [Hq Hcols]]].
  cbn [fst] in Hs, Hq. rewrite Hs.
  pose proof (find_table_name db source_table s Hs) as Hname. subst source_table.
  unfold bind at 1, lift at 1.
  rewrite (select_all_listed db (t_name s) s Hs), Hq.
  destruct (fk_targets_loop_trace db schemas s source_info table_nodes Hs Hq Hcols
              Hsch total w0)
    as [total1 [w1 [Hrun1 [Hf1 [Hn1 [Hk1 [Hl1 [Hb1 He1]]]]]]]].
  rewrite Hrun1.
  destruct (IH total1 w1 (fun entry He => Hsub entry (or_intror He)))
    as [total' [w' [Hrun' [Hf [Hn [Hk [Hl [Hb He]]]]]]]].
  exists total', w'. split; [exact Hrun'|].
  split; [congruence|]. split; [congruence|]. split; [congruence|].
  split; [rewrite Hl, Hl1, <- app_assoc; reflexivity|].
  split; [rewrite length_app; lia|].
  intros Hc. rewrite length_app, not_refused_app.
  rewrite He; [|now rewrite (consistent_same (store w0) (store w1))].
  rewrite (He1 Hc), Hl1, length_app. lia.
Qed.

End Isolation.

(** C7. Whatever the verification queries do (any of them may raise):
  detection for a pair never raises, and finds what it finds when each
  failing query reports no match instead; the name-pattern rule
  returns the first column it accepts after columns whose queries
  failed, and so does the fallback rule when every query of the
  name-pattern rule failed; the loop over the ordered pairs does what
  it does with queries that report no match where they failed; and
  where the source is a database whose names SQLite reads as
  themselves (and every key is a column of its table), that loop
  returns, having sent for every ordered pair of tables of different
  names the statements of the column detected for this pair alone, one
  per row that refers to something, and its count is the number of
  those statements the store did not refuse. *)
Theorem verification_failure_is_isolated {sql : platform}
  (read_match_count : connection -> string -> string -> list value -> Exc nat)
  (store_fault : nat -> bool) :
(forall source_df target_table target_pk conn,
    (exists r, _detect_fk_to_target read_match_count source_df target_table target_pk conn
               = Ok r)
    /\ _detect_fk_to_target read_match_count source_df target_table target_pk conn
       = _detect_fk_to_target (quiet read_match_count) source_df target_table target_pk
                              conn)
/\ (forall source_df target_table target_pk conn before col after match_count,
      columns source_df = before ++ col :: after ->
      (forall c, In c before ->
         exists e, read_match_count conn target_table target_pk (name_sample source_df c)
                   = Raise e) ->
      Pattern.name_matches col target_table target_pk = true ->
      name_sample source_df col <> [] ->
      read_match_count conn target_table target_pk (name_sample source_df col)
      = Ok match_count ->
      3 * length (name_sample source_df col) < 10 * match_count ->
      _detect_fk_to_target read_match_count source_df target_table target_pk conn
      = Ok (Some col))
/\ (forall source_df target_table target_pk conn before col after match_count,
      columns source_df = before ++ col :: after ->
      (forall c, In c (columns source_df) ->
         Pattern.name_matches c target_table target_pk = true ->
         exists e, read_match_count conn target_table target_pk (name_sample source_df c)
                   = Raise e) ->
      (forall c, In c before ->
         exists e, read_match_count conn target_table target_pk
                                    (fallback_sample source_df c)
                   = Raise e) ->
      10 * nunique source_df col < length (rows source_df) ->
      1 < nunique source_df col ->
      read_match_count conn target_table target_pk (fallback_sample source_df col)
      = Ok match_count ->
      0 < match_count ->
      _detect_fk_to_target read_match_count source_df target_table target_pk conn
      = Ok (Some col))
/\ (forall db_path table_nodes schemas w,
      _create_all_fk_relationships read_match_count store_fault db_path
                                   table_nodes schemas w
      = _create_all_fk_relationships (quiet read_match_count) store_fault db_path
                                     table_nodes schemas w)
/\ (forall db_path db table_nodes schemas w,
      holds_db db_path db w ->
      (forall entry, In entry table_nodes ->
         (exists t, find_table db (fst entry) = Some t
                    /\ needs_quoting in_from (fst entry) = false
                    /\ In (tn_pk (snd entry)) (column_names t)
                    /\ forall col, In col (column_names t) ->
                                   needs_quoting in_where col = false)
         /\ (exists sch, Dict.get schemas (fst entry) = Some sch)) ->
      exists total_rels w',
        _create_all_fk_relationships read_match_count store_fault db_path
                                     table_nodes schemas w
        = (w', Ok total_rels)
        /\ fs w' = fs w
        /\ log w' = log w ++ all_pair_statements (quiet read_match_count) db table_nodes
        /\ total_rels
           <= length (all_pair_statements (quiet read_match_count) db table_nodes)
        /\ (consistent (store w) = true ->
            total_rels
            = not_refused store_fault (length (log w))
                (length (all_pair_statements (quiet read_match_count) db table_nodes)))).
Proof.
split; [|split; [|split; [|split]]].
- intros. split; [apply detect_never_raises|apply detect_quiet].
- intros source_df target_table target_pk conn before col after match_count.
  apply detect_after_failed_name_queries.
- intros source_df target_table target_pk conn before col after match_count.
  apply detect_after_failed_fallback_queries.
- intros. apply create_all_fk_relationships_quiet.
- intros db_path db table_nodes schemas w Hw Hok.
  rewrite all_pair_statements_quiet.
  apply create_all_fk_relationships_trace; [exact Hw|].
  intros entry Hin. destruct (Hok entry Hin) as [[t [Ht [Hq [_ Hc]]]] Hs].
  split; [now exists t|exact Hs].
Qed.

(** The queries fail when the target is [emp] (for the column
    [dept_id] of [dept], whose name holds [id]) and run when it is
    [dept]: the loop over the pairs of [emp] and [dept] returns, having
    sent the three statements of [emp.dept_id]. *)
Lemma verification_failure_witness :
  exists total_rels w',
    _create_all_fk_relationships (sql := Scenario.sqlite) Samples.failing_for_emp
      Scenario.no_fault "staff.db"
      [("emp", mk_table_node "emp" "id" 3); ("dept", mk_table_node "dept" "dept_id" 2)]
      [("emp", mk_schema (t_columns Scenario.emp) (Some "id") 3 []);
       ("dept", mk_schema (t_columns Scenario.dept) (Some "dept_id") 2 [])]
      Scenario.staff_with_nodes
    = (w', Ok total_rels)
    /\ log w'
       = log Scenario.staff_with_nodes
         ++ [MergeRel "emp" "id" (VInt 1) "dept" "dept_id" (VInt 10) "REFERENCES_DEPT_ID";
             MergeRel "emp" "id" (VInt 2) "dept" "dept_id" (VInt 10) "REFERENCES_DEPT_ID";
             MergeRel "emp" "id" (VInt 3) "dept" "dept_id" (VInt 30) "REFERENCES_DEPT_ID"].
Proof.
  assert (Hw : holds_db "staff.db" Scenario.staff_db Scenario.staff_with_nodes)
    by reflexivity.
  destruct (verification_failure_is_isolated (sql := Scenario.sqlite)
              Samples.failing_for_emp Scenario.no_fault)
    as [_ [_ [_ [_ H]]]].
  destruct (H "staff.db" Scenario.staff_db
              [("emp", mk_table_node "emp" "id" 3);
               ("dept", mk_table_node "dept" "dept_id" 2)]
              [("emp", mk_schema (t_columns Scenario.emp) (Some "id") 3 []);
               ("dept", mk_schema (t_columns Scenario.dept) (Some "dept_id") 2 [])]
              Scenario.staff_with_nodes Hw)
    as [total_rels [w' [Hrun [_ [Hl _]]]]].
  - intros entry [<-|[<-|[]]]; split.
    + exists Scenario.emp. split; [reflexivity|]. split; [reflexivity|].
      split; [now left|]. intros col [<-|[<-|[]]]; reflexivity.
    + eexists; reflexivity.
    + exists Scenario.dept. split; [reflexivity|]. split; [reflexivity|].
      split; [now left|]. intros col [<-|[<-|[]]]; reflexivity.
    + eexists; reflexivity.
  - exists total_rels, w'. split; [exact Hrun|]. rewrite Hl. reflexivity.
Defined.

End IsolationFacts.

(** ** The two acceptance thresholds *)

Module ThresholdFacts.
Import Sqlite Converter Spec DataFacts SqliteFacts DetectionFacts.

Lemma filter_nonempty {A : Type} (p : A -> bool) (l : list A) :
0 < length (filter p l) <-> exists x, In x l /\ p x = true.
Proof.
induction l as [|a l IH]; simpl.
- split; [lia|intros [x [[] _]]].
- destruct (p a) eqn:E; simpl.
  + split; [intros _; exists a; auto|lia].
  + rewrite IH. split; intros [x [Hin Hx]]; exists x.
    * auto.
    * destruct Hin as [->|Hin]; [congruence|auto].
Qed.

Lemma count_key_rows_as_keys (t : Table) (pk : string) (sample_vals : list value) :
count_key_rows t pk sample_vals
= length (filter (fun v => mem v sample_vals) (key_values t pk)).
Proof.
unfold count_key_rows, key_values.
exact (length_filter_map (fun row => cell (column_names t) row pk)
                         (fun v => mem v sample_vals) (t_rows t)).
Qed.

(** With distinct keys, the rows the verification query counts are as
  many as the sampled values found among the keys. *)
Lemma count_key_rows_found (t : Table) (pk : string) (sample_vals : list value) :
has_duplicate (key_values t pk) = false -> has_duplicate sample_vals = false ->
count_key_rows t pk sample_vals = found_in_key_domain t pk sample_vals.
Proof.
intros Hk Hs. rewrite count_key_rows_as_keys. unfold found_in_key_domain.
now apply count_common.
Qed.

Lemma mem_flip (x : value) (l1 l2 : list value) :
In x l1 -> mem x l2 = true -> exists y, In y l2 /\ mem y l1 = true.
Proof.
intros Hin Hx. apply mem_exists in Hx. destruct Hx as [y [Hy Hxy]].
exists y. split; [exact Hy|]. apply mem_exists. exists x.
split; [exact Hin|]. now rewrite value_eqb_sym.
Qed.

(** Some row is counted exactly when some sampled value is a key. *)
Lemma count_key_rows_positive (t : Table) (pk : string) (sample_vals : list value) :
0 < count_key_rows t pk sample_vals <-> 0 < found_in_key_domain t pk sample_vals.
Proof.
rewrite count_key_rows_as_keys. unfold found_in_key_domain.
rewrite !filter_nonempty. split; intros [x [Hin Hx]]; exact (mem_flip x _ _ Hin Hx).
Qed.

Lemma name_sample_distinct (df : DataFrame) (col : string) :
has_duplicate (name_sample df col) = false.
Proof. apply has_duplicate_firstn, distinct_values_distinct. Qed.

Lemma name_sample_empty (df : DataFrame) (col : string) :
(length (distinct_values df col) =? 0) = true <-> name_sample df col = [].
Proof.
unfold name_sample. rewrite Nat.eqb_eq.
destruct (distinct_values df col); simpl; split; intros H; try reflexivity; discriminate.
Qed.

Section Thresholds.

Variable read_match_count : connection -> string -> string -> list value -> Exc nat.
Variable source_df : DataFrame.
Variables target_table target_pk : string.
Variable conn : connection.

(** The name-pattern rule accepts on the count its query reports. *)
Lemma name_rule_body_accepts (col : string) :
name_rule_body read_match_count source_df target_table target_pk conn col = Ok (Some col)
<-> Pattern.name_matches col target_table target_pk = true
    /\ name_sample source_df col <> []
    /\ exists match_count,
         read_match_count conn target_table target_pk (name_sample source_df col)
         = Ok match_count
         /\ 3 * length (name_sample source_df col) < 10 * match_count.
Proof.
unfold name_rule_body.
destruct (Pattern.name_matches col target_table target_pk);
  [|split; [discriminate|intros [H _]; discriminate]].
destruct (length (distinct_values source_df col) =? 0) eqn:E.
- apply name_sample_empty in E. split; [discriminate|]. intros [_ [H _]]. contradiction.
- assert (Hne : name_sample source_df col <> []).
  { intros H. apply name_sample_empty in H. congruence. }
  fold (name_sample source_df col).
  destruct (read_match_count conn target_table target_pk (name_sample source_df col))
    as [n|e]; unfold try_exceptE, bindE.
  + destruct (3 * length (name_sample source_df col) <? 10 * n) eqn:El.
    * apply Nat.ltb_lt in El. split; [|reflexivity]. intros _.
      split; [reflexivity|]. split; [exact Hne|]. exists n. now split.
    * apply Nat.ltb_ge in El. split; [discriminate|].
      intros [_ [_ [m [Hm Hlt]]]]. inversion Hm; subst. lia.
  + split; [discriminate|]. intros [_ [_ [m [Hm _]]]]. discriminate.
Qed.

(** So does the fallback rule. *)
Lemma fallback_rule_body_accepts (col : string) :
fallback_rule_body read_match_count source_df target_table target_pk conn col
= Ok (Some col)
<-> 10 * nunique source_df col < length (rows source_df)
    /\ 1 < nunique source_df col
    /\ exists match_count,
         read_match_count conn target_table target_pk (fallback_sample source_df col)
         = Ok match_count
         /\ 0 < match_count.
Proof.
unfold fallback_rule_body. cbv zeta.
change (firstn 5 (distinct_values source_df col)) with (fallback_sample source_df col).
destruct (10 * nunique source_df col <? length (rows source_df)) eqn:E1;
  [apply Nat.ltb_lt in E1
  |apply Nat.ltb_ge in E1; cbn [andb]; split; [discriminate|intros [H _]; lia]].
destruct (1 <? nunique source_df col) eqn:E2;
  [apply Nat.ltb_lt in E2
  |apply Nat.ltb_ge in E2; cbn [andb]; split; [discriminate|intros [_ [H _]]; lia]].
cbn [andb].
assert (Hl : (0 <? length (fallback_sample source_df col)) = true).
{ apply Nat.ltb_lt. unfold fallback_sample, nunique in *. rewrite length_firstn. lia. }
rewrite Hl.
destruct (read_match_count conn target_table target_pk (fallback_sample source_df col))
  as [n|e]; unfold try_exceptE, bindE.
- destruct (0 <? n) eqn:El.
  + apply Nat.ltb_lt in El. split; [|reflexivity]. intros _.
    split; [exact E1|]. split; [exact E2|]. exists n. now split.
  + apply Nat.ltb_ge in El. split; [discriminate|].
    intros [_ [_ [m [Hm Hlt]]]]. inversion Hm; subst. lia.
- split; [discriminate|]. intros [_ [_ [m [Hm _]]]]. discriminate.
Qed.

(** The first column a rule accepts is what its loop returns. *)
Lemma detect_first_name_accepted (before : list string) (col : string)
  (after : list string) :
columns source_df = before ++ col :: after ->
(forall c, In c before ->
           name_rule_body read_match_count source_df target_table target_pk conn c
           = Ok None) ->
name_rule_body read_match_count source_df target_table target_pk conn col
= Ok (Some col) ->
_detect_fk_to_target read_match_count source_df target_table target_pk conn
= Ok (Some col).
Proof.
intros Hcols Hbefore Hacc. unfold _detect_fk_to_target. rewrite Hcols.
rewrite (first_returned_app_skip _ before (col :: after) Hbefore).
simpl. now rewrite Hacc.
Qed.

Lemma detect_is_fallback :
first_returned (name_rule_body read_match_count source_df target_table target_pk conn)
               (columns source_df) = Ok None ->
_detect_fk_to_target read_match_count source_df target_table target_pk conn
= first_returned (fallback_rule_body read_match_count source_df target_table target_pk conn)
                 (columns source_df).
Proof. intros H. unfold _detect_fk_to_target. now rewrite H. Qed.

Lemma detect_first_fallback_accepted (before : list string) (col : string)
  (after : list string) :
first_returned (name_rule_body read_match_count source_df target_table target_pk conn)
               (columns source_df) = Ok None ->
columns source_df = before ++ col :: after ->
(forall c, In c before ->
           fallback_rule_body read_match_count source_df target_table target_pk conn c
           = Ok None) ->
fallback_rule_body read_match_count source_df target_table target_pk conn col
= Ok (Some col) ->
_detect_fk_to_target read_match_count source_df target_table target_pk conn
= Ok (Some col).
Proof.
intros Hname Hcols Hbefore Hacc. rewrite (detect_is_fallback Hname), Hcols.
rewrite (first_returned_app_skip _ before (col :: after) Hbefore).
simpl. now rewrite Hacc.
Qed.

End Thresholds.

End ThresholdFacts.

Module ThresholdClaims.
Import Sqlite Converter Spec DataFacts SqliteFacts DetectionFacts ThresholdFacts Scenario.

(** C4 (amended). For every frame of [S], target [T] and column: the
  name-pattern rule accepts the column exactly when its lower-cased
  name matches a pattern for [T], its sample of up to 10 distinct
  non-null values is not empty, and the verification query returns a
  count of which 10 times exceeds 3 times the number of sampled
  values; a query that fails, like a count at 30% or below, leaves the
  column unaccepted (and open to the fallback rule).  Where [T] and
  its key are read as themselves, the sampled values are numbers and
  the keys integers, the query counts the rows of [T] whose key is a
  sampled value; with distinct keys this is the number of sampled
  values found in [T]'s key domain, and the rule accepts exactly above
  30%.  The first column the rule accepts is what detection returns
  for the pair. *)
Theorem name_rule_threshold {sql : platform}
  (read_match_count : connection -> string -> string -> list value -> Exc nat)
  (source_df : DataFrame) (target_table target_pk : string) (conn : connection)
  (col : string) :
(name_rule_body read_match_count source_df target_table target_pk conn col
 = Ok (Some col)
 <-> Pattern.name_matches col target_table target_pk = true
     /\ name_sample source_df col <> []
     /\ exists match_count,
          read_match_count conn target_table target_pk (name_sample source_df col)
          = Ok match_count
          /\ 3 * length (name_sample source_df col) < 10 * match_count)
/\ (name_rule_body read_match_count source_df target_table target_pk conn col
    = Ok (Some col)
    \/ name_rule_body read_match_count source_df target_table target_pk conn col
       = Ok None)
/\ (forall db t,
      find_table db target_table = Some t ->
      needs_quoting in_from target_table = false ->
      reads_column t target_pk = true ->
      forallb plain_number (name_sample source_df col) = true ->
      forallb (fun row => integer_or_null (cell (column_names t) row target_pk))
              (t_rows t) = true ->
      integer_check_query (SqliteFile db) target_table target_pk
                          (name_sample source_df col)
      = Ok (count_key_rows t target_pk (name_sample source_df col))
      /\ (name_rule_body integer_check_query source_df target_table target_pk
                         (SqliteFile db) col
          = Ok (Some col)
          <-> Pattern.name_matches col target_table target_pk = true
              /\ name_sample source_df col <> []
              /\ 3 * length (name_sample source_df col)
                 < 10 * count_key_rows t target_pk (name_sample source_df col))
      /\ (has_duplicate (key_values t target_pk) = false ->
          count_key_rows t target_pk (name_sample source_df col)
          = found_in_key_domain t target_pk (name_sample source_df col)
          /\ (name_rule_body integer_check_query source_df target_table target_pk
                             (SqliteFile db) col
              = Ok (Some col)
              <-> Pattern.name_matches col target_table target_pk = true
                  /\ name_sample source_df col <> []
                  /\ 3 * length (name_sample source_df col)
                     < 10 * found_in_key_domain t target_pk
                              (name_sample source_df col))))
/\ (forall before after,
      columns source_df = before ++ col :: after ->
      (forall c, In c before ->
                 name_rule_body read_match_count source_df target_table target_pk conn c
                 = Ok None) ->
      name_rule_body read_match_count source_df target_table target_pk conn col
      = Ok (Some col) ->
      _detect_fk_to_target read_match_count source_df target_table target_pk conn
      = Ok (Some col)).
Proof.
split; [|split; [|split]].
- apply name_rule_body_accepts.
- apply name_rule_body_cases.
- intros db t Ht Hq Hpk Hs Hk.
  pose proof (integer_check_query_plain db target_table target_pk t
                (name_sample source_df col) Ht Hq Hpk Hs Hk) as Hrun.
  assert (Hacc : name_rule_body integer_check_query source_df target_table target_pk
                                 (SqliteFile db) col
                  = Ok (Some col)
                  <-> Pattern.name_matches col target_table target_pk = true
                      /\ name_sample source_df col <> []
                      /\ 3 * length (name_sample source_df col)
                         < 10 * count_key_rows t target_pk (name_sample source_df col)).
  { rewrite name_rule_body_accepts, Hrun. split.
    - intros [Hm [Hne [n [Hn Hlt]]]]. inversion Hn; subst. tauto.
    - intros [Hm [Hne Hlt]]. split; [exact Hm|]. split; [exact Hne|].
      eexists. split; [reflexivity|exact Hlt]. }
  split; [exact Hrun|]. split; [exact Hacc|].
  intros Hd.
  pose proof (count_key_rows_found t target_pk (name_sample source_df col) Hd
                (name_sample_distinct source_df col)) as Hfound.
  split; [exact Hfound|]. now rewrite <- Hfound.
- intros before after. apply detect_first_name_accepted.
Qed.

(** [emp.dept_id] against [dept]: one of the two sampled values is a key. *)
Lemma name_rule_threshold_witness :
name_rule_body (integer_check_query (sql := sqlite)) (frame_of emp) "dept" "dept_id"
               (SqliteFile staff_db) "dept_id"
= Ok (Some "dept_id")
/\ count_key_rows dept "dept_id" (name_sample (frame_of emp) "dept_id")
   = found_in_key_domain dept "dept_id" (name_sample (frame_of emp) "dept_id")
/\ _detect_fk_to_target (integer_check_query (sql := sqlite)) (frame_of emp)
                        "dept" "dept_id" (SqliteFile staff_db)
   = Ok (Some "dept_id").
Proof.
destruct (name_rule_threshold (sql := sqlite) (integer_check_query (sql := sqlite))
            (frame_of emp) "dept" "dept_id" (SqliteFile staff_db) "dept_id")
  as [_ [_ [Hsql Hfirst]]].
assert (H1 : find_table staff_db "dept" = Some dept) by reflexivity.
assert (H2 : needs_quoting (platform := sqlite) in_from "dept" = false) by reflexivity.
assert (H3 : reads_column (sql := sqlite) dept "dept_id" = true) by reflexivity.
assert (H4 : forallb plain_number (name_sample (frame_of emp) "dept_id") = true)
  by reflexivity.
assert (H5 : forallb (fun row => integer_or_null (cell (column_names dept) row "dept_id"))
                     (t_rows dept) = true) by reflexivity.
destruct (Hsql staff_db dept H1 H2 H3 H4 H5) as [_ [Hacc Hfound]].
assert (Hyes : name_rule_body (integer_check_query (sql := sqlite)) (frame_of emp)
                 "dept" "dept_id" (SqliteFile staff_db) "dept_id"
               = Ok (Some "dept_id")).
{ apply Hacc. split; [reflexivity|]. split; [vm_compute; discriminate|].
  vm_compute. lia. }
split; [exact Hyes|]. split.
- apply Hfound. reflexivity.
- apply (Hfirst ["id"] []); [reflexivity| |exact Hyes].
  intros c [<-|[]]. reflexivity.
Defined.

(** C4, as stated, fails twice.  [orders.customer_id] against
  [customers]: one sampled value in ten is in the key domain, and the
  column is accepted, because four rows carry that key.
  [readings.t_id] against [t]: exactly three sampled values in ten are
  keys, the keys are distinct, and an edge kind is created all the
  same, by the fallback rule. *)
Lemma name_rule_threshold_counterexample :
(Pattern.name_matches "customer_id" "customers" "customer_id" = true
 /\ found_in_key_domain customers "customer_id"
      (name_sample (frame_of orders) "customer_id") = 1
 /\ length (name_sample (frame_of orders) "customer_id") = 10
 /\ claimed_name_test customers "customer_id" (frame_of orders) "customer_id" = false
 /\ name_rule_body (integer_check_query (sql := sqlite)) (frame_of orders)
                   "customers" "customer_id" shop "customer_id"
    = Ok (Some "customer_id"))
/\ (Pattern.name_matches "t_id" "t" "key" = true
    /\ found_in_key_domain t "key" (name_sample (frame_of readings) "t_id") = 3
    /\ length (name_sample (frame_of readings) "t_id") = 10
    /\ claimed_name_test t "key" (frame_of readings) "t_id" = false
    /\ _detect_fk_to_target (integer_check_query (sql := sqlite)) (frame_of readings)
                            "t" "key" sensors
       = Ok (Some "t_id")).
Proof. vm_compute. repeat split; reflexivity. Qed.

(** C5 (amended). When the name-pattern rule accepted no column,
  detection is the fallback loop.  The fallback rule accepts a column
  exactly when its distinct values are fewer than 10% of the rows and
  more than one, and the verification query, run on up to FIVE of its
  distinct non-null values, returns a count above 0; a query that
  fails leaves the column unaccepted.  Where [T] and its key are read
  as themselves, the sampled values are numbers and the keys integers,
  that count is above 0 exactly when a sampled value is in [T]'s key
  domain.  The first column the rule accepts is what detection
  returns. *)
Theorem fallback_rule_threshold {sql : platform}
  (read_match_count : connection -> string -> string -> list value -> Exc nat)
  (source_df : DataFrame) (target_table target_pk : string) (conn : connection)
  (col : string) :
(first_returned (name_rule_body read_match_count source_df target_table target_pk conn)
                (columns source_df) = Ok None ->
 _detect_fk_to_target read_match_count source_df target_table target_pk conn
 = first_returned (fallback_rule_body read_match_count source_df target_table target_pk
                                      conn)
                  (columns source_df))
/\ (fallback_rule_body read_match_count source_df target_table target_pk conn col
    = Ok (Some col)
    <-> 10 * nunique source_df col < length (rows source_df)
        /\ 1 < nunique source_df col
        /\ exists match_count,
             read_match_count conn target_table target_pk (fallback_sample source_df col)
             = Ok match_count
             /\ 0 < match_count)
/\ (fallback_rule_body read_match_count source_df target_table target_pk conn col
    = Ok (Some col)
    \/ fallback_rule_body read_match_count source_df target_table target_pk conn col
       = Ok None)
/\ (forall db t,
      find_table db target_table = Some t ->
      needs_quoting in_from target_table = false ->
      reads_column t target_pk = true ->
      forallb plain_number (fallback_sample source_df col) = true ->
      forallb (fun row => integer_or_null (cell (column_names t) row target_pk))
              (t_rows t) = true ->
      integer_check_query (SqliteFile db) target_table target_pk
                          (fallback_sample source_df col)
      = Ok (count_key_rows t target_pk (fallback_sample source_df col))
      /\ (fallback_rule_body integer_check_query source_df target_table target_pk
                             (SqliteFile db) col
          = Ok (Some col)
          <-> 10 * nunique source_df col < length (rows source_df)
              /\ 1 < nunique source_df col
              /\ 0 < found_in_key_domain t target_pk (fallback_sample source_df col)))
/\ (forall before after,
      first_returned (name_rule_body read_match_count source_df target_table target_pk conn)
                     (columns source_df) = Ok None ->
      columns source_df = before ++ col :: after ->
      (forall c, In c before ->
                 fallback_rule_body read_match_count source_df target_table target_pk
                                    conn c = Ok None) ->
      fallback_rule_body read_match_count source_df target_table target_pk conn col
      = Ok (Some col) ->
      _detect_fk_to_target read_match_count source_df target_table target_pk conn
      = Ok (Some col)).
Proof.
split; [|split; [|split; [|split]]].
- apply detect_is_fallback.
- apply fallback_rule_body_accepts.
- apply fallback_rule_body_cases.
- intros db t Ht Hq Hpk Hs Hk.
  pose proof (integer_check_query_plain db target_table target_pk t
                (fallback_sample source_df col) Ht Hq Hpk Hs Hk) as Hrun.
  split; [exact Hrun|].
  rewrite fallback_rule_body_accepts, Hrun, <- count_key_rows_positive. split.
  + intros [H1 [H2 [n [Hn Hlt]]]]. inversion Hn; subst. tauto.
  + intros [H1 [H2 Hlt]]. split; [exact H1|]. split; [exact H2|].
    eexists. split; [reflexivity|exact Hlt].
- intros before after. apply detect_first_fallback_accepted.
Qed.

(** [events.ref] against [places]: two distinct values in thirty rows,
  one of them the key of a place. *)
Lemma fallback_rule_threshold_witness :
_detect_fk_to_target (integer_check_query (sql := sqlite)) (frame_of events)
                     "places" "code" agenda
= Ok (Some "ref").
Proof.
destruct (fallback_rule_threshold (sql := sqlite) (integer_check_query (sql := sqlite))
            (frame_of events) "places" "code" agenda "ref")
  as [_ [_ [_ [Hsql Hfirst]]]].
assert (H1 : find_table [events; places] "places" = Some places) by reflexivity.
assert (H2 : needs_quoting (platform := sqlite) in_from "places" = false) by reflexivity.
assert (H3 : reads_column (sql := sqlite) places "code" = true) by reflexivity.
assert (H4 : forallb plain_number (fallback_sample (frame_of events) "ref") = true)
  by reflexivity.
assert (H5 : forallb (fun row => integer_or_null (cell (column_names places) row "code"))
                     (t_rows places) = true) by reflexivity.
destruct (Hsql [events; places] places H1 H2 H3 H4 H5) as [_ Hacc].
apply (Hfirst ["eid"] []).
- reflexivity.
- reflexivity.
- intros c [<-|[]]. reflexivity.
- apply Hacc. vm_compute. lia.
Defined.

(** C5, as stated, fails on [visits.ref] against [places]: no name
  matches, the six distinct values are fewer than 10% of the 66 rows,
  and the sixth is a key of [places], so a sample of up to 10 values
  finds a match; the code samples five and accepts nothing. *)
Lemma fallback_rule_threshold_counterexample :
first_returned (name_rule_body (integer_check_query (sql := sqlite)) (frame_of visits)
                               "places" "code" trips)
               (columns (frame_of visits)) = Ok None
/\ claimed_fallback_test places "code" (frame_of visits) "ref" = true
/\ fallback_rule_body (integer_check_query (sql := sqlite)) (frame_of visits)
                      "places" "code" trips "ref"
   = Ok None
/\ _detect_fk_to_target (integer_check_query (sql := sqlite)) (frame_of visits)
                        "places" "code" trips
   = Ok None.
Proof. vm_compute. repeat split; reflexivity. Qed.

End ThresholdClaims.

(** ** A source with a single table *)

Module SingleTable.
Import Sqlite Graph Ingestor Converter Spec Sanitize Scenario.
Import TraceFacts ConverterFacts IngestorFacts.

Lemma single_table_found (t s : Table) :
find_table [t] (t_name s) = Some s -> s = t.
Proof.
unfold find_table. simpl. destruct (String.eqb (t_name t) (t_name s)); [|discriminate].
intros H. now inversion H.
Qed.

(** With one table there is no ordered pair of distinct tables. *)
Lemma single_table_no_reference (t : Table) (q : cypher) :
reference_stmt [t] q -> False.
Proof.
intros H. destruct H as [s t' spk tpk col sid tid Hs Ht Hne _].
apply single_table_found in Hs. apply single_table_found in Ht. subst.
now apply Hne.
Qed.

Lemma categorical_column_department (df : DataFrame) :
has_column df "department" = true -> categorical_column df = Some "department".
Proof. intros H. unfold categorical_column. simpl. now rewrite H. Qed.

Lemma length_filter_le {A : Type} (p : A -> bool) (l : list A) :
length (filter p l) <= length l.
Proof. induction l as [|a l IH]; simpl; [lia|]. destruct (p a); simpl; lia. Qed.

Lemma length_firstn_le {A : Type} (n : nat) (l : list A) : length (firstn n l) <= n.
Proof.
revert n. induction l as [|a l IH]; intros [|n]; simpl; try lia.
specialize (IH n). lia.
Qed.

(** Line 233: at most twenty values per table. *)
Lemma categorical_values_at_most_20 (df : DataFrame) (col : string) :
length (categorical_values df col) <= 20.
Proof.
unfold categorical_values.
pose proof (length_filter_le (fun cat_value => Py.truthy (Py.strip (str cat_value)))
                             (firstn 20 (distinct_values df col))).
pose proof (length_firstn_le 20 (distinct_values df col)). lia.
Qed.

(** What a statement of [build_graph] can be when the source has the one
  table [t], which has a [department] column. *)
Lemma single_table_statement (t : Table) (q : cypher) :
has_column (frame_of t) "department" = true ->
node_stmt [t] q \/ reference_stmt [t] q \/ category_stmt [t] q ->
rel_types_of q = []
\/ exists cat_value,
     In cat_value (categorical_values (frame_of t) "department")
     /\ q = categorical_statement (_safe_label (t_name t)) "department" cat_value.
Proof.
intros Hd [H|[H|H]].
- left. now destruct H.
- destruct (single_table_no_reference t q H).
- right. destruct H as [t' col v Ht Hc Hv].
  apply single_table_found in Ht. subst t'.
  rewrite (categorical_column_department _ Hd) in Hc. inversion Hc; subst col.
  now exists v.
Qed.

(** The employees as pandas reads them: [manager_id] holds a NULL, so
    its integers come as floats, which [str] renders with a decimal
    point; and a float holds an integer above 2^53 only to the nearest
    double. *)
Lemma manager_ids_are_read_as_floats :
  column_values (frame_of employees) "manager_id"
  = [VNaN; VFloat 1; VFloat 1; VFloat 2; VFloat 2; VFloat 3]
  /\ column_values (frame_of employees) "emp_id"
     = [VInt 1; VInt 2; VInt 3; VInt 4; VInt 5; VInt 6]
  /\ map str (distinct_values (frame_of employees) "manager_id") = ["1.0"; "2.0"; "3.0"]
  /\ Py.to_double (2 ^ 53 + 1) = (2 ^ 53)%Z
  /\ Py.str_of_float (10 ^ 16) = "1e+16".
Proof. vm_compute. repeat split; reflexivity. Qed.

End SingleTable.

(** ** Categorical detection *)

Module CategoricalFacts.
Import Sqlite Graph Ingestor Converter Spec Sanitize Scenario.
Import DataFacts SqliteFacts TraceFacts ConverterFacts SingleTable.


Lemma count_label_app (lbl : string) (g : graph) (n : node) :
  count_label lbl (with_nodes g (nodes g ++ [n])) <= count_label lbl g + 1.
Proof.
  unfold count_label. simpl. rewrite filter_app, length_app. simpl.
  destruct (String.eqb (label n) lbl); simpl; lia.
Qed.

Lemma merge_category_nodes_present (cat_name rel_name : string) (g : graph) (n : nat) :
  existsb (matches "Category" "name" (VText cat_name)) (nodes g) = true ->
  nodes (merge_category cat_name rel_name g n) = nodes g.
Proof. intros H. unfold merge_category. now rewrite H. Qed.

Lemma merge_category_nodes_absent (cat_name rel_name : string) (g : graph) (n : nat) :
  existsb (matches "Category" "name" (VText cat_name)) (nodes g) = false ->
  nodes (merge_category cat_name rel_name g n)
  = nodes g ++ [mk_node "Category" [("name", VText cat_name)]].
Proof. intros H. unfold merge_category. now rewrite H. Qed.

Lemma fold_merge_category_present (cat_name rel_name : string) (ns : list nat) (g : graph) :
  existsb (matches "Category" "name" (VText cat_name)) (nodes g) = true ->
  nodes (fold_left (merge_category cat_name rel_name) ns g) = nodes g.
Proof.
  revert g. induction ns as [|n ns IH]; simpl; intros g H; [reflexivity|].
  rewrite IH; rewrite (merge_category_nodes_present _ _ _ _ H); [reflexivity|exact H].
Qed.

(** One statement creates at most one Category node. *)
Lemma fold_merge_category_count (lbl cat_name rel_name : string) (ns : list nat) (g : graph) :
  count_label lbl (fold_left (merge_category cat_name rel_name) ns g)
  <= count_label lbl g + 1.
Proof.
  destruct ns as [|n ns]; simpl; [lia|].
  destruct (existsb (matches "Category" "name" (VText cat_name)) (nodes g)) eqn:E.
  - unfold count_label.
    rewrite fold_merge_category_present;
      rewrite (merge_category_nodes_present _ _ _ _ E); [lia|exact E].
  - unfold count_label. rewrite fold_merge_category_present.
    + rewrite (merge_category_nodes_absent _ _ _ _ E).
      exact (count_label_app lbl g _).
    + rewrite (merge_category_nodes_absent _ _ _ _ E).
      rewrite existsb_app. apply orb_true_iff. right. simpl.
      unfold matches. simpl. now rewrite String.eqb_refl.
Qed.

(** *** Every node that carries the value gets its edge *)

Lemma positions_from_app {A : Type} (p : A -> bool) (k : nat) (l l' : list A) :
  positions_from p k (l ++ l')
  = positions_from p k l ++ positions_from p (k + length l) l'.
Proof.
  revert k. induction l as [|a l IH]; intros k; simpl.
  - now rewrite Nat.add_0_r.
  - rewrite IH. replace (S k + length l) with (k + S (length l)) by lia.
    now destruct (p a).
Qed.

Lemma positions_from_exists {A : Type} (p : A -> bool) (k : nat) (l : list A) :
  existsb p l = true -> exists c, In c (positions_from p k l).
Proof.
  revert k. induction l as [|a l IH]; intros k; simpl; [discriminate|].
  destruct (p a); simpl.
  - intros _. exists k. now left.
  - intros H. destruct (IH (S k) H) as [c Hc]. now exists c.
Qed.

Lemma edge_eqb_eq (e e' : edge) : edge_eqb e e' = true -> e = e'.
Proof.
  destruct e as [[s r] t0], e' as [[s' r'] t']. simpl.
  rewrite !andb_true_iff. intros [[H1 H2] H3].
  apply Nat.eqb_eq in H1. apply String.eqb_eq in H2. apply Nat.eqb_eq in H3.
  now subst.
Qed.

Lemma merge_edge_keeps (es : list edge) (e0 e : edge) :
  In e es -> In e (merge_edge es e0).
Proof.
  unfold merge_edge. destruct (existsb (edge_eqb e0) es); [auto|].
  intros H. apply in_or_app. now left.
Qed.

Lemma merge_edge_adds (es : list edge) (e0 : edge) : In e0 (merge_edge es e0).
Proof.
  unfold merge_edge. destruct (existsb (edge_eqb e0) es) eqn:E.
  - apply existsb_exists in E. destruct E as [x [Hx Hq]].
    apply edge_eqb_eq in Hq. now subst.
  - apply in_or_app. right. now left.
Qed.

Lemma fold_merge_edge_keeps (s : nat) (rel : string) (ts : list nat) (es : list edge)
    (e : edge) :
  In e es -> In e (fold_left (fun es' t0 => merge_edge es' (s, rel, t0)) ts es).
Proof.
  revert es. induction ts as [|t0 ts IH]; simpl; intros es H; [exact H|].
  apply IH. now apply merge_edge_keeps.
Qed.

Lemma fold_merge_edge_adds (s : nat) (rel : string) (ts : list nat) (es : list edge)
    (c : nat) :
  In c ts -> In (s, rel, c) (fold_left (fun es' t0 => merge_edge es' (s, rel, t0)) ts es).
Proof.
  revert es. induction ts as [|t0 ts IH]; simpl; intros es H; [destruct H|].
  destruct H as [->|H]; [|now apply IH].
  apply fold_merge_edge_keeps, merge_edge_adds.
Qed.

Lemma merge_category_keeps_edges (cat_name rel_name : string) (g : graph) (n : nat)
    (e : edge) :
  In e (edges g) -> In e (edges (merge_category cat_name rel_name g n)).
Proof.
  intros H. unfold merge_category, merge_rel. simpl.
  apply fold_merge_edge_keeps. now destruct (existsb _ (nodes g)).
Qed.

Lemma merge_category_keeps_matches (lbl key : string) (v : value)
    (cat_name rel_name : string) (g : graph) (n c : nat) :
  In c (matching lbl key v g) ->
  In c (matching lbl key v (merge_category cat_name rel_name g n)).
Proof.
  unfold matching. intros H.
  destruct (existsb (matches "Category" "name" (VText cat_name)) (nodes g)) eqn:E.
  - now rewrite (merge_category_nodes_present _ _ _ _ E).
  - rewrite (merge_category_nodes_absent _ _ _ _ E), positions_from_app.
    apply in_or_app. now left.
Qed.

Lemma merge_category_links (cat_name rel_name : string) (g : graph) (n : nat) :
  exists c,
    In c (matching "Category" "name" (VText cat_name)
                   (merge_category cat_name rel_name g n))
    /\ In (n, rel_name, c) (edges (merge_category cat_name rel_name g n)).
Proof.
  unfold merge_category.
  set (g1 := if existsb (matches "Category" "name" (VText cat_name)) (nodes g)
             then g
             else with_nodes g (nodes g ++ [mk_node "Category" [("name", VText cat_name)]])).
  assert (Hex : existsb (matches "Category" "name" (VText cat_name)) (nodes g1) = true).
  { unfold g1.
    destruct (existsb (matches "Category" "name" (VText cat_name)) (nodes g)) eqn:E;
      [exact E|].
    simpl. rewrite existsb_app. apply orb_true_iff. right. simpl.
    unfold matches. simpl. now rewrite String.eqb_refl. }
  destruct (positions_from_exists _ 0 _ Hex) as [c Hc].
  exists c. split; [exact Hc|].
  unfold merge_rel. simpl. now apply fold_merge_edge_adds.
Qed.

Lemma fold_merge_category_keeps (lbl key : string) (v : value)
    (cat_name rel_name : string) (ns : list nat) (g : graph) (e : edge) (c : nat) :
  In c (matching lbl key v g) -> In e (edges g) ->
  In c (matching lbl key v (fold_left (merge_category cat_name rel_name) ns g))
  /\ In e (edges (fold_left (merge_category cat_name rel_name) ns g)).
Proof.
  revert g. induction ns as [|n ns IH]; simpl; intros g Hc He; [now split|].
  apply IH; [now apply merge_category_keeps_matches|now apply merge_category_keeps_edges].
Qed.

Lemma fold_merge_category_links (cat_name rel_name : string) (ns : list nat) (g : graph)
    (n : nat) :
  In n ns ->
  exists c,
    In c (matching "Category" "name" (VText cat_name)
                   (fold_left (merge_category cat_name rel_name) ns g))
    /\ In (n, rel_name, c) (edges (fold_left (merge_category cat_name rel_name) ns g)).
Proof.
  revert g. induction ns as [|n0 ns IH]; simpl; intros g Hin; [destruct Hin|].
  destruct Hin as [->|Hin]; [|now apply IH].
  destruct (merge_category_links cat_name rel_name g n) as [c [Hc He]].
  exists c. now apply fold_merge_category_keeps.
Qed.

(** A categorical statement the store accepts links every node that
    carries the value as text to a Category node of that name. *)
Lemma category_statement_links_every_carrier
    (lbl key cat_value cat_name rel_name : string) (g g' : graph) (r : result) (n : nat) :
  Graph.run (MergeCategoryRel lbl key cat_value cat_name rel_name) g = Ok (g', r) ->
  In n (matching lbl key (VText cat_value) g) ->
  exists c,
    In c (matching "Category" "name" (VText cat_name) g')
    /\ In (n, rel_name, c) (edges g').
Proof.
  simpl. intros H Hn. apply checked_inv in H. subst g'.
  now apply fold_merge_category_links.
Qed.

Lemma category_statement_links_witness :
  exists c,
    In c (matching "Category" "name" (VText "Paris") paris_linked)
    /\ In (0, "HAS_CITY", c) (edges paris_linked).
Proof.
  assert (H : Graph.run paris_statement paris_store = Ok (paris_linked, RNone))
    by reflexivity.
  apply (category_statement_links_every_carrier "shops" "city" "Paris" "Paris" "HAS_CITY"
           paris_store paris_linked RNone 0 H).
  now left.
Defined.

Section Categorical.

Variable store_fault : nat -> bool.

(** What sending one categorical statement does to the world. *)
Lemma session_run_category (lbl key cat_value cat_name rel_name : string) (w : world) :
  log (fst (session_run store_fault
              (MergeCategoryRel lbl key cat_value cat_name rel_name) w))
  = log w ++ [MergeCategoryRel lbl key cat_value cat_name rel_name]
  /\ count_label "Category"
       (store (fst (session_run store_fault
                      (MergeCategoryRel lbl key cat_value cat_name rel_name) w)))
     <= count_label "Category" (store w) + 1.
Proof.
  unfold session_run.
  destruct (store_fault (length (log w))); simpl; [split; [reflexivity|lia]|].
  unfold checked.
  destruct (consistent _); simpl; (split; [reflexivity|]); [|lia].
  apply fold_merge_category_count.
Qed.

(** One turn of the loop of lines 233-240. *)
Lemma categorical_body_step (safe_label col : string) (v : value) (w : world) :
  (Py.truthy (Py.strip (str v)) = false
   /\ categorical_body store_fault safe_label col tt v w = (w, Ok tt))
  \/ (Py.truthy (Py.strip (str v)) = true
      /\ log (fst (categorical_body store_fault safe_label col tt v w))
         = log w ++ [categorical_statement safe_label col v]
      /\ count_label "Category"
           (store (fst (categorical_body store_fault safe_label col tt v w)))
         <= count_label "Category" (store w) + 1).
Proof.
  unfold categorical_body. destruct (Py.truthy (Py.strip (str v))); [right|now left].
  split; [reflexivity|]. unfold bind.
  destruct (session_run_category safe_label (_safe_property col) (str v) (str v)
                                 (categorical_rel_name col) w) as [Hl Hc].
  fold (categorical_statement safe_label col v) in Hl, Hc.
  destruct (session_run store_fault (categorical_statement safe_label col v) w)
    as [w1 [x|e]]; simpl in *; now split.
Qed.

(** Lines 233-240: the statements of the loop are, in order, those of
    the non-blank values; all of them when the loop returns. *)
Lemma categorical_loop_trace (safe_label col : string) (vals : list value) :
  forall w,
    exists tr rest,
      log (fst (for_fold vals tt (categorical_body store_fault safe_label col) w))
      = log w ++ tr
      /\ map (categorical_statement safe_label col)
             (filter (fun v => Py.truthy (Py.strip (str v))) vals) = tr ++ rest
      /\ (forall u,
            snd (for_fold vals tt (categorical_body store_fault safe_label col) w) = Ok u ->
            rest = [])
      /\ count_label "Category"
           (store (fst (for_fold vals tt (categorical_body store_fault safe_label col) w)))
         <= count_label "Category" (store w) + length tr.
Proof.
  induction vals as [|v vals IH]; intros w.
  - exists [], []. simpl. rewrite app_nil_r. repeat split; auto; lia.
  - simpl. unfold bind.
    destruct (categorical_body_step safe_label col v w) as [[Ev Eb]|[Ev [Hl Hc]]];
      rewrite Ev.
    + rewrite Eb. apply IH.
    + destruct (categorical_body store_fault safe_label col tt v w) as [w1 [[]|e]];
        simpl in *.
      * destruct (IH w1) as [tr [rest [L [Hm [Hr Hn]]]]].
        exists (categorical_statement safe_label col v :: tr), rest.
        rewrite L, Hl, <- app_assoc. simpl. rewrite Hm.
        repeat split; auto. lia.
      * exists [categorical_statement safe_label col v],
               (map (categorical_statement safe_label col)
                    (filter (fun v0 => Py.truthy (Py.strip (str v0))) vals)).
        repeat split; auto; try discriminate; simpl; lia.
Qed.

End Categorical.

(** Lines 219-243 for a table [t] of the source: the statements sent
    and the Category nodes added. *)
Lemma categorical_for_table_trace {sql : platform}
    (store_fault : nat -> bool) (db_path : string) (db : database) (t : Table)
    (table_info : table_node) (w : world) :
  holds_db db_path db w ->
  find_table db (t_name t) = Some t ->
  exists tr,
    log (fst (categorical_for_table store_fault db_path (t_name t) table_info w))
    = log w ++ tr
    /\ match categorical_column (frame_of t) with
       | Some col =>
           exists rest,
             map (categorical_statement (tn_label table_info) col)
                 (categorical_values (frame_of t) col) = tr ++ rest
             /\ (forall u,
                   snd (categorical_for_table store_fault db_path (t_name t)
                                              table_info w) = Ok u ->
                   rest = [])
       | None => tr = []
       end
    /\ length tr <= 20
    /\ count_label "Category"
         (store (fst (categorical_for_table store_fault db_path (t_name t)
                                            table_info w)))
       <= count_label "Category" (store w) + length tr.
Proof.
  intros Hw Ht. unfold categorical_for_table, bind.
  rewrite (connect_existing db_path db w Hw).
  unfold lift. rewrite (select_all_listed db (t_name t) t Ht).
  destruct (needs_quoting in_from (t_name t)).
  { exists []. cbn [fst snd syntax_error]. rewrite app_nil_r.
    split; [reflexivity|]. split; [|split; [cbn; lia|cbn; lia]].
    destruct (categorical_column (frame_of t)) as [col|]; [|reflexivity].
    eexists. split; [reflexivity|]. intros u Hu. discriminate. }
  destruct (categorical_column (frame_of t)) as [col|] eqn:Hc.
  - destruct (categorical_loop_trace store_fault (tn_label table_info) col
                (firstn 20 (distinct_values (frame_of t) col)) w)
      as [tr [rest [L [Hm [Hr Hn]]]]].
    exists tr. split; [exact L|]. split; [|split].
    + exists rest. split; [exact Hm|exact Hr].
    + pose proof (categorical_values_at_most_20 (frame_of t) col) as H20.
      unfold categorical_values in H20.
      rewrite <- (length_map (categorical_statement (tn_label table_info) col)) in H20.
      rewrite Hm, length_app in H20. lia.
    + exact Hn.
  - exists []. simpl. rewrite app_nil_r. repeat split; auto; lia.
Qed.



(** In fifty named cities the bound is reached: twenty Category nodes. *)
Lemma fifty_named_cities_give_twenty_categories :
  nunique (frame_of shops_named) "city" = 50
  /\ is_ok (snd (shops_run shops_named)) = true
  /\ count_label "Category" (store (fst (shops_run shops_named))) = 20.
Proof. vm_compute. repeat split; reflexivity. Qed.


End CategoricalFacts.

(** ** The end-to-end example: a source with one table *)

Module SingleTableRun.
Import Sqlite Graph Ingestor Converter Spec Sanitize Scenario.
Import TraceFacts ConverterFacts IngestorFacts SingleTable CategoricalFacts.

Lemma single_table_self (t : Table) : find_table [t] (t_name t) = Some t.
Proof. unfold find_table. simpl. now rewrite String.eqb_refl. Qed.

(** What [ingest_all_tables] returns for a source with the one table [t]. *)
Lemma ingest_single_table {sql : platform} (db_path : string) (t : Table) (w : world) :
  holds_db db_path [t] w ->
  like_sqlite_ (t_name t) = false ->
  ingest_all_tables db_path w
  = (w, if needs_quoting in_pragma (t_name t) || needs_quoting in_from (t_name t)
        then syntax_error
        else Ok (mk_schema_info
                   [t_name t]
                   [(t_name t,
                     mk_schema (t_columns t) (detect_pk (t_columns t)) (length (t_rows t))
                               (to_dict_records
                                  (from_records (column_names t)
                                                (firstn 5 (t_rows t)))))]
                   (length (t_rows t) + 0))).
Proof.
  intros Hw Hl. rewrite (ingest_database db_path w [t] Hw).
  unfold Terms.user_tables. cbn [filter]. rewrite Hl. cbn [negb map foldE].
  rewrite (ingest_table_listed [t] [] (t_name t) t (single_table_self t)).
  now destruct (_ || _).
Qed.

Lemma no_reference_trace (t : Table) (tr : list cypher) :
  Forall (reference_stmt [t]) tr -> tr = [].
Proof.
  destruct tr as [|q tr]; [reflexivity|]. intros H. inversion H; subst.
  destruct (single_table_no_reference t q H2).
Qed.

Section Run.

Context {sql : platform}.
Variable read_match_count : connection -> string -> string -> list value -> Exc nat.
Variable store_fault : nat -> bool.
Variable db_path : string.
Variable t : Table.

(** A run that returns is, up to statements that name no relationship
    type, the categorical loop of the table. *)
Lemma single_table_run (w : world) (info : schema_info) :
  holds_db db_path [t] w ->
  like_sqlite_ (t_name t) = false ->
  snd (convert_all_tables read_match_count store_fault db_path w) = Ok info ->
  exists w3 table_info tr0,
    holds_db db_path [t] w3
    /\ log w3 = log w ++ tr0
    /\ Forall (fun q => rel_types_of q = []) tr0
    /\ tn_label table_info = _safe_label (t_name t)
    /\ fst (convert_all_tables read_match_count store_fault db_path w)
       = fst (categorical_for_table store_fault db_path (t_name t) table_info w3)
    /\ exists u,
         snd (categorical_for_table store_fault db_path (t_name t) table_info w3) = Ok u.
Proof.
  intros Hw Hl.
  remember (convert_all_tables read_match_count store_fault db_path w) as r eqn:Er.
  intros Hok. revert Er.
  unfold convert_all_tables, bind at 1.
  rewrite (ingest_single_table db_path t w Hw Hl).
  destruct (_ || _); [intros ->; discriminate|].
  generalize (to_dict_records (from_records (column_names t) (firstn 5 (t_rows t)))).
  intros sample. unfold bind at 1.
  destruct (emits_safe_cleanup store_fault db_path [t] w Hw) as [Hw1 [[trc [Lc [Fc _]]] _]].
  destruct (_safe_cleanup store_fault w) as [w1 [u1|x]]; simpl in Hw1, Lc;
    [|intros ->; discriminate].
  unfold build_graph, bind at 1. unfold create_all_nodes. simpl. unfold bind at 1.
  destruct (detect_pk (t_columns t)) as [pk|]; [|intros ->; discriminate].
  unfold bind at 1.
  destruct (emits_create_base_nodes store_fault db_path [t] t pk (single_table_self t)
                                    w1 Hw1) as [Hw2 [[trn [Ln [Fn _]]] _]].
  destruct (_create_base_nodes store_fault db_path (t_name t) (_safe_label (t_name t)) pk w1)
    as [w2 [n|x]]; simpl in Hw2, Ln; [|intros ->; discriminate].
  simpl. unfold bind at 1.
  set (table_info := mk_table_node (_safe_label (t_name t)) pk n).
  set (schemas := [(t_name t, mk_schema _ _ _ _)]).
  assert (Hok2 : forall entry, In entry [(t_name t, table_info)] ->
                               table_node_ok [t] entry).
  { intros entry [<-|[]]. exists t. now repeat split; try apply single_table_self. }
  destruct (emits_create_all_fk_relationships read_match_count store_fault db_path [t]
              [(t_name t, table_info)] schemas Hok2 w2 Hw2)
    as [Hw3 [[trf [Lf [Ff _]]] _]].
  destruct (_create_all_fk_relationships read_match_count store_fault db_path
              [(t_name t, table_info)] schemas w2) as [w3 [k|x]];
    simpl in Hw3, Lf; [|intros ->; discriminate].
  rewrite (no_reference_trace t trf Ff), app_nil_r in Lf.
  unfold bind at 1. unfold _create_categorical_relationships. simpl. unfold bind at 1.
  intros Er. exists w3, table_info, (trc ++ trn). split; [exact Hw3|].
  split; [now rewrite Lf, Ln, Lc, app_assoc|]. split; [|split; [reflexivity|]].
  - apply Forall_app. split.
    + revert Fc. apply Forall_impl. intros q Hq. now destruct Hq.
    + revert Fn. apply Forall_impl. intros q Hq. now destruct Hq.
  - destruct (categorical_for_table store_fault db_path (t_name t) table_info w3)
      as [w4 [u|x]]; simpl in Er; subst r; simpl in *; [|discriminate].
    split; [reflexivity|now exists u].
Qed.

End Run.

(** C1 (amended). For a source whose only table has a [department]
  column, as [employees(emp_id, manager_id, department)] has:
  [convert_all_tables] sends no reference statement at all, since a
  table is never paired with itself: every statement that names a
  relationship type is the [HAS_DEPARTMENT] statement of one of the
  non-blank values among the first 20 distinct departments; when the
  run returns, every edge of the store is a [HAS_DEPARTMENT] edge;
  there are at most 20 such values; and when the run returns and the
  table is not one of SQLite's own ([sqlite_...]), the statements sent
  are some statements that name no relationship type followed by
  exactly those [HAS_DEPARTMENT] statements, one per value, in order. *)
Theorem single_table_source_has_no_reference_edge {sql : platform}
  (read_match_count : connection -> string -> string -> list value -> Exc nat)
  (store_fault : nat -> bool) (db_path : string) (t : Table) (w : world) :
holds_db db_path [t] w ->
has_column (frame_of t) "department" = true ->
(exists tr,
    log (fst (convert_all_tables read_match_count store_fault db_path w)) = log w ++ tr
    /\ Forall (fun q =>
                 rel_types_of q = []
                 \/ exists cat_value,
                      In cat_value (categorical_values (frame_of t) "department")
                      /\ q = categorical_statement (_safe_label (t_name t))
                                                   "department" cat_value)
              tr)
/\ (forall info,
      snd (convert_all_tables read_match_count store_fault db_path w) = Ok info ->
      forall e,
        In e (edges (store (fst (convert_all_tables read_match_count store_fault
                                                    db_path w)))) ->
        rel_type_of_edge e = "HAS_DEPARTMENT")
/\ length (categorical_values (frame_of t) "department") <= 20
/\ (like_sqlite_ (t_name t) = false ->
    forall info,
      snd (convert_all_tables read_match_count store_fault db_path w) = Ok info ->
      exists tr0,
        log (fst (convert_all_tables read_match_count store_fault db_path w))
        = log w ++ tr0
                ++ map (categorical_statement (_safe_label (t_name t)) "department")
                       (categorical_values (frame_of t) "department")
        /\ Forall (fun q => rel_types_of q = []) tr0).
Proof.
intros Hw Hd. split; [|split; [|split]].
- destruct (emits_convert_all_tables read_match_count store_fault db_path [t] w Hw)
    as [_ [[tr [L [F _]]] _]].
  exists tr. split; [exact L|]. revert F. apply Forall_impl.
  intros q [Hq|Hq].
  + left. now destruct Hq.
  + now apply single_table_statement.
- intros info Hok.
  destruct (convert_returns_inv read_match_count store_fault db_path [t] w info Hw Hok)
    as [i [w1 [Hinfo [Hw1 [Hnil ->]]]]].
  destruct (emits_build_graph read_match_count store_fault db_path [t] i Hinfo w1 Hw1)
    as [_ [[tr [_ [F He]]] _]].
  intros e Hin. destruct (He e Hin) as [H|[q [Hq Hr]]].
  + rewrite Hnil in H. destruct H.
  + rewrite Forall_forall in F.
    destruct (single_table_statement t q Hd (F q Hq)) as [Hn|[v [_ ->]]].
    * rewrite Hn in Hr. destruct Hr.
    * simpl in Hr. destruct Hr as [<-|[]]. reflexivity.
- apply categorical_values_at_most_20.
- intros Hl info Hok.
  destruct (single_table_run read_match_count store_fault db_path t w info Hw Hl Hok)
    as [w3 [table_info [tr0 [Hw3 [L3 [F0 [Hlab [Efst [u Hu]]]]]]]]].
  destruct (categorical_for_table_trace store_fault db_path [t] t table_info w3 Hw3
              (single_table_self t)) as [tr [L [Hm _]]].
  rewrite (categorical_column_department _ Hd) in Hm.
  destruct Hm as [rest [Hm Hr]]. rewrite (Hr u Hu), app_nil_r, Hlab in Hm.
  exists tr0. split; [|exact F0].
  now rewrite Efst, L, L3, <- Hm, <- app_assoc.
Qed.

(** The employees of the example: no reference edge, six
  [HAS_DEPARTMENT] edges. *)
Lemma single_table_source_witness :
  Forall (fun e => rel_type_of_edge e = "HAS_DEPARTMENT")
         (edges (store (fst employees_run))).
Proof.
  assert (H1 : holds_db "employees.db" [employees] employees_world) by reflexivity.
  assert (H2 : has_column (frame_of employees) "department" = true) by reflexivity.
  destruct (single_table_source_has_no_reference_edge (sql := sqlite)
              (integer_check_query (sql := sqlite)) no_fault
              "employees.db" employees employees_world H1 H2) as [_ [H _]].
  assert (E : exists info, snd employees_run = Ok info)
    by (vm_compute; eexists; reflexivity).
  destruct E as [info E]. apply Forall_forall. exact (H info E).
Defined.

(** C1, as stated, fails on the employees of the example.  Every
  [manager_id] is an [emp_id]; the run returns; it sends no reference
  statement, the store holds no [REFERENCES_MANAGER_ID] edge, only the
  six [HAS_DEPARTMENT] edges to the five Category nodes. *)
Lemma employees_self_reference_counterexample :
forallb (fun v => mem v (key_values employees "emp_id"))
        (distinct_values (frame_of employees) "manager_id") = true
/\ is_ok (snd employees_run) = true
/\ existsb is_reference_statement (log (fst employees_run)) = false
/\ existsb (fun e => String.eqb (rel_type_of_edge e) "REFERENCES_MANAGER_ID")
           (edges (store (fst employees_run))) = false
/\ map rel_type_of_edge (edges (store (fst employees_run)))
   = ["HAS_DEPARTMENT"; "HAS_DEPARTMENT"; "HAS_DEPARTMENT";
      "HAS_DEPARTMENT"; "HAS_DEPARTMENT"; "HAS_DEPARTMENT"]
/\ count_label "Category" (store (fst employees_run)) = 5.
Proof. vm_compute. repeat split; reflexivity. Qed.

End SingleTableRun.

(** ** Reference edges whose target is missing *)

Module ReferenceEdges.
Import Sqlite Graph Ingestor Converter Spec Sanitize Scenario Terms.
Import TraceFacts SqliteFacts ReferenceLoop.

Lemma merge_rel_no_target (g : graph) (sources : list nat) (rel_type : string) :
  edges (merge_rel g sources [] rel_type) = edges g.
Proof.
  unfold merge_rel. simpl. induction sources as [|s sources IH]; simpl; [reflexivity|].
  exact IH.
Qed.

Section MissingTarget.

Variable store_fault : nat -> bool.

(** A row whose target node is missing: the statement matches nothing,
    the store accepts it, no edge is added, and the row is counted. *)
Lemma missing_target_row_is_counted
    (source_label source_key target_label target_key rel_type : string)
    (source_id target_id : value) (created_count : nat) (w : world) :
  store_fault (length (log w)) = false ->
  consistent (store w) = true ->
  matching target_label target_key target_id (store w) = [] ->
  snd (try_except
         (session_run store_fault
            (MergeRel source_label source_key source_id
                      target_label target_key target_id rel_type) ;;;
          ret (created_count + 1))
         (fun _ => ret created_count) w)
  = Ok (created_count + 1)
  /\ edges (store (fst (try_except
                          (session_run store_fault
                             (MergeRel source_label source_key source_id
                                       target_label target_key target_id rel_type) ;;;
                           ret (created_count + 1))
                          (fun _ => ret created_count) w)))
     = edges (store w).
Proof.
  intros Hf Hc Hm. unfold try_except, bind, session_run. rewrite Hf. simpl.
  rewrite Hm. unfold checked.
  assert (Hk : consistent (merge_rel (store w)
                             (matching source_label source_key source_id (store w))
                             [] rel_type) = true).
  { unfold consistent, constrained_values in *. simpl. exact Hc. }
  rewrite Hk. simpl. split; [reflexivity|].
  exact (merge_rel_no_target (store w) _ rel_type).
Qed.

End MissingTarget.

(** X2. Where line 191 reads the table and the column it names, the
    key is a column of the table (as [row[source_pk]] requires) and
    the store is consistent with its constraints, [_create_fk_rels]
    sends one statement per referring row and returns the number of
    those the store did not refuse: a row whose statement is refused
    is skipped and not counted, and every other row is counted. *)
Theorem refused_row_is_not_counted {sql : platform}
    (store_fault : nat -> bool) (db : database) (s : Table)
    (source_label source_pk target_label target_pk fk_col : string) (w : world) :
  find_table db (t_name s) = Some s ->
  needs_quoting in_from (t_name s) = false ->
  In source_pk (column_names s) ->
  In fk_col (column_names s) ->
  needs_quoting in_where fk_col = false ->
  consistent (store w) = true ->
  exists created_count w',
    _create_fk_rels store_fault (SqliteFile db) source_label source_pk
                    target_label target_pk (t_name s) fk_col w
    = (w', Ok created_count)
    /\ log w' = log w ++ fk_statements source_label source_pk target_label target_pk
                                       s fk_col
    /\ created_count
       = length (filter (fun i => negb (store_fault (length (log w) + i)))
                        (seq 0 (length (fk_statements source_label source_pk
                                                      target_label target_pk s fk_col)))).
Proof.
  intros Hs Hq _ Hin Hw Hc.
  destruct (create_fk_rels_plain store_fault db s source_label source_pk target_label
              target_pk fk_col w Hs Hq Hin Hw)
    as [n [w' [Hrun [_ [_ [_ [Hl [_ He]]]]]]]].
  exists n, w'. split; [exact Hrun|]. split; [exact Hl|].
  rewrite (He Hc). unfold fk_statements. rewrite length_map.
  apply not_refused_from.
Qed.

(** The store refuses the statement of the second of the three rows
    of [emp]: two rows are counted. *)
Lemma refused_row_witness :
  exists w',
    _create_fk_rels (sql := sqlite) (Samples.refusing (length (log staff_with_nodes) + 1))
                    (SqliteFile staff_db) "emp" "id" "dept" "dept_id" "emp" "dept_id"
                    staff_with_nodes
    = (w', Ok 2)
    /\ length (log w') = length (log staff_with_nodes) + 3.
Proof.
  assert (H1 : find_table staff_db (t_name emp) = Some emp) by reflexivity.
  assert (H2 : needs_quoting (platform := sqlite) in_from (t_name emp) = false)
    by reflexivity.
  assert (H0 : In "id" (column_names emp)) by now left.
  assert (H3 : In "dept_id" (column_names emp)) by (right; now left).
  assert (H4 : needs_quoting (platform := sqlite) in_where "dept_id" = false)
    by reflexivity.
  assert (H5 : consistent (store staff_with_nodes) = true) by reflexivity.
  destruct (refused_row_is_not_counted (sql := sqlite)
              (Samples.refusing (length (log staff_with_nodes) + 1))
              staff_db emp "emp" "id" "dept" "dept_id" "dept_id" staff_with_nodes
              H1 H2 H0 H3 H4 H5)
    as [n [w' [Hrun [Hl Hn]]]].
  change (t_name emp) with "emp" in Hrun.
  exists w'. split.
  - rewrite Hrun, Hn. reflexivity.
  - rewrite Hl, length_app. reflexivity.
Defined.

(** C2 at a failing input.  [emp] has three rows with a non-null
    [dept_id]; the third refers to department 30, for which the store
    holds no node.  [_create_fk_rels] raises nothing and creates the two
    edges of the first two rows only, but returns 3: the row without a
    target is counted. *)
Lemma dangling_reference_is_counted :
  matching "dept" "dept_id" (VInt 30) (store staff_with_nodes) = []
  /\ snd staff_references = Ok 3
  /\ edges (store (fst staff_references))
     = [(0, "REFERENCES_DEPT_ID", 3); (1, "REFERENCES_DEPT_ID", 3)].
Proof. vm_compute. repeat split; reflexivity. Qed.

End ReferenceEdges.

(** ** The dual-path query *)

Module OrchestratorFacts.
Import Orchestrator Scenario.

Section DualPath.

Variable schema_info : Ingestor.schema_info.
Variable generate_sql : string -> string -> Exc string.
Variable translate_to_cypher : string -> string -> Exc string.
Variable synthesize_sql_answer : string -> list record -> string -> Exc synthesis.
Variable synthesize_kg_answer : string -> list record -> string -> Exc synthesis.
Variable generate_fallback_answer : string -> string -> string -> Exc string.
Variable run_sql : string -> Exc (list record).
Variable run_cypher : string -> Exc (list record).
Variable kg_catalogue : Exc (string * string).

Let sql_path_of :=
  _sql_path schema_info generate_sql synthesize_sql_answer generate_fallback_answer
            run_sql.
Let cypher_path_of :=
  _cypher_path translate_to_cypher synthesize_kg_answer generate_fallback_answer
               run_cypher kg_catalogue.

(** A failure of the service while the query is generated leaves
    [_sql_path]: the call is made before the [try]. *)
Lemma sql_path_generation_failure (question : string) (e : exn) :
  generate_sql question (_get_sql_schema schema_info) = Raise e ->
  sql_path_of question = Raise e.
Proof. intros H. unfold sql_path_of, _sql_path. now rewrite H. Qed.

(** So does a failure of the service inside the handler. *)
Lemma sql_path_fallback_failure (question sql_query : string) (e e' : exn) :
  generate_sql question (_get_sql_schema schema_info) = Ok sql_query ->
  run_sql sql_query = Raise e ->
  generate_fallback_answer question (_get_sql_schema schema_info) "SQL" = Raise e' ->
  sql_path_of question = Raise e'.
Proof.
  intros Hg Hr Hf. unfold sql_path_of, _sql_path. rewrite Hg. simpl.
  rewrite Hr. simpl. now rewrite Hf.
Qed.

(** When the service answers, a path returns a structured result,
    whatever the execution of the query does. *)
Lemma sql_path_returns (question : string) :
  (forall q s, exists x, generate_sql q s = Ok x) ->
  (forall q d s, exists x, synthesize_sql_answer q d s = Ok x) ->
  (forall q s m, exists x, generate_fallback_answer q s m = Ok x) ->
  exists r sql_query,
    sql_path_of question = Ok r
    /\ generate_sql question (_get_sql_schema schema_info) = Ok sql_query
    /\ query r = sql_query
    /\ count r = length (data r)
    /\ (forall e, run_sql sql_query = Raise e ->
          data r = []
          /\ generate_fallback_answer question (_get_sql_schema schema_info) "SQL"
             = Ok (answer r)
          /\ explanation r
             = ("Query failed: " ++ message e ++ " - using schema knowledge")%string).
Proof.
  intros Hg Hs Hf. unfold sql_path_of, _sql_path.
  destruct (Hg question (_get_sql_schema schema_info)) as [sql_query Hq].
  rewrite Hq. simpl.
  destruct (run_sql sql_query) as [sql_data|e] eqn:Er; simpl.
  - destruct (Hs question sql_data (_get_sql_schema schema_info)) as [a Ha].
    rewrite Ha. simpl. eexists. exists sql_query.
    split; [reflexivity|]. split; [reflexivity|]. split; [reflexivity|].
    split; [reflexivity|]. intros e0 Hx. rewrite Er in Hx. discriminate.
  - destruct (Hf question (_get_sql_schema schema_info) "SQL") as [fb Hfb].
    rewrite Hfb. simpl. eexists. exists sql_query.
    split; [reflexivity|]. split; [reflexivity|]. split; [reflexivity|].
    split; [reflexivity|]. intros e0 Hx. rewrite Er in Hx. inversion Hx; subst. simpl.
    split; [reflexivity|]. split; reflexivity.
Qed.

Lemma cypher_path_returns (question : string) :
  (forall q s, exists x, translate_to_cypher q s = Ok x) ->
  (forall q d s, exists x, synthesize_kg_answer q d s = Ok x) ->
  (forall q s m, exists x, generate_fallback_answer q s m = Ok x) ->
  exists r, cypher_path_of question = Ok r /\ count r = length (data r).
Proof.
  intros Hg Hs Hf. unfold cypher_path_of, _cypher_path.
  destruct (Hg question (_get_kg_schema kg_catalogue)) as [cypher_query Hq].
  rewrite Hq. simpl.
  destruct (run_cypher (cypher_query ++ " LIMIT 50")) as [cypher_data|e]; simpl.
  - destruct (Hs question cypher_data (_get_kg_schema kg_catalogue)) as [a Ha].
    rewrite Ha. simpl. eexists. split; reflexivity.
  - destruct (Hf question (_get_kg_schema kg_catalogue) "Cypher") as [fb Hfb].
    rewrite Hfb. simpl. eexists. split; reflexivity.
Qed.

End DualPath.

Lemma sql_path_returns_witness :
  exists r sql_query,
    _sql_path some_schema (fun _ _ => Ok "SELECT nam FROM employees")
              (fun _ _ _ => Ok canned_answer)
              (fun _ _ _ => Ok "Probably the best paid employee")
              (fun _ => Raise (mk_exn DatabaseError "no such column: nam"))
              "Who has the highest salary?"
    = Ok r
    /\ query r = sql_query
    /\ count r = length (data r).
Proof.
  destruct (sql_path_returns some_schema (fun _ _ => Ok "SELECT nam FROM employees")
              (fun _ _ _ => Ok canned_answer)
              (fun _ _ _ => Ok "Probably the best paid employee")
              (fun _ => Raise (mk_exn DatabaseError "no such column: nam"))
              "Who has the highest salary?")
    as [r [sql_query [H1 [_ [H2 [H3 _]]]]]].
  - intros q s0. eexists. reflexivity.
  - intros q d s0. eexists. reflexivity.
  - intros q s0 m. eexists. reflexivity.
  - exists r, sql_query. now repeat split.
Defined.

(** C3 at a failing input.  With the text-generation service down,
    [dual_path_query] raises the service's error to its caller; and so
    it does when the queries were generated, the SQL fails on the source
    and the service is down by the time the fallback answer is asked
    for.  When the service answers, the failed SQL is recovered: the
    path returns the query, a count of 0, the fallback answer and the
    explanation. *)
Lemma dual_path_query_propagates_service_failure :
  query_with_service_down "Who has the highest salary?"
  = Raise (mk_exn HTTPError "503 Server Error: Service Unavailable")
  /\ query_with_fallback_down "Who has the highest salary?"
     = Raise (mk_exn HTTPError "503 Server Error: Service Unavailable")
  /\ exists r,
       query_with_failing_sql "Who has the highest salary?" = Ok r
       /\ query (sql_path r) = "SELECT nam FROM employees"
       /\ count (sql_path r) = 0
       /\ answer (sql_path r) = "Probably the best paid employee"
       /\ explanation (sql_path r)
          = "Query failed: no such column: nam - using schema knowledge".
Proof.
  split; [reflexivity|]. split; [reflexivity|].
  eexists. split; [reflexivity|]. repeat split; reflexivity.
Qed.

End OrchestratorFacts.

(** ** Names the sanitizer leaves alone *)

Module SanitizerFixpoints.
Import Py Sanitize PyFacts SanitizeFacts.

Lemma re_sub_nonword_fixes (name : string) :
  re_sub_nonword name = name <-> all_word_chars name = true.
Proof.
  unfold re_sub_nonword, all_word_chars, chars.
  induction name as [|c s IH]; simpl; [tauto|].
  rewrite andb_true_iff, <- IH. split.
  - intros H. inversion H as [[Hc Hs]]. rewrite Hs.
    destruct (is_word_char c) eqn:E; [now rewrite Hs|].
    subst c. discriminate.
  - intros [Hc Hs]. now rewrite Hc, Hs.
Qed.

Lemma slice_to_fixes (n : nat) (s : string) :
  slice_to n s = s <-> String.length s <= n.
Proof.
  unfold slice_to. revert n. induction s as [|c s IH]; intros [|n]; simpl.
  - split; [lia|reflexivity].
  - split; [lia|reflexivity].
  - split; [discriminate|lia].
  - rewrite <- Nat.succ_le_mono, <- IH. split.
    + intros H. now inversion H as [Hs]; rewrite Hs.
    + now intros ->.
Qed.

Lemma length_slice_to_min (n : nat) (s : string) :
  String.length (slice_to n s) = Nat.min n (String.length s).
Proof.
  unfold slice_to. revert n. induction s as [|c s IH]; intros [|n]; simpl; try reflexivity.
  now rewrite IH.
Qed.

Lemma length_re_sub_nonword (name : string) :
  String.length (re_sub_nonword name) = String.length name.
Proof.
  unfold re_sub_nonword. induction name as [|c s IH]; simpl; [reflexivity|now rewrite IH].
Qed.

Lemma safe_label_fixes (name : string) : _safe_label name = name <-> sanitized name.
Proof.
  split.
  - intros H. rewrite <- H. apply safe_label_sanitized.
  - intros [Hw Hl]. unfold _safe_label.
    apply re_sub_nonword_fixes in Hw. rewrite Hw. now apply slice_to_fixes.
Qed.

(** X5. [_safe_label] (and [_safe_property], the same function) returns
    its argument unchanged exactly when the argument is already made of
    characters of [[A-Za-z0-9_]] and at most 63 long; applying it twice
    is applying it once; and the result has the length of the argument,
    cut at 63: characters are replaced, never dropped or added. *)
Theorem safe_label_fixes_exactly_the_clean_names (name : string) :
  (_safe_label name = name <-> sanitized name)
  /\ _safe_label (_safe_label name) = _safe_label name
  /\ _safe_property name = _safe_label name
  /\ String.length (_safe_label name) = Nat.min 63 (String.length name).
Proof.
  split; [apply safe_label_fixes|]. split; [|split; [reflexivity|]].
  - apply safe_label_fixes, safe_label_sanitized.
  - unfold _safe_label. now rewrite length_slice_to_min, length_re_sub_nonword.
Qed.

End SanitizerFixpoints.

(** ** What [ingest_all_tables] returns for a database file *)

Module IngestedSchema.
Import Sqlite Ingestor Spec Terms DataFacts SqliteFacts IngestorFacts.

Section WithPlatform.

Context {sql : platform}.






End WithPlatform.



End IngestedSchema.

(** ** [_safe_cleanup] *)

Module CleanupFacts.
Import Sqlite Graph Converter Spec Terms.

Section Cleanup.

Variable store_fault : nat -> bool.

Let drop_body := Terms.drop_body store_fault.

Lemma drop_body_store (name : string) (w : world) :
  nodes (store (fst (drop_body tt name w))) = nodes (store w)
  /\ edges (store (fst (drop_body tt name w))) = edges (store w)
  /\ (forall k, In k (constraints (store (fst (drop_body tt name w)))) ->
                In k (constraints (store w))).
Proof.
  unfold drop_body, Terms.drop_body, bind, session_run.
  destruct (store_fault (length (log w))); cbn; [tauto|].
  repeat split; try reflexivity. intros k Hk. apply filter_In in Hk. tauto.
Qed.

Lemma drop_body_drops (name : string) (w : world) :
  store_fault (length (log w)) = false ->
  snd (drop_body tt name w) = Ok tt
  /\ forall k, In k (constraints (store (fst (drop_body tt name w)))) ->
               k_name k <> name.
Proof.
  intros Hf. unfold drop_body, Terms.drop_body, bind, session_run. rewrite Hf. cbn.
  split; [reflexivity|]. intros k Hk. apply filter_In in Hk.
  destruct Hk as [_ Hk]. intros E. rewrite E, String.eqb_refl in Hk. discriminate.
Qed.

Lemma drop_loop_store (names : list string) (w : world) :
  nodes (store (fst (for_fold names tt drop_body w))) = nodes (store w)
  /\ edges (store (fst (for_fold names tt drop_body w))) = edges (store w)
  /\ (forall k, In k (constraints (store (fst (for_fold names tt drop_body w)))) ->
                In k (constraints (store w))).
Proof.
  revert w. induction names as [|name names IH]; intros w; cbn [for_fold].
  - cbn. tauto.
  - unfold bind. destruct (drop_body_store name w) as [Hn [He Hk]].
    destruct (drop_body tt name w) as [w1 [[]|x]]; cbn [fst] in *.
    + destruct (IH w1) as [Hn' [He' Hk']].
      rewrite Hn', He', Hn, He. repeat split; auto.
    + tauto.
Qed.

Lemma drop_loop_drops (names : list string) (w : world) :
  (forall n, store_fault n = false) ->
  snd (for_fold names tt drop_body w) = Ok tt
  /\ forall k, In k (constraints (store (fst (for_fold names tt drop_body w)))) ->
               ~ In (k_name k) names.
Proof.
  intros Hf. revert w. induction names as [|name names IH]; intros w; cbn [for_fold].
  - cbn. split; [reflexivity|]. intros k _ [].
  - unfold bind. destruct (drop_body_drops name w (Hf _)) as [Hr Hk].
    destruct (drop_body tt name w) as [w1 [[]|x]]; cbn [fst snd] in *; [|discriminate].
    destruct (IH w1) as [Hr' Hk']. split; [exact Hr'|].
    intros k Hin [Hn|Hn].
    + destruct (drop_loop_store names w1) as [_ [_ Hsub]].
      exact (Hk k (Hsub k Hin) (eq_sym Hn)).
    + exact (Hk' k Hin Hn).
Qed.

Lemma drop_all_constraints_returns (w : world) :
  snd (drop_all_constraints store_fault w) = Ok tt
  /\ nodes (store (fst (drop_all_constraints store_fault w))) = nodes (store w)
  /\ edges (store (fst (drop_all_constraints store_fault w))) = edges (store w)
  /\ ((forall n, store_fault n = false) ->
      constraints (store (fst (drop_all_constraints store_fault w))) = []).
Proof.
  remember (drop_all_constraints store_fault w) as r eqn:Er.
  unfold drop_all_constraints in Er.
  change (fun (_ : unit) (name : string) =>
            session_run store_fault (DropConstraint name) ;;; ret tt)
    with drop_body in Er.
  unfold try_except, bind, session_run in Er.
  destruct (store_fault (length (log w))) eqn:Hf; cbn [Graph.run fst snd] in Er.
  - subst r. cbn. repeat split. intros H. rewrite H in Hf. discriminate.
  - set (w1 := mk_world (fs w) (store w) (log w ++ [ShowConstraints])) in Er.
    set (names := map k_name (constraints (store w))) in Er.
    destruct (drop_loop_store names w1) as [Hn [He Hk]].
    assert (Hd := drop_loop_drops names w1).
    destruct (for_fold names tt drop_body w1) as [w2 [[]|x]]; subst r;
      cbn [fst snd ret] in *.
    + repeat split; auto. intros Hall. destruct (Hd Hall) as [_ Hnot].
      destruct (constraints (store w2)) as [|k ks] eqn:E; [reflexivity|].
      exfalso. apply (Hnot k (or_introl eq_refl)).
      unfold names. apply in_map. apply Hk. now left.
    + repeat split; auto. intros Hall. destruct (Hd Hall) as [Hx _]. discriminate.
Qed.

(** X7. [_safe_cleanup] raises exactly when the store refuses its
    first statement, and then the store is as it was.  Otherwise it
    returns, whatever the store does with the statements about
    constraints (their failures are swallowed), and leaves a store
    without nodes and without edges; when the store refuses nothing,
    no constraint is left either. *)
Theorem safe_cleanup_contract (w : world) :
  if store_fault (length (log w))
  then (exists e, snd (_safe_cleanup store_fault w) = Raise e)
       /\ store (fst (_safe_cleanup store_fault w)) = store w
  else snd (_safe_cleanup store_fault w) = Ok tt
       /\ nodes (store (fst (_safe_cleanup store_fault w))) = []
       /\ edges (store (fst (_safe_cleanup store_fault w))) = []
       /\ ((forall n, store_fault n = false) ->
           constraints (store (fst (_safe_cleanup store_fault w))) = []).
Proof.
  remember (_safe_cleanup store_fault w) as r eqn:Er.
  unfold _safe_cleanup, bind in Er. unfold session_run at 1 in Er.
  destruct (store_fault (length (log w))) eqn:Hf; cbn [Graph.run fst snd] in Er.
  - subst r. split; [eexists; reflexivity|reflexivity].
  - set (w1 := mk_world _ _ _) in Er.
    destruct (drop_all_constraints_returns w1) as [Hr [Hn [He Hk]]].
    subst r. rewrite Hn, He. repeat split; auto.
Qed.

End Cleanup.

End CleanupFacts.

(** ** [_create_base_nodes] *)

Module BaseNodes.
Import Sqlite Graph Converter Spec Sanitize Scenario Samples.
Import DataFacts SqliteFacts TraceFacts.













Section Nodes.

Context {sql : platform}.
Variable store_fault : nat -> bool.
Variable db_path : string.
Variable db : database.
Variable t : Table.
Variable pk : string.





End Nodes.



End BaseNodes.

(** ** The count [_create_fk_rels] returns *)

Module ReferenceCount.
Import Sqlite Graph Converter Spec Sanitize Scenario Terms.
Import DataFacts SqliteFacts TraceFacts ConverterFacts ReferenceLoop.

(** X10. For a table [s] of the source and one of its columns, both
    with names SQLite reads as themselves, and a key that is a column
    of [s] (as [row[source_pk]] requires), [_create_fk_rels] returns
    and sends one statement per row whose reference is not null, in
    the order of the rows; the count it returns is at most the number
    of those rows, and when the store refuses nothing it is exactly
    that number: the rows are counted, not the edges, so the count
    does not depend on which targets exist.  For a table whose name
    needs quoting, SQLite rejects the SELECT of line 191, which is
    outside any [try]: [_create_fk_rels] raises and sends nothing. *)
Theorem fk_rels_count_is_the_row_count {sql : platform}
    (store_fault : nat -> bool) (db : database) (s : Table)
    (source_label source_pk target_label target_pk fk_col : string) (w : world) :
  find_table db (t_name s) = Some s ->
  In fk_col (column_names s) ->
  (needs_quoting in_from (t_name s) = false ->
   needs_quoting in_where fk_col = false ->
   In source_pk (column_names s) ->
   exists created_count,
     snd (_create_fk_rels store_fault (SqliteFile db) source_label source_pk
                          target_label target_pk (t_name s) fk_col w)
     = Ok created_count
     /\ created_count <= length (filter notna (column_values (frame_of s) fk_col))
     /\ log (fst (_create_fk_rels store_fault (SqliteFile db) source_label
                     source_pk target_label target_pk (t_name s) fk_col w))
        = log w ++ fk_statements source_label source_pk target_label target_pk s fk_col
     /\ length (fk_statements source_label source_pk target_label target_pk s fk_col)
        = length (filter notna (column_values (frame_of s) fk_col))
     /\ ((forall k, store_fault k = false) -> consistent (store w) = true ->
         created_count = length (filter notna (column_values (frame_of s) fk_col))))
  /\ (needs_quoting in_from (t_name s) = true ->
      _create_fk_rels store_fault (SqliteFile db) source_label source_pk
                      target_label target_pk (t_name s) fk_col w
      = (w, syntax_error)).
Proof.
  intros Hs Hin. split.
  - intros Hq Hw _.
    destruct (create_fk_rels_plain store_fault db s source_label source_pk target_label
                target_pk fk_col w Hs Hq Hin Hw)
      as [n [w' [Hrun [_ [_ [_ [Hl [Hb He]]]]]]]].
    rewrite Hrun. cbn [fst snd]. rewrite length_referring_rows in Hb, He.
    exists n. split; [reflexivity|]. split; [exact Hb|]. split; [exact Hl|].
    split.
    + unfold fk_statements. now rewrite length_map, length_referring_rows.
    + intros Hf Hc. rewrite (He Hc). now apply not_refused_no_fault.
  - intros Hq. now apply create_fk_rels_quoting.
Qed.

Lemma fk_rels_count_witness :
  (exists created_count,
     snd staff_references = Ok created_count
     /\ created_count <= length (filter notna (column_values (frame_of emp) "dept_id")))
  /\ _create_fk_rels (sql := sqlite) no_fault (SqliteFile [Samples.order])
                     "order" "id" "dept" "dept_id" "order" "group" Samples.order_world
     = (Samples.order_world, syntax_error).
Proof.
  assert (H1 : find_table staff_db (t_name emp) = Some emp) by reflexivity.
  assert (H2 : In "dept_id" (column_names emp)) by (right; now left).
  assert (H3 : needs_quoting (platform := sqlite) in_from (t_name emp) = false)
    by reflexivity.
  assert (H4 : needs_quoting (platform := sqlite) in_where "dept_id" = false)
    by reflexivity.
  assert (H5 : find_table [Samples.order] (t_name Samples.order) = Some Samples.order)
    by reflexivity.
  assert (H6 : In "group" (column_names Samples.order)) by (right; now left).
  assert (H7 : needs_quoting (platform := sqlite) in_from (t_name Samples.order) = true)
    by reflexivity.
  split.
  - destruct (fk_rels_count_is_the_row_count (sql := sqlite) no_fault staff_db emp
                "emp" "id" "dept" "dept_id" "dept_id" staff_with_nodes H1 H2)
      as [Hok _].
    assert (H8 : In "id" (column_names emp)) by now left.
    destruct (Hok H3 H4 H8) as [n [Hr [Hb _]]].
    exists n. split; [exact Hr|exact Hb].
  - destruct (fk_rels_count_is_the_row_count (sql := sqlite) no_fault [Samples.order]
                Samples.order "order" "id" "dept" "dept_id" "group"
                Samples.order_world H5 H6)
      as [_ Hbad].
    exact (Hbad H7).
Defined.

End ReferenceCount.

(** ** The column [_detect_fk_to_target] returns *)

Module DetectedColumn.
Import Sqlite Converter Spec DataFacts DetectionFacts.

Section Detected.

Variable read_match_count : connection -> string -> string -> list value -> Exc nat.
Variable source_df : DataFrame.
Variables target_table target_pk : string.
Variable conn : connection.

Lemma name_rule_body_found (col x : string) :
  name_rule_body read_match_count source_df target_table target_pk conn col = Ok (Some x) ->
  x = col
  /\ distinct_values source_df col <> []
  /\ Pattern.name_matches col target_table target_pk = true.
Proof.
  unfold name_rule_body.
  destruct (Pattern.name_matches col target_table target_pk); [|discriminate].
  destruct (distinct_values source_df col) as [|v vs] eqn:E; [discriminate|].
  cbn [length Nat.eqb].
  destruct (read_match_count _ _ _ _) as [n|e]; cbn [bindE try_exceptE]; [|discriminate].
  match goal with |- context [if ?c then _ else _] => destruct c end;
    cbn [try_exceptE]; [|discriminate].
  intros H. inversion H. now repeat split.
Qed.

Lemma fallback_rule_body_found (col x : string) :
  fallback_rule_body read_match_count source_df target_table target_pk conn col
  = Ok (Some x) ->
  x = col
  /\ 2 <= nunique source_df col
  /\ 10 * nunique source_df col < length (rows source_df).
Proof.
  unfold fallback_rule_body.
  destruct (10 * nunique source_df col <? length (rows source_df)) eqn:E1;
    [|discriminate].
  destruct (1 <? nunique source_df col) eqn:E2; [|discriminate]. cbn [andb].
  match goal with |- (if ?c then _ else _) = _ -> _ => destruct c end; [|discriminate].
  destruct (read_match_count _ _ _ _) as [n|e]; cbn [bindE try_exceptE]; [|discriminate].
  destruct (0 <? n); cbn [try_exceptE]; [|discriminate]. intros H. inversion H. subst x.
  apply Nat.ltb_lt in E1, E2. split; [reflexivity|]. split; [lia|exact E1].
Qed.

(** X11. Whatever the verification queries do, [_detect_fk_to_target]
    returns: no column, or a column of the source frame that has at
    least one non-null value and that either matches a name pattern or
    has at least two distinct values, fewer than a tenth of the number
    of rows.  In particular a source table with fewer than 21 rows is
    never given a column by the fallback rule, and a source without
    rows is given none at all. *)
Theorem detected_column_shape :
  exists r,
    _detect_fk_to_target read_match_count source_df target_table target_pk conn = Ok r
    /\ (forall col, r = Some col ->
          In col (columns source_df)
          /\ distinct_values source_df col <> []
          /\ (Pattern.name_matches col target_table target_pk = true
              \/ (2 <= nunique source_df col
                  /\ 10 * nunique source_df col < length (rows source_df)
                  /\ 21 <= length (rows source_df))))
    /\ (rows source_df = [] -> r = None).
Proof.
  destruct (detect_never_raises read_match_count source_df target_table target_pk conn)
    as [r Hr].
  exists r. split; [exact Hr|].
  assert (Hshape : forall col, r = Some col ->
            In col (columns source_df)
            /\ distinct_values source_df col <> []
            /\ (Pattern.name_matches col target_table target_pk = true
                \/ (2 <= nunique source_df col
                    /\ 10 * nunique source_df col < length (rows source_df)
                    /\ 21 <= length (rows source_df)))).
  { intros col ->. split.
    - exact (detect_returns_a_column read_match_count source_df target_table target_pk
               conn col Hr).
    - revert Hr. unfold _detect_fk_to_target.
      destruct (first_returned (name_rule_body _ _ _ _ _) _) as [[x|]|e] eqn:E;
        cbn [bindE]; intros H; try discriminate.
      + inversion H; subst x. apply first_returned_some in E.
        destruct E as [a [_ Ha]]. destruct (name_rule_body_found a col Ha) as [Hx [Hd Hm]].
        subst a. split; [exact Hd|now left].
      + apply first_returned_some in H. destruct H as [a [_ Ha]].
        destruct (fallback_rule_body_found a col Ha) as [Hx [H2 H10]].
        subst a. split.
        * unfold nunique in H2. destruct (distinct_values source_df col); cbn in H2;
            [lia|discriminate].
        * right. repeat split; [exact H2|exact H10|lia]. }
  split; [exact Hshape|].
  intros Hrows. destruct r as [col|]; [|reflexivity].
  destruct (Hshape col eq_refl) as [_ [Hd _]]. exfalso. apply Hd.
  unfold distinct_values, column_values. now rewrite Hrows.
Qed.

End Detected.

End DetectedColumn.

(** ** The order of the phases of [convert_all_tables] *)

Module ConversionOrder.
Import Sqlite Graph Ingestor Converter Spec Terms.
Import IngestorFacts TraceFacts ConverterFacts.

Section Order.

Context {sql : platform}.
Variable read_match_count : connection -> string -> string -> list value -> Exc nat.
Variable store_fault : nat -> bool.
Variable db_path : string.

Let convert := convert_all_tables read_match_count store_fault db_path.




End Order.

End ConversionOrder.

(** ** When the two paths return, and what they report *)

Module PathResults.
Import Orchestrator Scenario Samples.

Section Paths.

Variable schema_info : Ingestor.schema_info.
Variable generate_sql : string -> string -> Exc string.
Variable translate_to_cypher : string -> string -> Exc string.
Variable synthesize_sql_answer : string -> list record -> string -> Exc synthesis.
Variable synthesize_kg_answer : string -> list record -> string -> Exc synthesis.
Variable generate_fallback_answer : string -> string -> string -> Exc string.
Variable run_sql : string -> Exc (list record).
Variable run_cypher : string -> Exc (list record).
Variable kg_catalogue : Exc (string * string).

Let sql_path_of :=
  _sql_path schema_info generate_sql synthesize_sql_answer generate_fallback_answer
            run_sql.
Let cypher_path_of :=
  _cypher_path translate_to_cypher synthesize_kg_answer generate_fallback_answer
               run_cypher kg_catalogue.
Let dual :=
  dual_path_query schema_info generate_sql translate_to_cypher synthesize_sql_answer
                  synthesize_kg_answer generate_fallback_answer run_sql run_cypher
                  kg_catalogue.

Let cypher_attempt := Terms.cypher_attempt synthesize_kg_answer run_cypher kg_catalogue.

(** X13. Whenever [_cypher_path] returns, the query it reports is the
    text the service generated, while the statement executed is that
    text followed by " LIMIT 50"; the count is the number of records
    reported; and the result is one of two: the records of the executed
    statement with the synthesized answer, or, when the execution or
    the synthesis raised, no records at all, a count of 0, the fallback
    answer and the explanation built from the exception. *)
Theorem cypher_path_result (question : string) (r : path_result) :
  cypher_path_of question = Ok r ->
  translate_to_cypher question (_get_kg_schema kg_catalogue) = Ok (query r)
  /\ method r = "Knowledge Graph"
  /\ count r = length (data r)
  /\ match cypher_attempt question (query r) with
     | Ok (cypher_data, answer) =>
         data r = cypher_data
         /\ Orchestrator.answer r = syn_answer answer
         /\ explanation r = syn_explanation answer
     | Raise e =>
         data r = []
         /\ generate_fallback_answer question (_get_kg_schema kg_catalogue) "Cypher"
            = Ok (Orchestrator.answer r)
         /\ explanation r
            = ("Query failed: " ++ message e ++ " - using graph schema knowledge")%string
     end.
Proof.
  unfold cypher_path_of, _cypher_path, cypher_attempt, Terms.cypher_attempt.
  destruct (translate_to_cypher question (_get_kg_schema kg_catalogue))
    as [cypher_query|e]; cbn [bindE]; [|discriminate].
  destruct (run_cypher (cypher_query ++ " LIMIT 50")) as [cypher_data|e] eqn:Er;
    cbn [bindE try_exceptE].
  - destruct (synthesize_kg_answer question cypher_data (_get_kg_schema kg_catalogue))
      as [a|e] eqn:Es; cbn [bindE try_exceptE].
    + intros H. inversion H; subst r. cbn. rewrite Er. cbn. rewrite Es. cbn.
      now repeat split.
    + destruct (generate_fallback_answer _ _ _) as [fb|e'] eqn:Ef; cbn [bindE];
        [|discriminate].
      intros H. inversion H; subst r. cbn. rewrite Er. cbn. rewrite Es. cbn.
      now repeat split.
  - destruct (generate_fallback_answer _ _ _) as [fb|e'] eqn:Ef; cbn [bindE];
      [|discriminate].
    intros H. inversion H; subst r. cbn. rewrite Er. cbn. now repeat split.
Qed.

Lemma sql_path_returns_iff (question : string) :
  (exists r, sql_path_of question = Ok r)
  <-> exists sql_query,
        generate_sql question (_get_sql_schema schema_info) = Ok sql_query
        /\ ((exists d a, run_sql sql_query = Ok d
                         /\ synthesize_sql_answer question d (_get_sql_schema schema_info)
                            = Ok a)
            \/ exists fb, generate_fallback_answer question (_get_sql_schema schema_info)
                                                   "SQL" = Ok fb).
Proof.
  unfold sql_path_of, _sql_path.
  destruct (generate_sql question (_get_sql_schema schema_info)) as [q|e]; cbn [bindE].
  - destruct (run_sql q) as [d|e] eqn:Er; cbn [bindE try_exceptE].
    + destruct (synthesize_sql_answer question d (_get_sql_schema schema_info))
        as [a|e] eqn:Es; cbn [bindE try_exceptE].
      * split; [|eauto]. intros _. exists q. split; [reflexivity|]. left. eauto.
      * destruct (generate_fallback_answer _ _ _) as [fb|e']; cbn [bindE].
        -- split; [|eauto]. intros _. exists q. split; [reflexivity|]. right. eauto.
        -- split; [intros [r H]; discriminate|].
           intros [q' [Hq [[d' [a' [Hd Ha]]]|[fb H]]]]; inversion Hq; subst q';
             [|discriminate].
           rewrite Er in Hd. inversion Hd; subst d'. congruence.
    + destruct (generate_fallback_answer _ _ _) as [fb|e']; cbn [bindE].
      * split; [|eauto]. intros _. exists q. split; [reflexivity|]. right. eauto.
      * split; [intros [r H]; discriminate|].
        intros [q' [Hq [[d' [a' [Hd Ha]]]|[fb H]]]]; inversion Hq; subst q';
          [|discriminate].
        rewrite Er in Hd. discriminate.
  - split; [intros [r H]; discriminate|]. intros [q [H _]]. discriminate.
Qed.

Lemma cypher_path_returns_iff (question : string) :
  (exists r, cypher_path_of question = Ok r)
  <-> exists cypher_query,
        translate_to_cypher question (_get_kg_schema kg_catalogue) = Ok cypher_query
        /\ ((exists x, cypher_attempt question cypher_query = Ok x)
            \/ exists fb, generate_fallback_answer question (_get_kg_schema kg_catalogue)
                                                   "Cypher" = Ok fb).
Proof.
  unfold cypher_path_of, _cypher_path, cypher_attempt, Terms.cypher_attempt.
  destruct (translate_to_cypher question (_get_kg_schema kg_catalogue)) as [q|e];
    cbn [bindE].
  - destruct (run_cypher (q ++ " LIMIT 50")) as [d|e] eqn:Er; cbn [bindE try_exceptE].
    + destruct (synthesize_kg_answer question d (_get_kg_schema kg_catalogue))
        as [a|e] eqn:Es; cbn [bindE try_exceptE].
      * split; [|eauto]. intros _. exists q. split; [reflexivity|]. left.
        rewrite Er. cbn. rewrite Es. cbn. eauto.
      * destruct (generate_fallback_answer _ _ _) as [fb|e']; cbn [bindE].
        -- split; [|eauto]. intros _. exists q. split; [reflexivity|]. right. eauto.
        -- split; [intros [r H]; discriminate|].
           intros [q' [Hq [[x Hx]|[fb H]]]]; inversion Hq; subst q'; [|discriminate].
           rewrite Er in Hx. cbn in Hx. rewrite Es in Hx. discriminate.
    + destruct (generate_fallback_answer _ _ _) as [fb|e']; cbn [bindE].
      * split; [|eauto]. intros _. exists q. split; [reflexivity|]. right. eauto.
      * split; [intros [r H]; discriminate|].
        intros [q' [Hq [[x Hx]|[fb H]]]]; inversion Hq; subst q'; [|discriminate].
        rewrite Er in Hx. discriminate.
  - split; [intros [r H]; discriminate|]. intros [q [H _]]. discriminate.
Qed.

(** X14. [dual_path_query] returns exactly when both queries are
    generated and, on each path, either the execution and the synthesis
    return or the fallback answer is generated: a failure of the
    execution or of the synthesis alone never reaches the caller, a
    failure of the generation or of the fallback always does.  (There
    is no partial result: when the Cypher path raises, the result of
    the SQL path is lost with it.) *)
Theorem dual_path_query_returns_iff (question : string) :
  (exists r, dual question = Ok r)
  <-> (exists sql_query,
         generate_sql question (_get_sql_schema schema_info) = Ok sql_query
         /\ ((exists d a, run_sql sql_query = Ok d
                          /\ synthesize_sql_answer question d
                               (_get_sql_schema schema_info) = Ok a)
             \/ exists fb, generate_fallback_answer question
                             (_get_sql_schema schema_info) "SQL" = Ok fb))
      /\ (exists cypher_query,
            translate_to_cypher question (_get_kg_schema kg_catalogue) = Ok cypher_query
            /\ ((exists x, cypher_attempt question cypher_query = Ok x)
                \/ exists fb, generate_fallback_answer question
                                (_get_kg_schema kg_catalogue) "Cypher" = Ok fb)).
Proof.
  rewrite <- sql_path_returns_iff, <- cypher_path_returns_iff.
  unfold dual, dual_path_query. fold sql_path_of. fold cypher_path_of.
  destruct (sql_path_of question) as [rs|e]; cbn [bindE].
  - destruct (cypher_path_of question) as [rc|e]; cbn [bindE].
    + split; eauto.
    + split; [intros [r H]; discriminate|]. intros [_ [r H]]. discriminate.
  - split; [intros [r H]; discriminate|]. intros [[r H] _]. discriminate.
Qed.

End Paths.

Lemma cypher_path_result_witness :
  exists r,
    _cypher_path (fun _ _ => Ok "MATCH (n) RETURN n")
                 (fun _ _ _ => Ok canned_answer)
                 (fun _ _ _ => Ok "Probably the best paid employee")
                 (fun _ => invalid_input)
                 (Ok ("employees", "HAS_DEPARTMENT"))
                 "Who has the highest salary?"
    = Ok r
    /\ method r = "Knowledge Graph"
    /\ count r = length (data r).
Proof.
  eexists. split; [reflexivity|].
  match goal with
  | |- method ?r = _ /\ _ =>
      destruct (cypher_path_result
                  (fun _ _ => Ok "MATCH (n) RETURN n")
                  (fun _ _ _ => Ok canned_answer)
                  (fun _ _ _ => Ok "Probably the best paid employee")
                  (fun _ => invalid_input)
                  (Ok ("employees", "HAS_DEPARTMENT"))
                  "Who has the highest salary?" r eq_refl) as [_ [Hm [Hc _]]]
  end.
  split; [exact Hm|exact Hc].
Defined.

End PathResults.


(** ** Substrings, stripping and replacing *)

Module PyTextFacts.
Import Py PyText.

Lemma prefix_trans (p r s : string) :
  prefix p r = true -> prefix r s = true -> prefix p s = true.
Proof.
  revert r s. induction p as [|a p IH]; intros r s Hp Hr; [destruct s; reflexivity|].
  destruct r as [|b r]; [discriminate|]. destruct s as [|c s]; [discriminate|].
  cbn in *. destruct (ascii_dec a b) as [->|]; [|discriminate].
  destruct (ascii_dec b c) as [->|]; [|discriminate].
  destruct (ascii_dec c c) as [_|n]; [|now destruct n]. exact (IH r s Hp Hr).
Qed.

Lemma prefix_empty (s : string) : prefix "" s = true.
Proof. now destruct s. Qed.

Lemma contains_empty (s : string) : contains "" s = true.
Proof. destruct s; cbn; [reflexivity|reflexivity]. Qed.

Lemma prefix_of_empty (p : string) : prefix p "" = true -> p = "".
Proof. destruct p; [reflexivity|discriminate]. Qed.

(** An occurrence in a prefix of [s] is an occurrence in [s]. *)
Lemma contains_in_prefix (p r s : string) :
  contains p r = true -> prefix r s = true -> contains p s = true.
Proof.
  revert s. induction r as [|a r IH]; intros s Hc Hr.
  - cbn in Hc. apply prefix_of_empty in Hc. subst p. apply contains_empty.
  - destruct s as [|b s]; [discriminate|]. cbn in Hr.
    destruct (ascii_dec a b) as [->|]; [|discriminate].
    cbn [contains] in *. apply orb_true_iff in Hc. apply orb_true_iff.
    destruct Hc as [Hc|Hc].
    + left. apply (prefix_trans p (String b r)); [exact Hc|].
      cbn. destruct (ascii_dec b b) as [_|n]; [exact Hr|now destruct n].
    + right. exact (IH s Hc Hr).
Qed.

(** An occurrence of [q] holds one of each prefix of [q]. *)
Lemma contains_shorter (p q s : string) :
  prefix p q = true -> contains q s = true -> contains p s = true.
Proof.
  intros Hp. induction s as [|c s IH]; cbn [contains]; intros H.
  - exact (prefix_trans p q "" Hp H).
  - apply orb_true_iff in H. apply orb_true_iff. destruct H as [H|H].
    + left. exact (prefix_trans p q _ Hp H).
    + right. exact (IH H).
Qed.

Lemma contains_lstrip (p s : string) :
  contains p (lstrip s) = true -> contains p s = true.
Proof.
  induction s as [|c s IH]; cbn [lstrip]; [trivial|].
  destruct (is_space c); [|trivial].
  intros H. cbn [contains]. apply orb_true_iff. right. exact (IH H).
Qed.

Lemma rstrip_is_prefix (s : string) : prefix (rstrip s) s = true.
Proof.
  induction s as [|c s IH]; cbn [rstrip]; [reflexivity|].
  destruct (rstrip s) as [|b r] eqn:E.
  - destruct (is_space c); cbn; [reflexivity|].
    destruct (ascii_dec c c) as [_|n]; [apply prefix_empty|now destruct n].
  - cbn [prefix]. destruct (ascii_dec c c) as [_|n]; [exact IH|now destruct n].
Qed.

Lemma contains_strip (p s : string) :
  contains p (strip s) = true -> contains p s = true.
Proof.
  unfold strip. intros H. apply contains_lstrip.
  exact (contains_in_prefix p _ _ H (rstrip_is_prefix (lstrip s))).
Qed.

Lemma rstrip_idempotent (s : string) : rstrip (rstrip s) = rstrip s.
Proof.
  induction s as [|c s IH]; cbn [rstrip]; [reflexivity|].
  destruct (rstrip s) as [|b r] eqn:E.
  - destruct (is_space c) eqn:Ec; cbn [rstrip]; [reflexivity|]. now rewrite Ec.
  - cbn [rstrip]. cbn [rstrip] in IH. now rewrite IH.
Qed.

Lemma lstrip_head (s : string) (c : ascii) (r : string) :
  lstrip s = String c r -> is_space c = false.
Proof.
  induction s as [|a s IH]; cbn [lstrip]; [discriminate|].
  destruct (is_space a) eqn:E; [exact IH|]. intros H. inversion H. now subst.
Qed.

Lemma strip_idempotent (s : string) : strip (strip s) = strip s.
Proof.
  unfold strip.
  assert (H : lstrip (rstrip (lstrip s)) = rstrip (lstrip s)).
  { destruct (rstrip (lstrip s)) as [|c r] eqn:E; [reflexivity|].
    pose proof (rstrip_is_prefix (lstrip s)) as Hp. rewrite E in Hp.
    destruct (lstrip s) as [|a t] eqn:El; [discriminate|].
    cbn in Hp. destruct (ascii_dec c a) as [->|]; [|discriminate].
    cbn [lstrip]. now rewrite (lstrip_head s a t El). }
  rewrite H. apply rstrip_idempotent.
Qed.

(** Where [old] does not occur, [replace] changes nothing. *)
Lemma replace_absent (old new s : string) :
  contains old s = false -> replace old new s = s.
Proof.
  unfold replace. induction s as [|c s IH]; cbn [contains replace_from]; [reflexivity|].
  intros H. apply orb_false_iff in H. destruct H as [Hp Hc].
  cbn [prefix] in Hp. destruct old as [|a old]; [discriminate|].
  cbn [prefix]. destruct (ascii_dec a c) as [->|].
  - rewrite Hp. now rewrite (IH Hc).
  - now rewrite (IH Hc).
Qed.

Lemma prefix_cons (a : ascii) (p s : string) :
  prefix (String a p) s = true -> exists s', s = String a s' /\ prefix p s' = true.
Proof.
  destruct s as [|b s']; cbn [prefix]; [discriminate|].
  destruct (ascii_dec a b) as [->|]; [|discriminate]. intros H. now exists s'.
Qed.

Lemma prefix_fence (s : string) :
  prefix "```" s = true -> exists s3, s = String "`" (String "`" (String "`" s3)).
Proof.
  intros H. apply prefix_cons in H. destruct H as [s1 [-> H]].
  apply prefix_cons in H. destruct H as [s2 [-> H]].
  apply prefix_cons in H. destruct H as [s3 [-> H]]. now exists s3.
Qed.

Lemma prefix_same_head (a : ascii) (p s : string) :
  prefix (String a p) (String a s) = prefix p s.
Proof. cbn [prefix]. destruct (ascii_dec a a) as [_|n]; [reflexivity|now destruct n]. Qed.

Lemma unfence_step_fence (s3 : string) :
  replace "```" "" (String "`" (String "`" (String "`" s3))) = replace "```" "" s3.
Proof.
  unfold replace. cbn [replace_from].
  rewrite !prefix_same_head, prefix_empty. reflexivity.
Qed.

Lemma unfence_step_other (c : ascii) (s : string) :
  prefix "```" (String c s) = false ->
  replace "```" "" (String c s) = String c (replace "```" "" s).
Proof. unfold replace. cbn [replace_from]. now intros ->. Qed.

(** What is left once the fences are removed holds no fence: a run of
    backquotes keeps at most two of them, at its end, followed by
    another character. *)
Lemma unfenced_bounded (n : nat) (s : string) :
  String.length s <= n ->
  contains "```" (replace "```" "" s) = false
  /\ (prefix "``" (replace "```" "" s) = true -> prefix "``" s = true)
  /\ (prefix "`" (replace "```" "" s) = true -> prefix "`" s = true).
Proof.
  revert s. induction n as [|n IH]; intros s Hn.
  - destruct s; [|cbn in Hn; lia]. cbn. repeat split; discriminate.
  - destruct s as [|c s]; [cbn; repeat split; discriminate|].
    destruct (prefix "```" (String c s)) eqn:Ep.
    + destruct (prefix_fence _ Ep) as [s3 E]. rewrite E. rewrite unfence_step_fence.
      destruct (IH s3) as [H0 _]; [rewrite E in Hn; cbn in Hn; lia|].
      split; [exact H0|]. split; reflexivity.
    + rewrite (unfence_step_other c s Ep).
      destruct (IH s) as [H0 [H2 H1]]; [cbn in Hn; lia|].
      assert (Q1 : prefix "`" (String c (replace "```" "" s)) = true ->
                   prefix "`" (String c s) = true).
      { cbn [prefix]. destruct (ascii_dec "`"%char c); [|discriminate].
        intros _. apply prefix_empty. }
      assert (Q2 : prefix "``" (String c (replace "```" "" s)) = true ->
                   prefix "``" (String c s) = true).
      { cbn [prefix]. destruct (ascii_dec "`"%char c); [|discriminate]. exact H1. }
      split; [|split; [exact Q2|exact Q1]].
      cbn [contains]. rewrite H0, orb_false_r.
      destruct (prefix "```" (String c (replace "```" "" s))) eqn:E; [|reflexivity].
      exfalso. cbn [prefix] in E, Ep.
      destruct (ascii_dec "`"%char c); [|discriminate].
      rewrite (H2 E) in Ep. discriminate.
Qed.

Lemma unfenced (s : string) : contains "```" (replace "```" "" s) = false.
Proof. exact (proj1 (unfenced_bounded (String.length s) s (le_n _))). Qed.

Lemma strip_unfenced (s : string) :
  contains "```" (strip (replace "```" "" s)) = false.
Proof.
  destruct (contains "```" (strip (replace "```" "" s))) eqn:E; [|reflexivity].
  apply contains_strip in E. now rewrite unfenced in E.
Qed.

End PyTextFacts.

(** ** The text-generation client *)

Module ClientFacts.
Import Py PyText PyTextFacts Client Orchestrator.

Lemma content_of_stripped (result : json) (text : string) :
  content_of result = Returns text -> Py.strip text = text.
Proof.
  unfold content_of, and_then.
  destruct (getitem result "choices") as [choices|]; [|discriminate].
  destruct (getitem_0 choices) as [choice|]; [|discriminate].
  destruct (getitem choice "message") as [message|]; [|discriminate].
  destruct (getitem message "content") as [c|]; [|discriminate].
  destruct c; cbn; try discriminate.
  intros H. inversion H. apply strip_idempotent.
Qed.

(** Lines 43-44 and 57-58, for the language tag [lang]. *)
Lemma unfence_clean (lang text : string) :
  contains fence text = false -> Py.strip text = text ->
  Py.strip (replace fence "" (replace (fence ++ lang) "" text)) = text.
Proof.
  intros Hf Hs.
  assert (Hl : contains (fence ++ lang) text = false).
  { destruct (contains (fence ++ lang) text) eqn:E; [|reflexivity].
    rewrite (contains_shorter fence (fence ++ lang) text) in Hf; [discriminate| |exact E].
    unfold fence. cbn [append]. rewrite !prefix_same_head. apply prefix_empty. }
  rewrite (replace_absent _ _ _ Hl), (replace_absent _ _ _ Hf). exact Hs.
Qed.

Section Properties.

Variable base_url : string.
Variable headers : Dict.dict string.
Variable model : string.
Variable post : string -> Dict.dict string -> payload -> Exc json.
Variable json_dumps : list record -> string.

Let request := _make_request base_url headers post.

(** X15. The SQL and the Cypher the client returns hold no Markdown
    fence (three backquotes) and no white space at either end.  When
    the text of the service holds no fence, it is returned as it is,
    stripped; and whatever the request raises, the client raises: it
    catches nothing. *)
Theorem generated_queries_are_unfenced (question schema : string) :
  (forall sql, generate_sql base_url headers model post question schema = Returns sql ->
     contains fence sql = false /\ Py.strip sql = sql)
  /\ (forall cypher,
        translate_to_cypher base_url headers model post question schema = Returns cypher ->
        contains fence cypher = false /\ Py.strip cypher = cypher)
  /\ (forall result text,
        request "chat/completions" (sql_payload model question schema) = Returns result ->
        content_of result = Returns text ->
        contains fence text = false ->
        generate_sql base_url headers model post question schema = Returns text)
  /\ (forall result text,
        request "chat/completions" (cypher_payload model question schema)
        = Returns result ->
        content_of result = Returns text ->
        contains fence text = false ->
        translate_to_cypher base_url headers model post question schema = Returns text)
  /\ (forall e,
        request "chat/completions" (sql_payload model question schema) = Raises e ->
        generate_sql base_url headers model post question schema = Raises e)
  /\ (forall e,
        request "chat/completions" (cypher_payload model question schema) = Raises e ->
        translate_to_cypher base_url headers model post question schema = Raises e).
Proof.
  unfold request, generate_sql, translate_to_cypher.
  split; [|split; [|split; [|split; [|split]]]].
  - intros sql. unfold and_then.
    destruct (_make_request _ _ _ _ _) as [result|]; [|discriminate].
    destruct (content_of result) as [text|]; [|discriminate].
    intros H. inversion H. split; [apply strip_unfenced|apply strip_idempotent].
  - intros cypher. unfold and_then.
    destruct (_make_request _ _ _ _ _) as [result|]; [|discriminate].
    destruct (content_of result) as [text|]; [|discriminate].
    intros H. inversion H. split; [apply strip_unfenced|apply strip_idempotent].
  - intros result text Hr Hc Hf. rewrite Hr. cbn [and_then]. rewrite Hc. cbn [and_then].
    now rewrite (unfence_clean "sql" text Hf (content_of_stripped result text Hc)).
  - intros result text Hr Hc Hf. rewrite Hr. cbn [and_then]. rewrite Hc. cbn [and_then].
    now rewrite (unfence_clean "cypher" text Hf (content_of_stripped result text Hc)).
  - intros e Hr. now rewrite Hr.
  - intros e Hr. now rewrite Hr.
Qed.

Lemma data_str_first_ten (data data' : list record) :
  firstn 10 data = firstn 10 data' -> data_str json_dumps data = data_str json_dumps data'.
Proof.
  intros H. unfold data_str.
  destruct data as [|r rs], data' as [|r' rs']; try discriminate H; [reflexivity|].
  now rewrite H.
Qed.

(** X16. The answer synthesized from the rows of a query depends on
    the question and on the first ten rows only: two results that agree
    on them give the same request and so the same answer, whatever the
    schema passed, which is not used.  The explanation returned is
    always empty. *)
Theorem synthesis_reads_the_first_ten_rows
    (question : string) (data data' : list record) (schema schema' : string) :
  firstn 10 data = firstn 10 data' ->
  synthesize_sql_answer base_url headers model post json_dumps question data schema
  = synthesize_sql_answer base_url headers model post json_dumps question data' schema'
  /\ synthesize_kg_answer base_url headers model post json_dumps question data schema
     = synthesize_kg_answer base_url headers model post json_dumps question data' schema'
  /\ (forall r,
        synthesize_sql_answer base_url headers model post json_dumps question data schema
        = Returns r -> syn_explanation r = "")
  /\ (forall r,
        synthesize_kg_answer base_url headers model post json_dumps question data schema
        = Returns r -> syn_explanation r = "").
Proof.
  intros H. unfold synthesize_sql_answer, synthesize_kg_answer.
  rewrite (data_str_first_ten data data' H).
  split; [reflexivity|]. split; [reflexivity|].
  split; intros r; unfold and_then;
    destruct (_make_request _ _ _ _ _) as [result|]; try discriminate;
    destruct (content_of result) as [text|]; try discriminate;
    intros E; now inversion E.
Qed.

End Properties.

Lemma synthesis_witness :
  synthesize_sql_answer "https://api.openai.com/v1" [] "gpt-4o-mini"
    (Samples.answering "Employee 5") Samples.count_rows
    "Who has the highest salary?" Samples.eleven_rows "employees"
  = synthesize_sql_answer "https://api.openai.com/v1" [] "gpt-4o-mini"
      (Samples.answering "Employee 5") Samples.count_rows
      "Who has the highest salary?" Samples.twelve_rows "".
Proof.
  assert (H : firstn 10 Samples.eleven_rows = firstn 10 Samples.twelve_rows)
    by reflexivity.
  exact (proj1 (synthesis_reads_the_first_ten_rows
                  "https://api.openai.com/v1" [] "gpt-4o-mini"
                  (Samples.answering "Employee 5") Samples.count_rows
                  "Who has the highest salary?" Samples.eleven_rows Samples.twelve_rows
                  "employees" "" H)).
Defined.

End ClientFacts.

(** ** The ingestor of one table *)

Module SQLiteIngestorFacts.
Import Sqlite SQLiteIngestor Spec Terms DataFacts SqliteFacts DetectionFacts TraceFacts.



Section WithPlatform.

Context {sql : platform}.






Variable db_path : string.
Variable db : database.
Variable name : string.
Variable t : Table.





End WithPlatform.

(** X19. Where the path holds no file, the ingestor of one table does
    not raise as [DynamicIngestor] does ([FileNotFoundError], nothing
    written).  Where a file can be created at the path, opening the
    connection creates an empty database there: [get_tables] then
    returns no table, and [get_table_schema] raises for a name under
    which SQLite finds no table in an empty database; both leave the
    new file behind, so that [ingest_all_tables], run afterwards on the
    same path, no longer raises: it returns a schema without tables.
    Where no file can be created (the directory is missing), both
    raise, the world as it was. *)
Theorem missing_file_is_created {sql : platform} (db_path name : string) (w : world) :
  Dict.get (fs w) db_path = None ->
  (can_create db_path = true ->
   get_tables db_path w
   = (mk_world (Dict.set (fs w) db_path (SqliteFile [])) (store w) (log w), Ok [])
   /\ fst (get_table_schema db_path name w) = fst (get_tables db_path w)
   /\ (unlisted_table in_from [] name = Ok None ->
       exists e, snd (get_table_schema db_path name w) = Raise e)
   /\ (unlisted_table in_pragma [] name = Ok None ->
       unlisted_table in_from [] name = Ok None ->
       snd (get_table_schema db_path name w) = no_such_table)
   /\ Ingestor.ingest_all_tables db_path (fst (get_tables db_path w))
      = (fst (get_tables db_path w), Ok (Ingestor.mk_schema_info [] [] 0)))
  /\ (can_create db_path = false ->
      get_tables db_path w
      = (w, Raise (mk_exn DatabaseError "unable to open database file"))
      /\ get_table_schema db_path name w
         = (w, Raise (mk_exn DatabaseError "unable to open database file")))
  /\ (exists e, Ingestor.ingest_all_tables db_path w = (w, Raise e)
                /\ kind e = FileNotFoundError).
Proof.
  intros H. split; [|split].
  - intros Hc.
    assert (Ht : get_tables db_path w
                 = (mk_world (Dict.set (fs w) db_path (SqliteFile [])) (store w) (log w),
                    Ok [])).
    { unfold get_tables, bind, sqlite3_connect. now rewrite H, Hc. }
    split; [exact Ht|]. rewrite Ht. cbn [fst].
    assert (Hs : fst (get_table_schema db_path name w)
                 = mk_world (Dict.set (fs w) db_path (SqliteFile [])) (store w) (log w)).
    { unfold get_table_schema, bind, sqlite3_connect, lift. rewrite H, Hc.
      destruct (bindE (table_info _ name) _) as [cs|e]; [|reflexivity].
      destruct (select_limit _ name 100) as [df|e]; [|reflexivity].
      now destruct (_detect_relationships name df _). }
    split; [exact Hs|]. split; [|split].
    + intros Hf. unfold get_table_schema. unfold bind at 1. unfold sqlite3_connect.
      rewrite H, Hc. unfold bind at 1. unfold lift at 1.
      destruct (bindE (table_info _ name) _) as [cs|e]; [|eexists; reflexivity].
      unfold bind at 1. unfold lift at 1.
      unfold select_limit, from_table, read_table. cbn [opened bindE find_table find].
      rewrite Hf. eexists. reflexivity.
    + intros Hp Hf. unfold get_table_schema. unfold bind at 1. unfold sqlite3_connect.
      rewrite H, Hc. unfold bind at 1. unfold lift at 1.
      unfold table_info, read_table. cbn [opened bindE find_table find]. rewrite Hp.
      cbn [bindE]. unfold bind at 1. unfold lift at 1.
      unfold select_limit, from_table, read_table. cbn [opened bindE find_table find].
      rewrite Hf. reflexivity.
    + rewrite (IngestorFacts.ingest_database db_path _ []).
      * reflexivity.
      * cbn [fs]. rewrite dict_get_set. now rewrite String.eqb_refl.
  - intros Hc. split.
    + unfold get_tables, bind, sqlite3_connect. now rewrite H, Hc.
    + unfold get_table_schema, bind, sqlite3_connect. now rewrite H, Hc.
  - rewrite (IngestorFacts.ingest_missing db_path w H). eexists. split; reflexivity.
Qed.



(** In a directory that is there, the file is created; asked for
    [purchases], [get_table_schema] raises; asked for [sqlite_master],
    the catalogue of the new database, it returns; in a directory that
    is not there, nothing is created. *)
Lemma missing_file_witness :
  get_tables (sql := Scenario.sqlite) "new.db" Samples.trade_world
  = (mk_world (Dict.set (fs Samples.trade_world) "new.db" (SqliteFile []))
              (store Samples.trade_world) (log Samples.trade_world),
     Ok [])
  /\ snd (get_table_schema (sql := Scenario.sqlite) "new.db" "purchases"
                           Samples.trade_world)
     = no_such_table
  /\ is_ok (snd (get_table_schema (sql := Scenario.sqlite) "new.db" "sqlite_master"
                                  Samples.trade_world)) = true
  /\ get_tables (sql := Scenario.sqlite) "nowhere/new.db" Samples.trade_world
     = (Samples.trade_world, Raise (mk_exn DatabaseError "unable to open database file")).
Proof.
  assert (H : Dict.get (fs Samples.trade_world) "new.db" = None) by reflexivity.
  assert (H' : Dict.get (fs Samples.trade_world) "nowhere/new.db" = None) by reflexivity.
  assert (Hc : can_create (platform := Scenario.sqlite) "new.db" = true) by reflexivity.
  assert (Hc' : can_create (platform := Scenario.sqlite) "nowhere/new.db" = false)
    by reflexivity.
  assert (Hp : unlisted_table (platform := Scenario.sqlite) in_pragma [] "purchases"
               = Ok None) by reflexivity.
  assert (Hf : unlisted_table (platform := Scenario.sqlite) in_from [] "purchases"
               = Ok None) by reflexivity.
  destruct (missing_file_is_created (sql := Scenario.sqlite) "new.db" "purchases"
              Samples.trade_world H) as [Hok _].
  destruct (Hok Hc) as [Ht [_ [_ [Hs _]]]].
  destruct (missing_file_is_created (sql := Scenario.sqlite) "nowhere/new.db" "purchases"
              Samples.trade_world H') as [_ [Hno _]].
  destruct (Hno Hc') as [Hg _].
  split; [exact Ht|]. split; [exact (Hs Hp Hf)|]. split; [reflexivity|exact Hg].
Defined.

End SQLiteIngestorFacts.

(** ** The layout of [create_plotly_graph] *)

Module VisualizerFacts.
Import Visualizer Terms Samples.

Lemma pos_get_set (d : list (nat * (nat * nat))) (k : nat) (v : nat * nat) (k' : nat) :
  pos_get (pos_set d k v) k' = if k =? k' then Ok v else pos_get d k'.
Proof.
  induction d as [|[k0 v0] d IH]; cbn [pos_set pos_get].
  - destruct (k =? k'); reflexivity.
  - destruct (k0 =? k) eqn:E0; cbn [pos_get].
    + apply Nat.eqb_eq in E0. subst k0. destruct (k =? k'); reflexivity.
    + rewrite IH. destruct (k0 =? k') eqn:E1; [|reflexivity].
      apply Nat.eqb_eq in E1. subst k0. now rewrite Nat.eqb_sym, E0.
Qed.

Lemma lay_untouched (nodes : list vnode) (i : nat) (d : list (nat * (nat * nat))) (k : nat) :
  ~ In k (ids nodes) ->
  pos_get (fold_left place_node (enumerate_from i nodes) d) k = pos_get d k.
Proof.
  revert i d. induction nodes as [|n nodes IH]; intros i d Hk; [reflexivity|].
  cbn [enumerate_from fold_left]. rewrite IH.
  - cbn [place_node]. rewrite pos_get_set. destruct (vn_id n =? k) eqn:E; [|reflexivity].
    apply Nat.eqb_eq in E. exfalso. apply Hk. now left.
  - intros H. apply Hk. now right.
Qed.

Lemma lay_touched (nodes : list vnode) (i : nat) (d : list (nat * (nat * nat))) (k : nat) :
  In k (ids nodes) ->
  exists v, pos_get (fold_left place_node (enumerate_from i nodes) d) k = Ok v.
Proof.
  revert i d. induction nodes as [|n nodes IH]; intros i d Hk; [destruct Hk|].
  cbn [enumerate_from fold_left].
  destruct (in_dec Nat.eq_dec k (ids nodes)) as [Hin|Hout].
  - now apply IH.
  - rewrite (lay_untouched nodes (S i) _ k Hout). cbn [place_node]. rewrite pos_get_set.
    destruct Hk as [Hk|Hk]; [|contradiction]. cbn in Hk. rewrite Hk, Nat.eqb_refl. eauto.
Qed.

Lemma lay_distinct (nodes : list vnode) (i : nat) (d : list (nat * (nat * nat)))
    (j : nat) (node : vnode) :
  NoDup (ids nodes) ->
  nth_error nodes j = Some node ->
  pos_get (fold_left place_node (enumerate_from i nodes) d) (vn_id node) = Ok (place (i + j)).
Proof.
  revert i d j. induction nodes as [|n nodes IH]; intros i d j Hnd Hj.
  - destruct j; discriminate.
  - cbn [ids map] in Hnd. inversion Hnd as [|? ? Hn Hrest]; subst.
    cbn [enumerate_from fold_left]. destruct j as [|j]; cbn [nth_error] in Hj.
    + inversion Hj; subst node. rewrite (lay_untouched nodes (S i) _ _ Hn).
      cbn [place_node]. rewrite pos_get_set, Nat.eqb_refl, Nat.add_0_r. reflexivity.
    + rewrite (IH (S i) _ j Hrest Hj). now rewrite Nat.add_succ_r.
Qed.

Lemma positions_known (nodes : list vnode) (k : nat) :
  (exists v, pos_get (positions nodes) k = Ok v) <-> In k (ids nodes).
Proof.
  unfold positions. split.
  - intros [v Hv]. destruct (in_dec Nat.eq_dec k (ids nodes)) as [Hin|Hout]; [exact Hin|].
    rewrite (lay_untouched nodes 0 [] k Hout) in Hv. discriminate.
  - apply lay_touched.
Qed.

Lemma edge_loop (pos : list (nat * (nat * nat))) (edges : list vedge)
    (acc : list (option nat) * list (option nat)) :
  (Forall (fun e => (exists v, pos_get pos (ve_source e) = Ok v)
                    /\ (exists v, pos_get pos (ve_target e) = Ok v)) edges ->
   exists ex ey, foldE edges acc (edge_body pos) = Ok (ex, ey)
                 /\ length ex = length (fst acc) + 3 * length edges
                 /\ length ey = length (snd acc) + 3 * length edges)
  /\ ((exists r, foldE edges acc (edge_body pos) = Ok r) ->
      Forall (fun e => (exists v, pos_get pos (ve_source e) = Ok v)
                       /\ (exists v, pos_get pos (ve_target e) = Ok v)) edges).
Proof.
  revert acc. induction edges as [|e edges IH]; intros [ex ey]; cbn [foldE].
  - split; [|constructor]. intros _. exists ex, ey. cbn. repeat split; lia.
  - split.
    + intros H. inversion H as [|? ? [[[x0 y0] H0] [[x1 y1] H1]] Hrest]; subst.
      unfold edge_body at 1. rewrite H0, H1. cbn [bindE].
      destruct (proj1 (IH (ex ++ [Some x0; Some x1; None],
                           ey ++ [Some y0; Some y1; None])) Hrest)
        as [ex' [ey' [Hf [Hx Hy]]]].
      exists ex', ey'. split; [exact Hf|]. cbn [fst snd length] in *.
      rewrite length_app in Hx, Hy. cbn [length] in Hx, Hy. lia.
    + unfold edge_body at 1.
      destruct (pos_get pos (ve_source e)) as [[x0 y0]|x] eqn:H0; cbn [bindE];
        [|intros [r H]; discriminate].
      destruct (pos_get pos (ve_target e)) as [[x1 y1]|x] eqn:H1; cbn [bindE];
        [|intros [r H]; discriminate].
      intros H. constructor; [split; eauto|]. exact (proj2 (IH _) H).
Qed.

Lemma node_loop (pos : list (nat * (nat * nat))) (f : nat -> nat * nat)
    (all : list vnode) (i : nat) (nodes : list vnode)
    (nx ny : list nat) (nt : list string) (nc : list nat) :
  (forall j node, nth_error nodes j = Some node ->
                  pos_get pos (vn_id node) = Ok (f (i + j))) ->
  foldE nodes (nx, ny, nt, nc) (node_body pos)
  = Ok (nx ++ map (fun j => fst (f j)) (seq i (length nodes)),
        ny ++ map (fun j => snd (f j)) (seq i (length nodes)),
        nt ++ map (fun n => (vn_label n ++ ": " ++ str (vn_name n))%string) nodes,
        nc ++ map (fun n => length (vn_properties n) * 10) nodes).
Proof.
  revert i nx ny nt nc. induction nodes as [|n nodes IH]; intros i nx ny nt nc H.
  - cbn. now rewrite !app_nil_r.
  - cbn [foldE]. unfold node_body at 1. rewrite (H 0 n eq_refl), Nat.add_0_r.
    destruct (f i) as [x y] eqn:Ef. cbn [bindE].
    rewrite (IH (S i)).
    + cbn [length seq map]. rewrite Ef. cbn [fst snd]. now rewrite <- !app_assoc.
    + intros j node Hj. rewrite (H (S j) node Hj). now rewrite Nat.add_succ_r.
Qed.

Lemma place_injective (i j : nat) : place i = place j -> i = j.
Proof.
  unfold place. intros H.
  assert (Hm : i mod 10 = j mod 10) by exact (f_equal fst H).
  assert (Hd : i / 10 = j / 10) by exact (f_equal snd H).
  pose proof (Nat.div_mod_eq i 10). pose proof (Nat.div_mod_eq j 10). lia.
Qed.

Lemma NoDup_map_injective {A B : Type} (f : A -> B) (l : list A) :
  (forall a b, f a = f b -> a = b) -> NoDup l -> NoDup (map f l).
Proof.
  intros Hf. induction 1 as [|a l Ha Hl IH]; cbn [map]; constructor; [|exact IH].
  intros Hin. apply in_map_iff in Hin. destruct Hin as [b [Eb Hb]].
  apply Hf in Eb. now subst b.
Qed.

Lemma combine_map_seq (f : nat -> nat * nat) (l : list nat) :
  combine (map (fun j => fst (f j)) l) (map (fun j => snd (f j)) l) = map f l.
Proof.
  induction l as [|a l IH]; cbn; [reflexivity|]. rewrite IH. now destruct (f a).
Qed.

Lemma node_loop_total (pos : list (nat * (nat * nat))) (nodes : list vnode)
    (nx ny : list nat) (nt : list string) (nc : list nat) :
  (forall node, In node nodes -> exists v, pos_get pos (vn_id node) = Ok v) ->
  exists nx' ny',
    foldE nodes (nx, ny, nt, nc) (node_body pos)
    = Ok (nx', ny',
          nt ++ map (fun n => (vn_label n ++ ": " ++ str (vn_name n))%string) nodes,
          nc ++ map (fun n => length (vn_properties n) * 10) nodes)
    /\ length nx' = length nx + length nodes
    /\ length ny' = length ny + length nodes.
Proof.
  revert nx ny nt nc. induction nodes as [|n nodes IH]; intros nx ny nt nc H.
  - exists nx, ny. cbn. rewrite !app_nil_r. repeat split; lia.
  - cbn [foldE]. unfold node_body at 1.
    destruct (H n (or_introl eq_refl)) as [[x y] Hv]. rewrite Hv. cbn [bindE].
    destruct (IH (nx ++ [x]) (ny ++ [y])
                 (nt ++ [(vn_label n ++ ": " ++ str (vn_name n))%string])
                 (nc ++ [length (vn_properties n) * 10]))
      as [nx' [ny' [Hf [Hx Hy]]]].
    + intros node Hin. apply H. now right.
    + exists nx', ny'. rewrite Hf. cbn [map length].
      rewrite <- !app_assoc. cbn [app]. split; [reflexivity|].
      rewrite length_app in Hx, Hy. cbn [length] in Hx, Hy. lia.
Qed.

Lemma plot_unfolded (g : graph_data) :
  create_plotly_graph g
  = bindE (foldE (gd_edges g) ([], []) (edge_body (positions (gd_nodes g)))) (fun et =>
    bindE (foldE (gd_nodes g) ([], [], [], []) (node_body (positions (gd_nodes g))))
      (fun nt =>
         let '(edge_x, edge_y) := et in
         let '(node_x, node_y, node_text, node_colors) := nt in
         Ok (mk_figure edge_x edge_y node_x node_y node_text node_colors
               ("Nodes: " ++ Py.str_of_Z (Z.of_nat (length (gd_nodes g)))
                ++ " | Edges: " ++ Py.str_of_Z (Z.of_nat (length (gd_edges g))))%string))).
Proof. reflexivity. Qed.

Lemma pos_get_error (d : list (nat * (nat * nat))) (k : nat) (e : exn) :
  pos_get d k = Raise e -> kind e = KeyError.
Proof.
  induction d as [|[k' v] d IH]; cbn [pos_get].
  - intros H. now inversion H.
  - destruct (k' =? k); [discriminate|exact IH].
Qed.

Lemma edge_loop_error (pos : list (nat * (nat * nat))) (edges : list vedge)
    (acc : list (option nat) * list (option nat)) (e : exn) :
  foldE edges acc (edge_body pos) = Raise e -> kind e = KeyError.
Proof.
  revert acc. induction edges as [|ed edges IH]; intros [ex ey]; cbn [foldE];
    [discriminate|].
  unfold edge_body at 1.
  destruct (pos_get pos (ve_source ed)) as [[x0 y0]|x] eqn:H0; cbn [bindE].
  - destruct (pos_get pos (ve_target ed)) as [[x1 y1]|x] eqn:H1; cbn [bindE].
    + apply IH.
    + intros H. inversion H; subst. exact (pos_get_error _ _ _ H1).
  - intros H. inversion H; subst. exact (pos_get_error _ _ _ H0).
Qed.

Lemma anchored_iff (g : graph_data) :
  Forall (fun e => (exists v, pos_get (positions (gd_nodes g)) (ve_source e) = Ok v)
                   /\ (exists v, pos_get (positions (gd_nodes g)) (ve_target e) = Ok v))
         (gd_edges g)
  <-> Forall (fun e => In (ve_source e) (ids (gd_nodes g))
                       /\ In (ve_target e) (ids (gd_nodes g)))
             (gd_edges g).
Proof.
  split; apply Forall_impl; intros e [H1 H2]; split;
    now apply (positions_known (gd_nodes g)).
Qed.

(** X20. [create_plotly_graph] returns exactly when both ends of every
    edge are ids of nodes of the graph, and raises [KeyError]
    otherwise.  When it returns, the edge trace holds three
    coordinates per edge (two ends and a separator) on each axis, and
    the node trace one entry per node, with the text "label: name" and
    ten times the number of properties as colour. *)
Theorem plot_returns_iff_edges_are_anchored (g : graph_data) :
  ((exists fig, create_plotly_graph g = Ok fig)
   <-> Forall (fun e => In (ve_source e) (ids (gd_nodes g))
                        /\ In (ve_target e) (ids (gd_nodes g)))
              (gd_edges g))
  /\ (forall e, create_plotly_graph g = Raise e -> kind e = KeyError)
  /\ (forall fig, create_plotly_graph g = Ok fig ->
        length (edge_x fig) = 3 * length (gd_edges g)
        /\ length (edge_y fig) = 3 * length (gd_edges g)
        /\ length (node_x fig) = length (gd_nodes g)
        /\ length (node_y fig) = length (gd_nodes g)
        /\ node_text fig
           = map (fun n => (vn_label n ++ ": " ++ str (vn_name n))%string) (gd_nodes g)
        /\ node_colors fig = map (fun n => length (vn_properties n) * 10) (gd_nodes g)).
Proof.
  rewrite plot_unfolded. rewrite <- anchored_iff.
  destruct (edge_loop (positions (gd_nodes g)) (gd_edges g) ([], [])) as [Hto Hfrom].
  destruct (node_loop_total (positions (gd_nodes g)) (gd_nodes g) [] [] [] [])
    as [nx [ny [Hn [Hx Hy]]]].
  { intros node Hin. apply positions_known. unfold ids. now apply in_map. }
  rewrite Hn. cbn [bindE app length] in *.
  destruct (foldE (gd_edges g) ([], []) (edge_body (positions (gd_nodes g))))
    as [[ex ey]|e] eqn:Ee; cbn [bindE].
  - split; [split; [intros _; apply Hfrom; eauto|eauto]|].
    split; [discriminate|].
    intros fig H. inversion H; subst fig; clear H. cbn.
    destruct (Hto (Hfrom (ex_intro _ _ eq_refl))) as [ex' [ey' [E [Lx Ly]]]].
    inversion E; subst ex' ey'. cbn [fst snd length] in Lx, Ly.
    repeat split; try reflexivity; lia.
  - split; [split|].
    + intros [fig H]. discriminate.
    + intros H. destruct (Hto H) as [ex [ey [E _]]]. discriminate.
    + split; [|discriminate]. intros e0 H. inversion H; subst e0.
      exact (edge_loop_error _ _ _ _ Ee).
Qed.

(** X21. When the nodes have pairwise distinct ids, the node at
    position [i] of the list is drawn at column [i mod 10] of row
    [i / 10]: the layout is a grid ten wide, filled in the order of the
    list, and no two nodes are drawn at the same place. *)
Theorem plot_layout_is_a_grid (g : graph_data) (fig : figure) :
  NoDup (ids (gd_nodes g)) ->
  create_plotly_graph g = Ok fig ->
  node_x fig = map (fun i => i mod 10) (seq 0 (length (gd_nodes g)))
  /\ node_y fig = map (fun i => i / 10) (seq 0 (length (gd_nodes g)))
  /\ NoDup (combine (node_x fig) (node_y fig)).
Proof.
  intros Hnd. rewrite plot_unfolded.
  rewrite (node_loop (positions (gd_nodes g)) place (gd_nodes g) 0 (gd_nodes g)
                     [] [] [] []).
  2:{ intros j node Hj. unfold positions.
      exact (lay_distinct (gd_nodes g) 0 [] j node Hnd Hj). }
  destruct (foldE (gd_edges g) ([], []) (edge_body (positions (gd_nodes g))))
    as [[ex ey]|e]; cbn [bindE app]; [|discriminate].
  intros H. inversion H; subst fig; clear H. cbn [node_x node_y].
  split; [reflexivity|]. split; [reflexivity|].
  rewrite (combine_map_seq place).
  apply NoDup_map_injective; [|apply seq_NoDup].
  intros i j. apply place_injective.
Qed.

Lemma plot_layout_witness :
  exists fig,
    create_plotly_graph two_nodes = Ok fig
    /\ NoDup (combine (node_x fig) (node_y fig)).
Proof.
  assert (H : NoDup (ids (gd_nodes two_nodes))).
  { repeat constructor; cbn; intuition discriminate. }
  eexists. split; [reflexivity|].
  match goal with
  | |- NoDup (combine (node_x ?f) _) =>
      exact (proj2 (proj2 (plot_layout_is_a_grid two_nodes f H eq_refl)))
  end.
Defined.

End VisualizerFacts.

(** ** The scores of the evaluation *)

Module EvaluatorFacts.
Import PyText Evaluator Samples.

Lemma intersection_size_le (a b : list string) : intersection_size a b <= length a.
Proof.
  unfold intersection_size. induction a as [|x a IH]; cbn; [lia|].
  destruct (existsb (String.eqb x) b); cbn; lia.
Qed.

Lemma intersection_size_empty (a : list string) : intersection_size a [] = 0.
Proof. unfold intersection_size. induction a as [|x a IH]; cbn; [reflexivity|exact IH]. Qed.

Lemma intersection_size_self (a : list string) : intersection_size a a = length a.
Proof.
  unfold intersection_size.
  assert (H : forall l, (forall x, In x l -> In x a) ->
                        length (filter (fun x => existsb (String.eqb x) a) l) = length l).
  { induction l as [|x l IH]; intros Hl; cbn; [reflexivity|].
    assert (E : existsb (String.eqb x) a = true).
    { apply existsb_exists. exists x. split; [apply Hl; now left|apply String.eqb_refl]. }
    rewrite E. cbn. rewrite IH; [reflexivity|]. intros y Hy. apply Hl. now right. }
  apply H. trivial.
Qed.

(** Every reference answer has at least one word. *)
Lemma gold_has_tokens (question gold : string) :
  Dict.get ground_truth question = Some gold ->
  to_set (split (Py.lower gold)) <> [].
Proof.
  unfold ground_truth. cbn [Dict.get].
  repeat match goal with
         | |- (if ?c then _ else _) = _ -> _ => destruct c
         end;
    intros H; inversion H; subst gold; vm_compute; discriminate.
Qed.

(** X22. The score of a result is a fraction between 0 and 1: the
    number of distinct words of the answer (lower-cased) that occur in
    the reference answer of the question, over the number of distinct
    words of the answer, or over 1 when the answer has none.  It is 0
    for a question that has no reference answer, and 1 for an answer
    that is the reference answer up to the case of its letters. *)
Theorem score_is_a_fraction (result : Dict.dict string) (s : score) :
  score_of result = Ok s ->
  overlap s <= tokens s
  /\ 1 <= tokens s
  /\ (Dict.get ground_truth (s_question s) = None -> overlap s = 0)
  /\ (forall gold final_answer,
        Dict.get ground_truth (s_question s) = Some gold ->
        Dict.get result "final_answer" = Some final_answer ->
        Py.lower final_answer = Py.lower gold ->
        overlap s = tokens s).
Proof.
  unfold score_of, field.
  destruct (Dict.get result "question") as [question|]; cbn [bindE]; [|discriminate].
  destruct (Dict.get result "final_answer") as [final_answer|]; cbn [bindE];
    [|discriminate].
  destruct (Dict.get result "method") as [method|]; cbn [bindE]; [|discriminate].
  remember (Dict.get ground_truth question) as og eqn:Eg.
  intros H. injection H as <-. cbn [overlap tokens s_question]. rewrite <- Eg.
  split; [|split; [lia|split]].
  - eapply Nat.le_trans; [apply intersection_size_le|apply Nat.le_max_l].
  - intros ->. apply intersection_size_empty.
  - intros gold answer Hg Hf Hl. injection Hf as ->. rewrite Hg, Hl.
    rewrite intersection_size_self. rewrite Hg in Eg. symmetry in Eg.
    pose proof (gold_has_tokens question gold Eg) as Hne.
    destruct (to_set (split (Py.lower gold))); [contradiction|]. cbn [length]. lia.
Qed.

Lemma score_witness :
  exists s, score_of hired_result = Ok s /\ overlap s <= tokens s.
Proof.
  eexists. split; [reflexivity|].
  match goal with
  | |- overlap ?s <= _ => exact (proj1 (score_is_a_fraction hired_result s eq_refl))
  end.
Defined.

End EvaluatorFacts.


(** ** The converter of one table *)

Module TableToKGFacts.
Import Sqlite SQLiteIngestor TableToKG Spec Terms.
Import PyText PyTextFacts SQLiteIngestorFacts TraceFacts.

Lemma length_append (a b : string) :
  String.length (a ++ b) = String.length a + String.length b.
Proof. induction a as [|c a IH]; cbn; [reflexivity|now rewrite IH]. Qed.

Lemma substring_all (s : string) : substring 0 (String.length s) s = s.
Proof. induction s as [|c s IH]; cbn; [reflexivity|now rewrite IH]. Qed.

Lemma substring_after (p s : string) (n : nat) :
  substring (String.length p) n (p ++ s) = substring 0 n s.
Proof. induction p as [|c p IH]; cbn; [reflexivity|exact IH]. Qed.

Lemma endswith_append (p suffix : string) : endswith (p ++ suffix) suffix = true.
Proof.
  unfold endswith. rewrite length_append.
  replace (String.length p + String.length suffix - String.length suffix)
    with (String.length p) by lia.
  rewrite substring_after, substring_all, String.eqb_refl.
  rewrite andb_true_r. apply Nat.leb_le. lia.
Qed.

Lemma append_assoc (a b c : string) : ((a ++ b) ++ c = a ++ (b ++ c))%string.
Proof. induction a as [|x a IH]; cbn; [reflexivity|now rewrite IH]. Qed.

Lemma contains_append (p s : string) : Py.contains s (p ++ s) = true.
Proof.
  induction p as [|c p IH]; cbn [append].
  - destruct s as [|a s]; cbn [Py.contains]; [reflexivity|].
    rewrite prefix_same_head.
    assert (H : forall t, prefix t t = true).
    { induction t as [|x t IHt]; [reflexivity|]. now rewrite prefix_same_head. }
    now rewrite H.
  - cbn [Py.contains]. rewrite IH. apply orb_true_r.
Qed.

(** A column named [..._id] matches the three patterns. *)
Lemma id_column_matches (p : string) (entry : pattern * string) :
  In entry relationship_patterns -> re_search (fst entry) (p ++ "_id") = true.
Proof.
  intros [<-|[<-|[<-|[]]]]; cbn [fst re_search]; unfold search_at_end.
  - now rewrite endswith_append.
  - apply contains_append.
  - replace (p ++ "_id")%string with ((p ++ "_") ++ "id")%string
      by (now rewrite append_assoc).
    now rewrite endswith_append.
Qed.


Section Sent.

Context {sql : platform}.
Variable store_fault : nat -> bool.
Variable is_object : DataFrame -> string -> bool.

Section Invariant.

Variable I : world -> Prop.

Lemma sends_unit : sends store_fault I (unit_T tt) [].
Proof.
  intros [w l] _. cbn. split; [reflexivity|].
  split; [exists []|]; now rewrite app_nil_r.
Qed.

Lemma sends_run (q : statement) : sends store_fault I (send store_fault q) [q].
Proof.
  intros [w l] _. unfold send. cbn [fst snd].
  destruct (store_fault (length l)) eqn:E; cbn [fst snd].
  - split; [reflexivity|]. split; [now exists [q]|]. intros H. rewrite H in E. discriminate.
  - split; [reflexivity|]. split; [now exists [q]|]. reflexivity.
Qed.

Lemma sends_bind (m : T unit) (k : unit -> T unit) (tr1 tr2 : list statement) :
  sends store_fault I m tr1 -> sends store_fault I (k tt) tr2 ->
  sends store_fault I (bind_T m k) (tr1 ++ tr2).
Proof.
  intros Hm Hk s Hw. unfold bind_T. destruct (Hm s Hw) as [Hf [[sent Hs] Hr]].
  destruct (m s) as [s1 [[]|e]] eqn:Em; cbn [fst snd] in *.
  - destruct (Hk s1) as [Hf' [[sent' Hs'] Hr']]; [now rewrite Hf|].
    split; [congruence|]. split.
    + exists (sent ++ sent'). now rewrite Hs', Hs, app_assoc.
    + intros H. specialize (Hr H). inversion Hr; subst s1.
      rewrite (Hr' H). cbn [fst snd]. now rewrite app_assoc.
  - split; [exact Hf|]. split; [now exists sent|].
    intros H. specialize (Hr H). discriminate.
Qed.


Variable schema : table_schema.
Variable source_table : string.

Lemma sends_pattern_loop (col : string) :
  sends store_fault I
        (for_each relationship_patterns (pattern_body store_fault schema source_table col))
        (links_of schema source_table col).
Proof.
  unfold links_of.
  assert (H : forall l,
             sends store_fault I
                   (for_each l (pattern_body store_fault schema source_table col))
                   (map (link schema source_table col)
                        (filter (fun entry => re_search (fst entry) col) l))).
  { induction l as [|[p r] l IH]; cbn [for_each filter fst].
    - apply sends_unit.
    - unfold pattern_body at 1. destruct (re_search p col).
      + change (map (link schema source_table col) ((p, r) :: ?x))
          with ([link schema source_table col (p, r)]
                ++ map (link schema source_table col) x).
        apply sends_bind; [apply sends_run|exact IH].
      + change (map (link schema source_table col) ?x)
          with ([] ++ map (link schema source_table col) x).
        apply sends_bind; [apply sends_unit|exact IH]. }
  apply H.
Qed.

End Invariant.

Section OneSchema.

Variable schema : table_schema.
Variable source_table : string.

(** X23. For a column whose name ends in [_id], the converter sends
    the statement that links the rows to their targets three times,
    once for each of its three patterns, which all match such a name;
    for any column it sends it once per matching pattern. *)
Theorem id_column_is_linked_three_times (p : string) (s : state) :
  (forall n, store_fault n = false) ->
  for_each relationship_patterns
           (pattern_body store_fault schema source_table (p ++ "_id")) s
  = ((fst s,
      snd s ++ [link schema source_table (p ++ "_id") (UnderscoreIdAtEnd, "BELONGS_TO");
                link schema source_table (p ++ "_id") (UnderscoreIdAtEnd, "BELONGS_TO");
                link schema source_table (p ++ "_id") (UnderscoreIdAtEnd, "BELONGS_TO")]),
     Ok tt)
  /\ forall col,
       for_each relationship_patterns (pattern_body store_fault schema source_table col) s
       = ((fst s, snd s ++ links_of schema source_table col), Ok tt).
Proof.
  intros Hf.
  assert (Hall : forall col,
            for_each relationship_patterns
                     (pattern_body store_fault schema source_table col) s
            = ((fst s, snd s ++ links_of schema source_table col), Ok tt)).
  { intros col.
    destruct (sends_pattern_loop (fun _ => True) schema source_table col s Logic.I)
      as [_ [_ H]].
    exact (H Hf). }
  split; [|exact Hall].
  rewrite Hall. unfold links_of.
  assert (E : filter (fun entry => re_search (fst entry) (p ++ "_id")) relationship_patterns
              = relationship_patterns).
  { apply forallb_filter_id. apply forallb_forall. intros entry.
    apply id_column_matches. }
  rewrite E. reflexivity.
Qed.

Variable db_path : string.
Variable db : database.





End OneSchema.




End Sent.

Lemma id_column_witness :
  for_each relationship_patterns
           (pattern_body Scenario.no_fault
              (mk_table_schema "purchases" [] (Some "pid") (mk_df [] []) 0 [] [])
              "purchases" ("client" ++ "_id"))
           (Samples.trade_world, [])
  = ((Samples.trade_world,
      [] ++ [link (mk_table_schema "purchases" [] (Some "pid") (mk_df [] []) 0 [] [])
                  "purchases" ("client" ++ "_id") (UnderscoreIdAtEnd, "BELONGS_TO");
             link (mk_table_schema "purchases" [] (Some "pid") (mk_df [] []) 0 [] [])
                  "purchases" ("client" ++ "_id") (UnderscoreIdAtEnd, "BELONGS_TO");
             link (mk_table_schema "purchases" [] (Some "pid") (mk_df [] []) 0 [] [])
                  "purchases" ("client" ++ "_id") (UnderscoreIdAtEnd, "BELONGS_TO")]),
     Ok tt).
Proof.
  assert (H : forall n, Scenario.no_fault n = false) by reflexivity.
  exact (proj1 (id_column_is_linked_three_times Scenario.no_fault
                  (mk_table_schema "purchases" [] (Some "pid") (mk_df [] []) 0 [] [])
                  "purchases" "client" (Samples.trade_world, []) H)).
Defined.


End TableToKGFacts.
